(** * pywhois: the WHOIS response parser (parser.py)

    A shallow embedding of [pywhois/parser.py] and of the fragment of the
    Python 2 runtime it relies on (byte strings, [re], [time.strptime],
    attribute lookup on new-style instances), followed by the properties
    of the dispatcher, the lazy field access and the date caster. *)

From Stdlib Require Import Ascii String ZArith Lia.
From stdpp Require Import base option list sorting gmap strings.

Local Open Scope stdpp_scope.

(** ** Python byte strings *)

Module Py.

(** Characters that have no literal spelling in a Rocq string. *)
Definition TAB : ascii := "009"%char.
Definition LF : ascii := "010"%char.
Definition VT : ascii := "011"%char.
Definition FF : ascii := "012"%char.
Definition CR : ascii := "013"%char.
Definition DQUOTE : ascii := "034"%char.

Definition chr (c : ascii) : string := String c EmptyString.
Definition cr : string := chr CR.
Definition lf : string := chr LF.
Definition dquote : string := chr DQUOTE.

(** [c.isspace()] in the C locale. *)
Definition isspace (c : ascii) : bool :=
  match c with
  | "009" | "010" | "011" | "012" | "013" | " " => true
  | _ => false
  end%char.

Definition in_range (lo hi c : ascii) : bool :=
  (nat_of_ascii lo <=? nat_of_ascii c) && (nat_of_ascii c <=? nat_of_ascii hi).

Definition isdigit (c : ascii) : bool := in_range "0"%char "9"%char c.
Definition isupper (c : ascii) : bool := in_range "A"%char "Z"%char c.
Definition islower (c : ascii) : bool := in_range "a"%char "z"%char c.
Definition isalnum (c : ascii) : bool := isdigit c || isupper c || islower c.

Definition tolower (c : ascii) : ascii :=
  if isupper c then ascii_of_nat (nat_of_ascii c + 32) else c.
Definition toupper (c : ascii) : ascii :=
  if islower c then ascii_of_nat (nat_of_ascii c - 32) else c.

Definition chars (s : string) : list ascii := list_ascii_of_string s.
Definition str (l : list ascii) : string := string_of_list_ascii l.

(** [s.lower()] *)
Definition lower (s : string) : string := str (tolower <$> chars s).

(** [s.lstrip()], [s.rstrip()] and [s.strip()] without argument. *)
Fixpoint lstrip_chars (l : list ascii) : list ascii :=
  match l with
  | c :: l' => if isspace c then lstrip_chars l' else l
  | [] => []
  end.

Definition strip_chars (l : list ascii) : list ascii :=
  reverse (lstrip_chars (reverse (lstrip_chars l))).

Definition strip (s : string) : string := str (strip_chars (chars s)).

(** [s[-n:]] for a positive literal [n]: the last [n] characters, or
    the whole of [s] when it is shorter. *)
Definition last_chars (n : nat) (s : string) : string :=
  str (drop (length (chars s) - n) (chars s)).

(** [a == b] on strings. *)
Definition eq (a b : string) : bool := String.eqb a b.

(** [sub in s]: substring test. *)
Fixpoint startswith_chars (p l : list ascii) : bool :=
  match p, l with
  | [], _ => true
  | c :: p', x :: l' => Ascii.eqb c x && startswith_chars p' l'
  | _ :: _, [] => false
  end.

Fixpoint contains_chars (p l : list ascii) : bool :=
  startswith_chars p l ||
  match l with
  | [] => false
  | _ :: l' => contains_chars p l'
  end.

Definition contains (sub s : string) : bool :=
  contains_chars (chars sub) (chars s).

(** Truth value of a string in a condition. *)
Definition truthy (s : string) : bool :=
  match s with EmptyString => false | _ => true end.

(** [int(s)] for a string of decimal digits, with the surrounding blanks
    that [int] accepts. *)
Definition digit_val (c : ascii) : Z := Z.of_nat (nat_of_ascii c - 48).

Definition int_chars (l : list ascii) : Z :=
  foldl (fun acc c => if isdigit c then (10 * acc + digit_val c)%Z else acc) 0%Z l.

End Py.

(** ** Exceptions and results *)

Inductive exn :=
| PywhoisError (text : string)
| KeyError (msg : string)
| ValueError
| AttributeError (name : string)
| TypeError
| RuntimeError
| ReError.

Inductive result (A : Type) :=
| Ok (a : A)
| Raise (e : exn).
Arguments Ok {A} a.
Arguments Raise {A} e.

(** An element of the list that [re.findall] returns: a string, or a tuple
    of strings when the pattern has several groups. *)
Inductive elem :=
| EStr (s : string)
| ETuple (items : list string).

(** ** The [re] module: patterns, compilation, backtracking match *)

Module Re.

Inductive item :=
| IChar (c : ascii)
| IRange (lo hi : ascii)
| IDigit                      (* \d *)
| IWord                       (* \w *)
| ISpace                      (* \s *)
| INot (i : item).            (* \D \W \S *)

Inductive regex :=
| REmpty
| RChar (c : ascii)
| RAny                                   (* . *)
| RSet (neg : bool) (items : list item)  (* [...] and \d \w \s *)
| RSeq (r1 r2 : regex)
| RAlt (r1 r2 : regex)
| RRep (r : regex) (lo : nat) (hi : option nat)   (* greedy r{lo,hi} *)
| RGroup (n : nat) (r : regex).

Fixpoint item_has (i : item) (c : ascii) : bool :=
  match i with
  | IChar x => Ascii.eqb x c
  | IRange lo hi => Py.in_range lo hi c
  | IDigit => Py.isdigit c
  | IWord => Py.isalnum c || Ascii.eqb c "_"%char
  | ISpace => Py.isspace c
  | INot i' => negb (item_has i' c)
  end.

Definition set_has (items : list item) (c : ascii) : bool :=
  existsb (fun i => item_has i c) items.

(** Under IGNORECASE a character matches when either of its cases does. *)
Definition char_matches (icase : bool) (c x : ascii) : bool :=
  if icase then Ascii.eqb (Py.tolower c) (Py.tolower x) else Ascii.eqb c x.

Definition set_matches (icase neg : bool) (items : list item) (x : ascii) : bool :=
  xorb neg
    (if icase then set_has items (Py.tolower x) || set_has items (Py.toupper x)
     else set_has items x).

(** Captures: group number and the text it matched last, newest first. *)
Definition caps := list (nat * list ascii).

Fixpoint group (g : caps) (n : nat) : option (list ascii) :=
  match g with
  | (m, txt) :: g' => if Nat.eqb m n then Some txt else group g' n
  | [] => None
  end.

Definition below (hi : option nat) (count : nat) : bool :=
  match hi with
  | None => true
  | Some h => count <? h
  end.

Section Matcher.
Context {R : Type}.
Variable icase : bool.

(** Greedy iteration of [body], which is the matcher of the repeated
    expression.  An iteration that consumes nothing is only taken while the
    lower bound is not yet met. *)
Fixpoint rep (body : list ascii → caps → (list ascii → caps → option R) → option R)
    (lo : nat) (hi : option nat) (k : list ascii → caps → option R)
    (fuel count : nat) (s : list ascii) (g : caps) : option R :=
  let stop := if lo <=? count then k s g else None in
  match fuel with
  | 0 => stop
  | S fuel' =>
      if below hi count then
        match body s g (fun s' g' =>
                if (length s' <? length s) || (S count <=? lo)
                then rep body lo hi k fuel' (S count) s' g'
                else None) with
        | Some res => Some res
        | None => stop
        end
      else stop
  end.

(** [rmatch r s g k]: match [r] at the head of [s], then hand the rest of
    the input and the captures to [k]; alternatives are tried in order
    until [k] accepts. *)
Fixpoint rmatch (r : regex) (s : list ascii) (g : caps)
    (k : list ascii → caps → option R) {struct r} : option R :=
  match r with
  | REmpty => k s g
  | RChar c =>
      match s with
      | x :: s' => if char_matches icase c x then k s' g else None
      | [] => None
      end
  | RAny =>
      match s with
      | x :: s' => if Ascii.eqb x Py.LF then None else k s' g
      | [] => None
      end
  | RSet neg items =>
      match s with
      | x :: s' => if set_matches icase neg items x then k s' g else None
      | [] => None
      end
  | RSeq r1 r2 => rmatch r1 s g (fun s' g' => rmatch r2 s' g' k)
  | RAlt r1 r2 =>
      match rmatch r1 s g k with
      | Some res => Some res
      | None => rmatch r2 s g k
      end
  | RRep r' lo hi => rep (rmatch r') lo hi k (lo + length s) 0 s g
  | RGroup n r' =>
      rmatch r' s g (fun s' g' => k s' ((n, take (length s - length s') s) :: g'))
  end.
End Matcher.

(** [pattern.match(s)]: the first match anchored at the start of [s], as
    the unmatched rest of [s] and the captures. *)
Definition match_here (icase : bool) (r : regex) (s : list ascii)
    : option (list ascii * caps) :=
  rmatch icase r s [] (fun s' g => Some (s', g)).

(** *** Compilation of a pattern string

    The fragment of the pattern language that parser.py uses: literals,
    [.], escapes, [\d \w \s] and their complements, bracket sets with ranges,
    the greedy quantifiers [? * + {m,n}], groups [(...)] numbered by their
    opening parenthesis, [(?:...)] and alternation.  Anything else (anchors,
    back references, lazy quantifiers, flags) and every malformed pattern
    yields [None]. *)

Definition escape_item (c : ascii) : option item :=
  match c with
  | "d" => Some IDigit
  | "w" => Some IWord
  | "s" => Some ISpace
  | "D" => Some (INot IDigit)
  | "W" => Some (INot IWord)
  | "S" => Some (INot ISpace)
  | "n" => Some (IChar Py.LF)
  | "r" => Some (IChar Py.CR)
  | "t" => Some (IChar Py.TAB)
  | "f" => Some (IChar Py.FF)
  | "v" => Some (IChar Py.VT)
  | _ => if Py.isalnum c then None else Some (IChar c)
  end%char.

Definition item_regex (i : item) : regex :=
  match i with
  | IChar c => RChar c
  | _ => RSet false [i]
  end.

Definition read_item (s : list ascii) : option (item * list ascii) :=
  match s with
  | "\"%char :: c :: s' => i ← escape_item c; Some (i, s')
  | "\"%char :: [] => None
  | c :: s' => Some (IChar c, s')
  | [] => None
  end.

(** The members of a bracket set, up to and including its closing bracket. *)
Fixpoint parse_items (fuel : nat) (first : bool) (s : list ascii) (acc : list item)
    : option (list item * list ascii) :=
  match fuel with
  | 0 => None
  | S fuel' =>
      let member :=
        '(i1, s1) ← read_item s;
        match s1 with
        | "-"%char :: "]"%char :: s2 => Some (reverse (IChar "-"%char :: i1 :: acc), s2)
        | "-"%char :: s2 =>
            '(i2, s3) ← read_item s2;
            match i1, i2 with
            | IChar lo, IChar hi =>
                if nat_of_ascii lo <=? nat_of_ascii hi
                then parse_items fuel' false s3 (IRange lo hi :: acc)
                else None
            | _, _ => None
            end
        | _ => parse_items fuel' false s1 (i1 :: acc)
        end in
      match s with
      | "]"%char :: s' => if first then member else Some (reverse acc, s')
      | _ => member
      end
  end.

Definition parse_set (s : list ascii) : option (regex * list ascii) :=
  match s with
  | "^"%char :: s' => '(items, s1) ← parse_items (length s) true s' []; Some (RSet true items, s1)
  | _ => '(items, s1) ← parse_items (length s) true s []; Some (RSet false items, s1)
  end.

Fixpoint read_digits (s : list ascii) (acc : list ascii) : list ascii * list ascii :=
  match s with
  | c :: s' => if Py.isdigit c then read_digits s' (c :: acc) else (reverse acc, s)
  | [] => (reverse acc, [])
  end.

Definition digits_nat (d : list ascii) : nat := Z.to_nat (Py.int_chars d).

(** The text after an opening brace: [m}], [m,}], [,n}] or [m,n}]. *)
Definition parse_bounds (s : list ascii) : option (nat * option nat * list ascii) :=
  let '(d1, s1) := read_digits s [] in
  match s1 with
  | "}"%char :: s2 =>
      match d1 with
      | [] => None
      | _ => Some (digits_nat d1, Some (digits_nat d1), s2)
      end
  | ","%char :: s2 =>
      let '(d2, s3) := read_digits s2 [] in
      match s3 with
      | "}"%char :: s4 =>
          Some (digits_nat d1, match d2 with [] => None | _ => Some (digits_nat d2) end, s4)
      | _ => None
      end
  | _ => None
  end.

Definition starts_quantifier (s : list ascii) : bool :=
  match s with
  | "?"%char :: _ | "*"%char :: _ | "+"%char :: _ => true
  | "{"%char :: s' => match parse_bounds s' with Some _ => true | None => false end
  | _ => false
  end.

Definition parse_quant (a : regex) (s : list ascii) : option (regex * list ascii) :=
  let once (q : regex) (s' : list ascii) :=
    if starts_quantifier s' then None else Some (q, s') in
  match s with
  | "?"%char :: s' => once (RRep a 0 (Some 1)) s'
  | "*"%char :: s' => once (RRep a 0 None) s'
  | "+"%char :: s' => once (RRep a 1 None) s'
  | "{"%char :: s' =>
      match parse_bounds s' with
      | Some (lo, hi, s2) =>
          match hi with
          | Some h => if h <? lo then None else once (RRep a lo hi) s2
          | None => once (RRep a lo hi) s2
          end
      | None => Some (a, s)
      end
  | _ => Some (a, s)
  end.

(** Alternation, sequence and atom; [n] counts the groups opened so far. *)
Fixpoint parse_alt (fuel : nat) (s : list ascii) (n : nat)
    : option (regex * list ascii * nat) :=
  match fuel with
  | 0 => None
  | S fuel' =>
      '(r1, s1, n1) ← parse_seq fuel' s n;
      match s1 with
      | "|"%char :: s2 => '(r2, s3, n3) ← parse_alt fuel' s2 n1; Some (RAlt r1 r2, s3, n3)
      | _ => Some (r1, s1, n1)
      end
  end
with parse_seq (fuel : nat) (s : list ascii) (n : nat)
    : option (regex * list ascii * nat) :=
  match fuel with
  | 0 => None
  | S fuel' =>
      match s with
      | [] | "|"%char :: _ | ")"%char :: _ => Some (REmpty, s, n)
      | _ =>
          '(a, s1, n1) ← parse_atom fuel' s n;
          '(q, s2) ← parse_quant a s1;
          '(rest, s3, n3) ← parse_seq fuel' s2 n1;
          Some (RSeq q rest, s3, n3)
      end
  end
with parse_atom (fuel : nat) (s : list ascii) (n : nat)
    : option (regex * list ascii * nat) :=
  match fuel with
  | 0 => None
  | S fuel' =>
      match s with
      | "("%char :: "?"%char :: ":"%char :: s' =>
          '(r, s1, n1) ← parse_alt fuel' s' n;
          match s1 with
          | ")"%char :: s2 => Some (r, s2, n1)
          | _ => None
          end
      | "("%char :: "?"%char :: _ => None
      | "("%char :: s' =>
          '(r, s1, n1) ← parse_alt fuel' s' (S n);
          match s1 with
          | ")"%char :: s2 => Some (RGroup (S n) r, s2, n1)
          | _ => None
          end
      | "["%char :: s' => '(r, s1) ← parse_set s'; Some (r, s1, n)
      | "\"%char :: c :: s' =>
          if Py.isdigit c then None
          else i ← escape_item c; Some (item_regex i, s', n)
      | "\"%char :: [] => None
      | "."%char :: s' => Some (RAny, s', n)
      | "?"%char :: _ | "*"%char :: _ | "+"%char :: _ => None
      | "^"%char :: _ | "$"%char :: _ => None
      | c :: s' => Some (RChar c, s', n)
      | [] => None
      end
  end.

Record pattern := { pat_regex : regex; pat_groups : nat }.

(** [re.compile(p)] *)
Definition compile (p : string) : option pattern :=
  let s := Py.chars p in
  '(r, rest, n) ← parse_alt (3 * length s + 3) s 0;
  match rest with
  | [] => Some {| pat_regex := r; pat_groups := n |}
  | _ => None
  end.

(** *** Scanning

    [scan] walks the text from left to right.  At each position it tries an
    anchored match; on success it records where the match starts, where it
    ends and its captures, and resumes at the end of the match (one character
    further when the match is empty); on failure it moves one character on. *)
Record hit := { hit_from : list ascii; hit_rest : list ascii; hit_caps : caps }.

Definition hit_text (h : hit) : list ascii :=
  take (length (hit_from h) - length (hit_rest h)) (hit_from h).

Fixpoint scan (fuel : nat) (r : regex) (s : list ascii) : list hit :=
  match fuel with
  | 0 => []
  | S fuel' =>
      let next := match s with [] => [] | _ :: s' => scan fuel' r s' end in
      match match_here false r s with
      | Some (rest, g) =>
          {| hit_from := s; hit_rest := rest; hit_caps := g |} ::
          (if length rest <? length s then scan fuel' r rest else next)
      | None => next
      end
  end.

(** The text of group [n], empty when the group took no part in the match. *)
Definition group_text (h : hit) (n : nat) : string :=
  Py.str (default [] (group (hit_caps h) n)).

Definition elem_of_hit (groups : nat) (h : hit) : elem :=
  match groups with
  | 0 => EStr (Py.str (hit_text h))
  | 1 => EStr (group_text h 1)
  | _ => ETuple (group_text h <$> seq 1 groups)
  end.

Definition scan_all (r : regex) (s : list ascii) : list hit := scan (S (length s)) r s.

(** [re.findall(p, text)], or [None] where [re.compile(p)] fails. *)
Definition findall (p text : string) : option (list elem) :=
  pt ← compile p;
  Some (elem_of_hit (pat_groups pt) <$> scan_all (pat_regex pt) (Py.chars text)).

End Re.

(** ** The [time] module: [time.strptime]

    [time.strptime(s, format)] turns the format into a pattern, directive by
    directive, matches it at the start of [s] ignoring case, rejects a match
    that leaves text over, and builds the time tuple from the named groups.
    Every failure is a [ValueError].  Month and weekday names are those of the
    C locale; the names of the local time zone come from the environment. *)

Module Time.

Record tzinfo := { tzname : string * string; daylight : bool }.

Record struct_time := {
  tm_year : Z; tm_mon : Z; tm_mday : Z;
  tm_hour : Z; tm_min : Z; tm_sec : Z;
  tm_wday : Z; tm_yday : Z; tm_isdst : Z
}.

(** *** The proleptic Gregorian calendar of [datetime.date] *)

Definition is_leap (y : Z) : bool :=
  ((y mod 4 =? 0) && (negb (y mod 100 =? 0) || (y mod 400 =? 0)))%Z.

Definition days_in_month (y m : Z) : Z :=
  (if (m =? 2) && is_leap y then 29
   else nth (Z.to_nat m) [0; 31; 28; 31; 30; 31; 30; 31; 31; 30; 31; 30; 31] 0)%Z.

Definition days_before_year (y : Z) : Z :=
  ((y - 1) * 365 + (y - 1) / 4 - (y - 1) / 100 + (y - 1) / 400)%Z.

Definition days_before_month (y m : Z) : Z :=
  (nth (Z.to_nat m) [0; 0; 31; 59; 90; 120; 151; 181; 212; 243; 273; 304; 334] 0
   + (if (2 <? m) && is_leap y then 1 else 0))%Z.

(** [datetime.date(y, m, d).toordinal()], or [None] where the constructor
    raises [ValueError]. *)
Definition toordinal (y m d : Z) : option Z :=
  if ((1 <=? y) && (y <=? 9999) && (1 <=? m) && (m <=? 12)
      && (1 <=? d) && (d <=? days_in_month y m))%Z
  then Some (days_before_year y + days_before_month y m + d)%Z
  else None.

(** *** Directives *)

Definition a_month : list string :=
  ["jan"; "feb"; "mar"; "apr"; "may"; "jun"; "jul"; "aug"; "sep"; "oct"; "nov"; "dec"].

Definition a_weekday : list string :=
  ["mon"; "tue"; "wed"; "thu"; "fri"; "sat"; "sun"].

Definition no_saving (tz : tzinfo) : list string :=
  ["utc"; "gmt"; Py.lower (fst (tzname tz))].

Definition has_saving (tz : tzinfo) : list string :=
  if daylight tz then [Py.lower (snd (tzname tz))] else [].

Definition literal (s : string) : Re.regex :=
  foldr (fun c r => Re.RSeq (Re.RChar c) r) Re.REmpty (Py.chars s).

Fixpoint alternatives (l : list Re.regex) : Re.regex :=
  match l with
  | [] => Re.REmpty
  | [r] => r
  | r :: l' => Re.RAlt r (alternatives l')
  end.

(** Longest names first, names of one length in their given order (their
    order cannot change what matches). *)
Fixpoint insert_by_length (s : string) (l : list string) : list string :=
  match l with
  | [] => [s]
  | x :: l' =>
      if String.length x <? String.length s then s :: l
      else x :: insert_by_length s l'
  end.

Definition longest_first (l : list string) : list string :=
  foldr insert_by_length [] l.

Definition name_group (d : ascii) (names : list string) : Re.regex :=
  Re.RGroup (nat_of_ascii d) (alternatives (literal <$> longest_first names)).

Definition digit : Re.regex := Re.RSet false [Re.IDigit].
Definition between (lo hi : ascii) : Re.regex := Re.RSet false [Re.IRange lo hi].
Definition chr (c : ascii) : Re.regex := Re.RChar c.
Definition then_ (a b : Re.regex) : Re.regex := Re.RSeq a b.

(** The pattern of a directive; its group is numbered by the directive's
    character. *)
Definition directive (tz : tzinfo) (d : ascii) : option Re.regex :=
  let grp alts := Some (Re.RGroup (nat_of_ascii d) (alternatives alts)) in
  match d with
  | "d" => grp [then_ (chr "3") (between "0" "1"); then_ (between "1" "2") digit;
                then_ (chr "0") (between "1" "9"); between "1" "9";
                then_ (chr " ") (between "1" "9")]
  | "m" => grp [then_ (chr "1") (between "0" "2"); then_ (chr "0") (between "1" "9");
                between "1" "9"]
  | "Y" => grp [then_ digit (then_ digit (then_ digit digit))]
  | "H" => grp [then_ (chr "2") (between "0" "3"); then_ (between "0" "1") digit; digit]
  | "M" => grp [then_ (between "0" "5") digit; digit]
  | "S" => grp [then_ (chr "6") (between "0" "1"); then_ (between "0" "5") digit; digit]
  | "b" => Some (name_group d a_month)
  | "a" => Some (name_group d a_weekday)
  | "Z" => Some (name_group d (no_saving tz ++ has_saving tz))
  | _ => None
  end%char.

(** The pattern of a format: directives, runs of blanks as [\s+], every other
    character as itself. *)
Fixpoint format_regex (tz : tzinfo) (fuel : nat) (f : list ascii) : option Re.regex :=
  match fuel with
  | 0 => None
  | S fuel' =>
      match f with
      | [] => Some Re.REmpty
      | "%"%char :: d :: f' =>
          r ← directive tz d;
          rest ← format_regex tz fuel' f';
          Some (Re.RSeq r rest)
      | "%"%char :: [] => None
      | c :: f' =>
          if Py.isspace c then
            rest ← format_regex tz fuel' (Py.lstrip_chars f');
            Some (Re.RSeq (Re.RRep (Re.RSet false [Re.ISpace]) 1 None) rest)
          else
            rest ← format_regex tz fuel' f';
            Some (Re.RSeq (Re.RChar c) rest)
      end
  end.

Fixpoint index_of (x : string) (l : list string) : option nat :=
  match l with
  | [] => None
  | y :: l' => if Py.eq x y then Some 0 else S <$> index_of x l'
  end.

Section Fields.
Variable g : Re.caps.

Definition field (d : ascii) : option (list ascii) := Re.group g (nat_of_ascii d).

Definition int_field (d : ascii) (dflt : Z) : Z :=
  match field d with
  | Some txt => Py.int_chars txt
  | None => dflt
  end.

Definition name_field (d : ascii) (names : list string) : option nat :=
  txt ← field d; index_of (Py.lower (Py.str txt)) names.

Definition month : Z :=
  match name_field "b" a_month with
  | Some i => Z.of_nat (S i)
  | None => int_field "m" 1
  end.

Definition zone (tz : tzinfo) : Z :=
  match field "Z" with
  | None => -1
  | Some txt =>
      let found_zone := Py.lower (Py.str txt) in
      let ambiguous :=
        Py.eq (fst (tzname tz)) (snd (tzname tz)) && daylight tz &&
        negb (Py.eq found_zone "utc" || Py.eq found_zone "gmt") in
      if existsb (Py.eq found_zone) (no_saving tz)
      then (if ambiguous then -1 else 0)
      else if existsb (Py.eq found_zone) (has_saving tz)
      then (if ambiguous then -1 else 1)
      else -1
  end%Z.
End Fields.

Definition strptime (tz : tzinfo) (data_string format : string) : result struct_time :=
  let f := Py.chars format in
  match format_regex tz (S (length f)) f with
  | None => Raise ValueError                       (* bad directive *)
  | Some r =>
      match Re.match_here true r (Py.chars data_string) with
      | None => Raise ValueError                   (* does not match format *)
      | Some (_ :: _, _) => Raise ValueError       (* unconverted data remains *)
      | Some ([], g) =>
          let year := int_field g "Y" 1900 in
          let mon := month g in
          let day := int_field g "d" 1 in
          match toordinal year mon day, toordinal year 1 1 with
          | Some ord, Some ord1 =>
              let weekday :=
                match name_field g "a" a_weekday with
                | Some i => Z.of_nat i
                | None => ((ord + 6) mod 7)%Z
                end in
              Ok {| tm_year := year; tm_mon := mon; tm_mday := day;
                    tm_hour := int_field g "H" 0;
                    tm_min := int_field g "M" 0;
                    tm_sec := int_field g "S" 0;
                    tm_wday := weekday;
                    tm_yday := (ord - ord1 + 1)%Z;
                    tm_isdst := zone g tz |}
          | _, _ => Raise ValueError               (* no such date *)
          end
      end
  end.

End Time.

(** * parser.py *)

(** ** [cast_date] *)

Definition known_formats : list string := [
  "%d-%b-%Y";                 (* 02-jan-2000 *)
  "%Y-%m-%d";                 (* 2000-01-02 *)
  "%Y.%m.%d %H:%M:%S";        (* 2006.06.12 15:53:14 (.pl) *)
  "%Y.%m.%d";                 (* 2002.12.25 (.ru) *)
  "%Y-%b-%d";                 (* 2008-Feb-5 (.nu) *)
  "%d.%m.%Y %H:%M:%S";        (* 18.05.2004 18:15:00 (.cz) *)
  "%d.%m.%Y";                 (* 21.5.1998 (.fi) *)
  "%d-%b-%Y %H:%M:%S %Z";     (* 24-Jul-2009 13:20:03 UTC *)
  "%Y-%m-%d %H:%M";           (* 2000-03-07 00:00 (.cn) *)
  "%a %b %d %H:%M:%S %Z %Y";  (* Tue Jun 21 23:59:59 GMT 2011 *)
  "%d %b %Y %H:%M %Z";        (* 31 Dec 1999 05:00 PST (.fm) *)
  "%Y-%m-%dT%H:%M:%S";        (* 2007-01-26T19:10:31 *)
  "%Y%m%d%H%M%S";             (* 20110209194637 (.ua) *)
  "%Y%m%d";                   (* 20020702 (isoc.org.il) *)
  "%m/%d/%Y";                 (* 05/14/2002 *)
  "%d/%m/%Y";                 (* 13/09/2004 (.fr) *)
  "%Y/%m/%d";                 (* 2004/10/14 (.jp) *)
  "%Y. %m. %d."               (* 2007. 04. 23. (.kr) *)
].

(** The loop of [cast_date] over the formats still to try: the first format
    that [time.strptime] accepts returns, a [ValueError] moves on to the next
    format, any other exception escapes, and the end of the list returns
    [None]. *)
Fixpoint cast_date_loop (tz : Time.tzinfo) (date_str : string) (formats : list string)
    : result (option Time.struct_time) :=
  match formats with
  | [] => Ok None
  | format :: rest =>
      match Time.strptime tz (Py.strip date_str) format with
      | Ok t => Ok (Some t)
      | Raise ValueError => cast_date_loop tz date_str rest
      | Raise e => Raise e
      end
  end.

Definition cast_date (tz : Time.tzinfo) (date_str : string) : result (option Time.struct_time) :=
  cast_date_loop tz date_str known_formats.

(** ** Classes, values and instances *)

Inductive class :=
| WhoisEntry | WhoisCom | WhoisNet | WhoisOrg | WhoisAu | WhoisBiz | WhoisCa
| WhoisCn | WhoisCo | WhoisCz | WhoisDe | WhoisDk | WhoisFi | WhoisFm | WhoisFr
| WhoisInfo | WhoisJp | WhoisKr | WhoisNo | WhoisNu | WhoisPl | WhoisRu | WhoisSk
| WhoisSu | WhoisTk | WhoisTw | WhoisName | WhoisUa | WhoisUs | WhoisMe | WhoisUk
| WhoisIl.

#[global] Instance class_eq_dec : EqDecision class.
Proof. solve_decision. Defined.

(** A function object: a function of a class body, or a slot of [object]. *)
Inductive func :=
| Method (c : class) (name : string)
| Builtin (name : string).

Inductive pyval :=
| VNone
| VStr (s : string)
| VList (items : list elem)
| VDict (d : gmap string string)
| VFunc (f : func).

(** An instance: its class and its [__dict__]. *)
Record instance := { ob_type : class; ob_dict : gmap string pyval }.

(** A dict display: later entries replace earlier ones with the same key. *)
Definition dict {V : Type} (entries : list (string * V)) : gmap string V :=
  foldl (fun m kv => <[fst kv := snd kv]> m) ∅ entries.

(** ** The pattern tables of the classes *)

(** [WhoisEntry._regex] *)
Definition WhoisEntry__regex : gmap string string := dict [
  ("domain_name", "Domain Name:\s?(.+)");
  ("registrar", "Registrar:\s?(.+)");
  ("whois_server", "Whois Server:\s?(.+)");
  ("referral_url", "Referral URL:\s?(.+)");
  ("updated_date", "Updated Date:\s?(.+)");
  ("creation_date", "Creation Date:\s?(.+)");
  ("expiration_date", "Expiration Date:\s?(.+)");
  ("name_servers", "Name Server:\s?(.+)");
  ("status", "Status:\s?(.+)");
  ("emails", "[\w.-]+@[\w.-]+\.[\w]{2,4}")
].

(** [WhoisOrg.regex] *)
Definition WhoisOrg_regex : gmap string string := dict [
  ("domain_name", "Domain Name:\s*(.+)");
  ("creation_date", "Created On:\s*(.+)");
  ("expiration_date", "Expiration Date:\s*(.+)");
  ("updated_date", "Last Updated On:\s*(.+)");
  ("domain_id", "Domain ID:\s*(.+)");
  ("registrar", "Sponsoring Registrar:\s*(.+)");
  ("status", "Status:\s*(.+)");
  ("registrant_id", "Registrant ID:\s*(.+)");
  ("registrant_organization", "Registrant Organization:\s*(.+)");
  ("registrant_name", "Registrant Name:\s*(.+)");
  ("registrant_address1", "Registrant Street1:\s*(.+)");
  ("registrant_address2", "Registrant Street2:\s*(.+)");
  ("registrant_city", "Registrant City:\s*(.+)");
  ("registrant_state_province", "Registrant State/Province:\s*(.+)");
  ("registrant_postal_code", "Registrant Postal Code:\s*(.+)");
  ("registrant_country", "Registrant Country:\s*(.+)");
  ("registrant_phone_number", "Registrant Phone:\s*(.+)");
  ("registrant_email", "Registrant Email:\s*(.+)");
  ("admin_id", "Admin ID:\s*(.+)");
  ("admin_name", "Admin Name:\s*(.+)");
  ("admin_organization", "Admin Organization:\s*(.+)");
  ("admin_address1", "Admin Street1:\s*(.+)");
  ("admin_address2", "Admin Street2:\s*(.+)");
  ("admin_city", "Admin City:\s*(.+)");
  ("admin_state_province", "Admin State/Province:\s*(.+)");
  ("admin_postal_code", "Admin Postal Code:\s*(.+)");
  ("admin_country", "Admin Country:\s*(.+)");
  ("admin_phone_number", "Admin Phone:\s*(.+)");
  ("admin_email", "Admin Email:\s*(.+)");
  ("tech_id", "Tech ID:\s*(.+)");
  ("tech_name", "Tech Name:\s*(.+)");
  ("tech_organization", "Tech Organization:\s*(.+)");
  ("tech_address1", "Tech Street1:\s*(.+)");
  ("tech_address2", "Tech Street2:\s*(.+)");
  ("tech_city", "Tech City:\s*(.+)");
  ("tech_state_province", "Tech State/Province:\s*(.+)");
  ("tech_postal_code", "Tech Postal Code:\s*(.+)");
  ("tech_country", "Tech Country:\s*(.+)");
  ("tech_country_code", "Tech Country Code:\s*(.+)");
  ("tech_phone_number", "Tech Phone Number:\s*(.+)");
  ("tech_email", "Tech Email:\s*(.+)");
  ("name_servers", "Name Server:\s*(.+)")
].

(** [WhoisAu.regex] *)
Definition WhoisAu_regex : gmap string string := dict [
  ("domain_name", "Domain Name:\s*(.+)");
  ("registrar", "Registrar Name:\s*(.+)");
  ("registrar_id", "Registrar ID:\s*(.+)");
  ("registrant_name", "Registrant Name:\s*(.+)");
  ("registrant_id", "Registrant ID:\s*(.+)");
  ("updated_date", "Last Modified:\s*(.+)");
  ("name_servers", "Name Server:\s*(.+)");
  ("status", "Status:\s*(.+)")
].

(** [WhoisBiz.regex] *)
Definition WhoisBiz_regex : gmap string string := dict [
  ("domain_name", "Domain Name:\s*(.+)");
  ("creation_date", "Domain Registration Date:\s*(.+)");
  ("expiration_date", "Domain Expiration Date:\s*(.+)");
  ("updated_date", "Domain Last Updated Date:\s*(.+)");
  ("domain_id", "Domain ID:\s*(.+)");
  ("registrar", "Sponsoring Registrar:\s*(.+)");
  ("status", "Domain Status:\s*(.+)");
  ("registrant_id", "Registrant ID:\s*(.+)");
  ("registrant_name", "Registrant Name:\s*(.+)");
  ("registrant_address1", "Registrant Address1:\s*(.+)");
  ("registrant_city", "Registrant City:\s*(.+)");
  ("registrant_state_province", "Registrant State/Province:\s*(.+)");
  ("registrant_postal_code", "Registrant Postal Code:\s*(.+)");
  ("registrant_country", "Registrant Country:\s*(.+)");
  ("registrant_country_code", "Registrant Country Code:\s*(.+)");
  ("registrant_phone_number", "Registrant Phone:\s*(.+)");
  ("registrant_email", "Registrant Email:\s*(.+)");
  ("admin_id", "Administrative Contact ID:\s*(.+)");
  ("admin_name", "Administrative Contact Name:\s*(.+)");
  ("admin_address1", "Administrative Contact Address1:\s*(.+)");
  ("admin_city", "Administrative Contact City:\s*(.+)");
  ("admin_state_province", "Administrative Contact State/Province:\s*(.+)");
  ("admin_postal_code", "Administrative Contact Postal Code:\s*(.+)");
  ("admin_country", "Administrative Contact Country:\s*(.+)");
  ("admin_country_code", "Administrative Contact Country Code:\s*(.+)");
  ("admin_phone_number", "Administrative Contact Phone:\s*(.+)");
  ("admin_email", "Administrative Contact Email:\s*(.+)");
  ("billing_id", "Billing Contact ID:\s*(.+)");
  ("billing_name", "Billing Contact Name:\s*(.+)");
  ("billing_address1", "Billing Contact Address1:\s*(.+)");
  ("billing_city", "Billing Contact City:\s*(.+)");
  ("billing_state_province", "Billing Contact State/Province:\s*(.+)");
  ("billing_postal_code", "Billing Contact Postal Code:\s*(.+)");
  ("billing_country", "Billing Contact Country:\s*(.+)");
  ("billing_country_code", "Billing Contact Country Code:\s*(.+)");
  ("billing_phone_number", "Billing Contact Phone:\s*(.+)");
  ("billing_email", "Billing Contact Email:\s*(.+)");
  ("tech_id", "Technical Contact ID:\s*(.+)");
  ("tech_name", "Technical Contact Name:\s*(.+)");
  ("tech_address1", "Technical Contact Address1:\s*(.+)");
  ("tech_city", "Technical Contact City:\s*(.+)");
  ("tech_state_province", "Technical Contact State/Province:\s*(.+)");
  ("tech_postal_code", "Technical Contact Postal Code:\s*(.+)");
  ("tech_country", "Technical Contact Country:\s*(.+)");
  ("tech_country_code", "Technical Contact Country Code:\s*(.+)");
  ("tech_phone_number", "Technical Contact Phone:\s*(.+)");
  ("tech_email", "Technical Contact Email:\s*(.+)");
  ("name_servers", "Name Server:\s*(.+)")
].

(** [WhoisCa.regex] *)
Definition WhoisCa_regex : gmap string string := dict [
  ("domain_name", "Domain name:\s*(.+)");
  ("creation_date", "Creation date:\s*(.+)");
  ("updated_date", "Updated date:\s*(.+)");
  ("expiration_date", "Expiry Date:\s*(.+)");
  ("name_servers", "Name servers:" +:+ Py.cr +:+ "?" +:+ Py.lf +:+ "\s*(.+)");
  ("status", "Domain status:\s*(.+)");
  ("emails", "[\w.-]+@[\w.-]+\.[\w]{2,4}")
].

(** [WhoisCn.regex] *)
Definition WhoisCn_regex : gmap string string := dict [
  ("domain_name", "Domain Name:\s*(.+)");
  ("registrar", "Sponsoring Registrar:\s*(.+)");
  ("registrant_organization", "Registrant Organization:\s*(.+)");
  ("registrant_name", "Registrant Name:\s*(.+)");
  ("creation_date", "Registration Date:\s*(.+)");
  ("expiration_date", "Expiration Date:\s*(.+)");
  ("name_servers", "Name Server:\s*(.+)");
  ("status", "Domain Status:\s*(.+)");
  ("emails", "[\w.-]+@[\w.-]+\.[\w]{2,4}")
].

(** [WhoisCz.regex] *)
Definition WhoisCz_regex : gmap string string := dict [
  ("domain_name", "domain:\s*(.+)");
  ("creation_date", "registered:\s*(.+)");
  ("updated_date", "changed:\s*(.+)");
  ("expiration_date", "expire:\s*(.+)");
  ("name_servers", "nserver:\s*(.+)")
].

(** [WhoisDe.regex] *)
Definition WhoisDe_regex : gmap string string := dict [
  ("domain_name", "Domain:\s*(.+)");
  ("updated_date", "Changed:\s*(.+)");
  ("name_servers", "Nserver:\s*(.+)");
  ("status", "Status:\s*(.+)");
  ("emails", "[\w.-]+@[\w.-]+\.[\w]{2,4}")
].

(** [WhoisDk.regex] *)
Definition WhoisDk_regex : gmap string string := dict [
  ("domain_name", "Domain:\s*(.+)");
  ("creation_date", "Registered:\s*(.+)");
  ("expiration_date", "Expires:\s*(.+)");
  ("name_servers", "Hostname:\s*(.+)");
  ("status", "Status:\s*(.+)")
].

(** [WhoisFi.regex] *)
Definition WhoisFi_regex : gmap string string := dict [
  ("domain_name", "domain:\s*(.+)");
  ("creation_date", "created:\s*(.+)");
  ("expiration_date", "expires:\s*(.+)");
  ("name_servers", "nserver:\s*(.+) ");
  ("status", "status:\s*(.+)")
].

(** [WhoisFm.regex] *)
Definition WhoisFm_regex : gmap string string := dict [
  ("domain_name", "Query:\s*(.+)");
  ("registrar", "Registrar Name:\s*(.+)");
  ("creation_date", "Created:\s*(.+)");
  ("updated_date", "Modified::\s*(.+)");
  ("expiration_date", "Expires:\s*(.+)");
  ("name_servers", "Name Servers:" +:+ Py.cr +:+ "?" +:+ Py.lf +:+ "\s*(.+) ");
  ("status", "Status:\s*(.+)");
  ("emails", "[\w.-]+@[\w.-]+\.[\w]{2,4}")
].

(** [WhoisFr.regex] *)
Definition WhoisFr_regex : gmap string string := dict [
  ("domain_name", "domain:\s*(.+)");
  ("registrar_id", "source:\s*(.+)");
  ("registrar", "registrar:\s*(.+)");
  ("admin_id", "admin-c:\s*(.+)");
  ("technical_id", "tech-c:\s*(.+)");
  ("creation_date", "created:\s*(.+)");
  ("updated_date", "last-update:\s*(.+)");
  ("name_servers", "nserver:\s*(.+)");
  ("status", "status:\s*(.+)");
  ("emails", "[\w.-]+@[\w.-]+\.[\w]{2,4}")
].

(** [WhoisJp.regex] *)
Definition WhoisJp_regex : gmap string string := dict [
  ("domain_name", "\[Domain Name\]\s+(.+)");
  ("registrar", "\[Registrant\]\s+(.+)");
  ("creation_date", "\[(?:Created on|Registered Date)\]\s+(.+)");
  ("updated_date", "\[Last Updated?\]\s+(.+)");
  ("expiration_date", "\[Expires on\]\s+(.+)");
  ("name_servers", "\[Name Server\]\s+(.+)");
  ("status", "\[(?:Status|State)\]\s+(.+)");
  ("emails", "[\w.-]+@[\w.-]+\.[\w]{2,4}")
].

(** [WhoisKr.regex] *)
Definition WhoisKr_regex : gmap string string := dict [
  ("domain_name", "Domain Name\s*:\s*(.+)");
  ("creation_date", "Registered Date\s*:\s*(.+)");
  ("updated_date", "Last updated Date\s*:\s*(.+)");
  ("expiration_date", "Expiration Date\s*:\s*(.+)");
  ("registrant", "Authorized Agency\s*:\s*(.+)");
  ("name_servers", "Name Server" +:+ Py.cr +:+ "?" +:+ Py.lf +:+ "\s*Host Name\s*:\s*(.+)");
  ("status", "Publishes\s*:\s*(.+)");
  ("admin_name", "Administrative Contact\(AC\):(.+)");
  ("emails", "[\w.-]+@[\w.-]+\.[\w]{2,4}")
].

(** [WhoisNo.regex] *)
Definition WhoisNo_regex : gmap string string := dict [
  ("domain_name", "Domain Name\.+:\s*(.+)");
  ("creation_date", "Created:\s*(.+)");
  ("updated_date", "Last updated:\s*(.+)");
  ("emails", "[\w.-]+@[\w.-]+\.[\w]{2,4}")
].

(** [WhoisNu.regex] *)
Definition WhoisNu_regex : gmap string string := dict [
  ("domain_name", "Domain Name.*:\s*(.+)");
  ("creation_date", "Record created on (.+)\.");
  ("updated_date", "Record last updated on (.+)\.");
  ("expiration_date", "Record expires on (.+)\.");
  ("status", "Record status:\s*(.+)");
  ("name_servers", "Domain servers in listed order:" +:+ Py.cr +:+ "?" +:+ Py.lf +:+ "\s*(.+)");
  ("emails", "[\w.-]+@[\w.-]+\.[\w]{2,4}")
].

(** [WhoisPl.regex] *)
Definition WhoisPl_regex : gmap string string := dict [
  ("domain_name", "DOMAIN NAME:\s*(.+)");
  ("creation_date", "created:\s*(.+)");
  ("updated_date", "last modified:\s*(.+)");
  ("name_servers", "nameservers:\s*(.+)");
  ("emails", "[\w.-]+@[\w.-]+\.[\w]{2,4}")
].

(** [WhoisRu.regex] *)
Definition WhoisRu_regex : gmap string string := dict [
  ("domain_name", "domain:\s*(.+)");
  ("registrar", "registrar:\s*(.+)");
  ("creation_date", "created:\s*(.+)");
  ("expiration_date", "paid-till:\s*(.+)");
  ("name_servers", "nserver:\s*(.+)");
  ("status", "state:\s*(.+)");
  ("emails", "[\w.-]+@[\w.-]+\.[\w]{2,4}")
].

(** [WhoisSk.regex] *)
Definition WhoisSk_regex : gmap string string := dict [
  ("domain_name", "Domain-name\s*(.+)");
  ("expiration_date", "Valid-date\s*(.+)");
  ("updated_date", "Last-update\s*(.+)");
  ("name_servers", "dns_name\s*(.+)");
  ("status", "Domain-status\s*(.+)");
  ("emails", "[\w.-]+@[\w.-]+\.[\w]{2,4}")
].

(** [WhoisTk.regex] *)
Definition WhoisTk_regex : gmap string string := dict [
  ("domain_name", "Domain name:" +:+ Py.cr +:+ "?" +:+ Py.lf +:+ "\s*(.+)");
  ("registrant_name", "Organisation:" +:+ Py.cr +:+ "?" +:+ Py.lf +:+ "\s*(.+)");
  ("registrar", "Record maintained by:\s*(.+)");
  ("creation_date", "Domain registered:\s*(.+)");
  ("expiration_date", "Record will expire on (.+)");
  ("name_servers", "Domain Nameservers:" +:+ Py.cr +:+ "?" +:+ Py.lf +:+ "\s*(.+)");
  ("status", "(Your selected domain name [" +:+ Py.cr +:+ Py.lf +:+ "\w\s\d]+)");
  ("emails", "[\w.-]+@[\w.-]+\.[\w]{2,4}")
].

(** [WhoisTw.regex] *)
Definition WhoisTw_regex : gmap string string := dict [
  ("domain_name", "Domain Name:\s*(.+)");
  ("registrar", "Registration Service Provider:\s*(.+)");
  ("creation_date", "\s*Record created on (.+) \(");
  ("expiration_date", "\s*Record expires on (.+) \(");
  ("name_servers", "\s+([\w\d.-_]+)\s+[\d.]+");
  ("emails", "[\w.-]+@[\w.-]+\.[\w]{2,4}")
].

(** [WhoisName.regex] *)
Definition WhoisName_regex : gmap string string := dict [
  ("domain_name_id", "Domain Name ID:\s*(.+)");
  ("domain_name", "Domain Name:\s*(.+)");
  ("registrar_id", "Sponsoring Registrar ID:\s*(.+)");
  ("registrar", "Sponsoring Registrar:\s*(.+)");
  ("registrant_id", "Registrant ID:\s*(.+)");
  ("admin_id", "Admin ID:\s*(.+)");
  ("technical_id", "Tech ID:\s*(.+)");
  ("billing_id", "Billing ID:\s*(.+)");
  ("creation_date", "Created On:\s*(.+)");
  ("expiration_date", "Expires On:\s*(.+)");
  ("updated_date", "Updated On:\s*(.+)");
  ("name_server_ids", "Name Server ID:\s*(.+)");
  ("name_servers", "Name Server:\s*(.+)");
  ("status", "Domain Status:\s*(.+)")
].

(** [WhoisUa.regex] *)
Definition WhoisUa_regex : gmap string string := dict [
  ("domain_name", "domain:\s*(.+)");
  ("registrar_id", "source:\s*(.+)");
  ("admin_id", "admin-c:\s*(.+)");
  ("technical_id", "tech-c:\s*(.+)");
  ("creation_date", "created:\s*.+ (.+)");
  ("expiration_date", "status:\s*OK-UNTIL\ (.+)");
  ("updated_date", "changed:\s*.+ (.+)");
  ("name_servers", "nserver:\s*(.+)");
  ("status", "status:\s*(.+)");
  ("emails", "[\w.-]+@[\w.-]+\.[\w]{2,4}")
].

(** [WhoisUs.regex] *)
Definition WhoisUs_regex : gmap string string := dict [
  ("domain_name", "Domain Name:\s*(.+)");
  ("domain__id", "Domain ID:\s*(.+)");
  ("registrar", "Sponsoring Registrar:\s*(.+)");
  ("registrar_id", "Sponsoring Registrar IANA ID:\s*(.+)");
  ("registrar_url", "Registrar URL \(registration services\):\s*(.+)");
  ("status", "Domain Status:\s*(.+)");
  ("registrant_id", "Registrant ID:\s*(.+)");
  ("registrant_name", "Registrant Name:\s*(.+)");
  ("registrant_address1", "Registrant Address1:\s*(.+)");
  ("registrant_address2", "Registrant Address2:\s*(.+)");
  ("registrant_city", "Registrant City:\s*(.+)");
  ("registrant_state_province", "Registrant State/Province:\s*(.+)");
  ("registrant_postal_code", "Registrant Postal Code:\s*(.+)");
  ("registrant_country", "Registrant Country:\s*(.+)");
  ("registrant_country_code", "Registrant Country Code:\s*(.+)");
  ("registrant_phone_number", "Registrant Phone Number:\s*(.+)");
  ("registrant_email", "Registrant Email:\s*(.+)");
  ("registrant_application_purpose", "Registrant Application Purpose:\s*(.+)");
  ("registrant_nexus_category", "Registrant Nexus Category:\s*(.+)");
  ("admin_id", "Administrative Contact ID:\s*(.+)");
  ("admin_name", "Administrative Contact Name:\s*(.+)");
  ("admin_address1", "Administrative Contact Address1:\s*(.+)");
  ("admin_address2", "Administrative Contact Address2:\s*(.+)");
  ("admin_city", "Administrative Contact City:\s*(.+)");
  ("admin_state_province", "Administrative Contact State/Province:\s*(.+)");
  ("admin_postal_code", "Administrative Contact Postal Code:\s*(.+)");
  ("admin_country", "Administrative Contact Country:\s*(.+)");
  ("admin_country_code", "Administrative Contact Country Code:\s*(.+)");
  ("admin_phone_number", "Administrative Contact Phone Number:\s*(.+)");
  ("admin_email", "Administrative Contact Email:\s*(.+)");
  ("admin_application_purpose", "Administrative Application Purpose:\s*(.+)");
  ("admin_nexus_category", "Administrative Nexus Category:\s*(.+)");
  ("billing_id", "Billing Contact ID:\s*(.+)");
  ("billing_name", "Billing Contact Name:\s*(.+)");
  ("billing_address1", "Billing Contact Address1:\s*(.+)");
  ("billing_address2", "Billing Contact Address2:\s*(.+)");
  ("billing_city", "Billing Contact City:\s*(.+)");
  ("billing_state_province", "Billing Contact State/Province:\s*(.+)");
  ("billing_postal_code", "Billing Contact Postal Code:\s*(.+)");
  ("billing_country", "Billing Contact Country:\s*(.+)");
  ("billing_country_code", "Billing Contact Country Code:\s*(.+)");
  ("billing_phone_number", "Billing Contact Phone Number:\s*(.+)");
  ("billing_email", "Billing Contact Email:\s*(.+)");
  ("billing_application_purpose", "Billing Application Purpose:\s*(.+)");
  ("billing_nexus_category", "Billing Nexus Category:\s*(.+)");
  ("tech_id", "Technical Contact ID:\s*(.+)");
  ("tech_name", "Technical Contact Name:\s*(.+)");
  ("tech_address1", "Technical Contact Address1:\s*(.+)");
  ("tech_address2", "Technical Contact Address2:\s*(.+)");
  ("tech_city", "Technical Contact City:\s*(.+)");
  ("tech_state_province", "Technical Contact State/Province:\s*(.+)");
  ("tech_postal_code", "Technical Contact Postal Code:\s*(.+)");
  ("tech_country", "Technical Contact Country:\s*(.+)");
  ("tech_country_code", "Technical Contact Country Code:\s*(.+)");
  ("tech_phone_number", "Technical Contact Phone Number:\s*(.+)");
  ("tech_email", "Technical Contact Email:\s*(.+)");
  ("tech_application_purpose", "Technical Application Purpose:\s*(.+)");
  ("tech_nexus_category", "Technical Nexus Category:\s*(.+)");
  ("name_servers", "Name Server:\s*(.+)");
  ("created_by_registrar", "Created by Registrar:\s*(.+)");
  ("last_updated_by_registrar", "Last Updated by Registrar:\s*(.+)");
  ("creation_date", "Domain Registration Date:\s*(.+)");
  ("expiration_date", "Domain Expiration Date:\s*(.+)");
  ("updated_date", "Domain Last Updated Date:\s*(.+)")
].

(** [WhoisMe.regex] *)
Definition WhoisMe_regex : gmap string string := dict [
  ("domain_id", "Domain ID:(.+)");
  ("domain_name", "Domain Name:(.+)");
  ("creation_date", "Domain Create Date:(.+)");
  ("updated_date", "Domain Last Updated Date:(.+)");
  ("expiration_date", "Domain Expiration Date:(.+)");
  ("transfer_date", "Last Transferred Date:(.+)");
  ("trademark_name", "Trademark Name:(.+)");
  ("trademark_country", "Trademark Country:(.+)");
  ("trademark_number", "Trademark Number:(.+)");
  ("trademark_application_date", "Date Trademark Applied For:(.+)");
  ("trademark_registration_date", "Date Trademark Registered:(.+)");
  ("registrar", "Sponsoring Registrar:(.+)");
  ("created_by", "Created by:(.+)");
  ("updated_by", "Last Updated by Registrar:(.+)");
  ("status", "Domain Status:(.+)");
  ("registrant_id", "Registrant ID:(.+)");
  ("registrant_name", "Registrant Name:(.+)");
  ("registrant_org", "Registrant Organization:(.+)");
  ("registrant_address", "Registrant Address:(.+)");
  ("registrant_address2", "Registrant Address2:(.+)");
  ("registrant_address3", "Registrant Address3:(.+)");
  ("registrant_city", "Registrant City:(.+)");
  ("registrant_state_province", "Registrant State/Province:(.+)");
  ("registrant_country", "Registrant Country/Economy:(.+)");
  ("registrant_postal_code", "Registrant Postal Code:(.+)");
  ("registrant_phone", "Registrant Phone:(.+)");
  ("registrant_phone_ext", "Registrant Phone Ext\.:(.+)");
  ("registrant_fax", "Registrant FAX:(.+)");
  ("registrant_fax_ext", "Registrant FAX Ext\.:(.+)");
  ("registrant_email", "Registrant E-mail:(.+)");
  ("admin_id", "Admin ID:(.+)");
  ("admin_name", "Admin Name:(.+)");
  ("admin_org", "Admin Organization:(.+)");
  ("admin_address", "Admin Address:(.+)");
  ("admin_address2", "Admin Address2:(.+)");
  ("admin_address3", "Admin Address3:(.+)");
  ("admin_city", "Admin City:(.+)");
  ("admin_state_province", "Admin State/Province:(.+)");
  ("admin_country", "Admin Country/Economy:(.+)");
  ("admin_postal_code", "Admin Postal Code:(.+)");
  ("admin_phone", "Admin Phone:(.+)");
  ("admin_phone_ext", "Admin Phone Ext\.:(.+)");
  ("admin_fax", "Admin FAX:(.+)");
  ("admin_fax_ext", "Admin FAX Ext\.:(.+)");
  ("admin_email", "Admin E-mail:(.+)");
  ("tech_id", "Tech ID:(.+)");
  ("tech_name", "Tech Name:(.+)");
  ("tech_org", "Tech Organization:(.+)");
  ("tech_address", "Tech Address:(.+)");
  ("tech_address2", "Tech Address2:(.+)");
  ("tech_address3", "Tech Address3:(.+)");
  ("tech_city", "Tech City:(.+)");
  ("tech_state_province", "Tech State/Province:(.+)");
  ("tech_country", "Tech Country/Economy:(.+)");
  ("tech_postal_code", "Tech Postal Code:(.+)");
  ("tech_phone", "Tech Phone:(.+)");
  ("tech_phone_ext", "Tech Phone Ext\.:(.+)");
  ("tech_fax", "Tech FAX:(.+)");
  ("tech_fax_ext", "Tech FAX Ext\.:(.+)");
  ("tech_email", "Tech E-mail:(.+)");
  ("name_servers", "Nameservers:(.+)")
].

(** [WhoisUk.regex] *)
Definition WhoisUk_regex : gmap string string := dict [
  ("domain_name", "Domain name:" +:+ Py.cr +:+ "?" +:+ Py.lf +:+ "\s*(.+)");
  ("registrar", "Registrar:" +:+ Py.cr +:+ "?" +:+ Py.lf +:+ "\s*(.+)");
  ("registrar_url", "URL:\s*(.+)");
  ("status", "Registration status:" +:+ Py.cr +:+ "?" +:+ Py.lf +:+ "\s*(.+)");
  ("registrant_name", "Registrant:" +:+ Py.cr +:+ "?" +:+ Py.lf +:+ "\s*(.+)");
  ("creation_date", "Registered on:\s*(.+)");
  ("expiration_date", "Renewal date:\s*(.+)");
  ("updated_date", "Last updated:\s*(.+)");
  ("name_servers", "Name servers:" +:+ Py.cr +:+ "?" +:+ Py.lf +:+ "\s*(.+)")
].

(** [WhoisIl.regex] *)
Definition WhoisIl_regex : gmap string string := dict [
  ("creation_date", "changed:.*\.il (.+) \(Assigned\)");
  ("domain_name", "domain:\s*(.+)");
  ("registrar", "registrar name:\s*(.+)");
  ("expiration_date", "validity:\s*(.+)");
  ("name_servers", "nserver:\s*(.+)");
  ("status", "status:\s*(.+)");
  ("emails", "[\w.-]+ AT [\w.-]+\.[\w]{2,4}")
].
(** ** Class namespaces and attribute lookup *)

Definition functions (c : class) (names : list string) : list (string * pyval) :=
  (fun n => (n, VFunc (Method c n))) <$> names.

(** What a class body binds: the pattern table and the functions it defines. *)
Definition class_dict (c : class) : gmap string pyval :=
  match c with
  | WhoisEntry =>
      dict (("_regex", VDict WhoisEntry__regex) ::
            functions WhoisEntry ["__init__"; "__getattr__"; "__str__"; "attrs"; "load"])
  | WhoisCom | WhoisNet => dict (functions c ["__init__"])
  | WhoisCo | WhoisInfo | WhoisSu => ∅
  | WhoisOrg => dict (("regex", VDict WhoisOrg_regex) :: functions c ["__init__"])
  | WhoisAu => dict (("regex", VDict WhoisAu_regex) :: functions c ["__init__"])
  | WhoisBiz => dict (("regex", VDict WhoisBiz_regex) :: functions c ["__init__"])
  | WhoisCa => dict (("regex", VDict WhoisCa_regex) :: functions c ["__init__"])
  | WhoisCn => dict (("regex", VDict WhoisCn_regex) :: functions c ["__init__"])
  | WhoisCz => dict (("regex", VDict WhoisCz_regex) :: functions c ["__init__"])
  | WhoisDe => dict (("regex", VDict WhoisDe_regex) :: functions c ["__init__"])
  | WhoisDk => dict (("regex", VDict WhoisDk_regex) :: functions c ["__init__"])
  | WhoisFi => dict (("regex", VDict WhoisFi_regex) :: functions c ["__init__"])
  | WhoisFm => dict (("regex", VDict WhoisFm_regex) :: functions c ["__init__"])
  | WhoisFr => dict (("regex", VDict WhoisFr_regex) :: functions c ["__init__"])
  | WhoisJp => dict (("regex", VDict WhoisJp_regex) :: functions c ["__init__"])
  | WhoisKr => dict (("regex", VDict WhoisKr_regex) :: functions c ["__init__"])
  | WhoisNo => dict (("regex", VDict WhoisNo_regex) :: functions c ["__init__"])
  | WhoisNu => dict (("regex", VDict WhoisNu_regex) :: functions c ["__init__"])
  | WhoisPl => dict (("regex", VDict WhoisPl_regex) :: functions c ["__init__"])
  | WhoisRu => dict (("regex", VDict WhoisRu_regex) :: functions c ["__init__"])
  | WhoisSk => dict (("regex", VDict WhoisSk_regex) :: functions c ["__init__"])
  | WhoisTk => dict (("regex", VDict WhoisTk_regex) :: functions c ["__init__"])
  | WhoisTw => dict (("regex", VDict WhoisTw_regex) :: functions c ["__init__"])
  | WhoisName => dict (("regex", VDict WhoisName_regex) :: functions c ["__init__"])
  | WhoisUa => dict (("regex", VDict WhoisUa_regex) :: functions c ["__init__"])
  | WhoisUs => dict (("regex", VDict WhoisUs_regex) :: functions c ["__init__"])
  | WhoisMe => dict (("regex", VDict WhoisMe_regex) :: functions c ["__init__"])
  | WhoisUk => dict (("regex", VDict WhoisUk_regex) :: functions c ["__init__"])
  | WhoisIl => dict (("regex", VDict WhoisIl_regex) :: functions c ["__init__"])
  end.

(** The base class named in the class statement; [None] stands for [object]. *)
Definition base (c : class) : option class :=
  match c with
  | WhoisEntry => None
  | WhoisCo => Some WhoisBiz
  | WhoisInfo => Some WhoisOrg
  | WhoisSu => Some WhoisRu
  | _ => Some WhoisEntry
  end.

(** The names every instance of a new-style class answers to by itself. *)
Definition object_dict : gmap string pyval :=
  dict ((fun n => (n, VFunc (Builtin n))) <$>
    ["__class__"; "__delattr__"; "__dict__"; "__doc__"; "__format__";
     "__getattribute__"; "__hash__"; "__init__"; "__module__"; "__new__";
     "__reduce__"; "__reduce_ex__"; "__repr__"; "__setattr__"; "__sizeof__";
     "__str__"; "__subclasshook__"; "__weakref__"]).

(** Method resolution order: the class, then its bases up to [object].  The
    hierarchy is two levels deep. *)
Fixpoint mro_from (depth : nat) (c : class) : list class :=
  c :: match depth, base c with
       | S depth', Some b => mro_from depth' b
       | _, _ => []
       end.

Definition mro (c : class) : list class := mro_from 2 c.

Fixpoint lookup_in (cs : list class) (name : string) : option pyval :=
  match cs with
  | [] => object_dict !! name
  | c :: cs' =>
      match class_dict c !! name with
      | Some v => Some v
      | None => lookup_in cs' name
      end
  end.

Definition type_lookup (c : class) (name : string) : option pyval :=
  lookup_in (mro c) name.

(** Ordinary attribute lookup, before any [__getattr__]: the instance's
    [__dict__], then the classes along the resolution order.  (The slots of
    [object] that take precedence over [__dict__] never occur as its keys
    here.) *)
Definition lookup (self : instance) (name : string) : option pyval :=
  match ob_dict self !! name with
  | Some v => Some v
  | None => type_lookup (ob_type self) name
  end.

(** ** Methods run on a world: the instance at hand and the trace of the
    calls made to [re.findall], newest first. *)

Record world := { self : instance; findall_calls : list (string * string) }.

Definition M (A : Type) : Type := world → result A * world.

Definition ret {A} (a : A) : M A := fun w => (Ok a, w).
Definition raise {A} (e : exn) : M A := fun w => (Raise e, w).
Definition bind {A B} (m : M A) (k : A → M B) : M B :=
  fun w => match m w with
           | (Ok a, w') => k a w'
           | (Raise e, w') => (Raise e, w')
           end.

#[global] Instance M_ret : MRet M := @ret.
#[global] Instance M_bind : MBind M := fun A B k m => bind m k.

(** [setattr(self, name, v)]: a store into [__dict__]. *)
Definition setattr (name : string) (v : pyval) : M unit :=
  fun w => (Ok tt, {| self := {| ob_type := ob_type (self w);
                                 ob_dict := <[name := v]> (ob_dict (self w)) |};
                     findall_calls := findall_calls w |}).

(** [d.get(key)] *)
Definition dict_get (d : pyval) (key : string) : M pyval :=
  match d with
  | VDict m => ret (match m !! key with Some p => VStr p | None => VNone end)
  | _ => raise (AttributeError "get")
  end.

Definition truth (v : pyval) : bool :=
  match v with
  | VNone => false
  | VStr s => Py.truthy s
  | VList l => match l with [] => false | _ => true end
  | VDict m => negb (bool_decide (m = ∅))
  | VFunc _ => true
  end.

(** [re.findall(pattern, text)], recorded in the trace. *)
Definition re_findall (pattern text : pyval) : M pyval :=
  match pattern, text with
  | VStr p, VStr t =>
      fun w =>
        let w' := {| self := self w; findall_calls := (p, t) :: findall_calls w |} in
        match Re.findall p t with
        | Some found => (Ok (VList found), w')
        | None => (Raise ReError, w')
        end
  | _, _ => raise TypeError
  end.

(** String order of [sorted]. *)
Definition sorted (l : list string) : list string := merge_sort String.le l.

Definition dict_keys (d : pyval) : M (list string) :=
  match d with
  | VDict m => ret (fst <$> map_to_list m)
  | _ => raise (AttributeError "keys")
  end.

(** ** [class WhoisEntry] *)

Module WhoisEntry.

Definition _regex : gmap string string := WhoisEntry__regex.

(** [__init__(self, domain, text, regex=None)] *)
Definition __init__ (domain text : string) (regex : pyval) : M unit :=
  setattr "domain" (VStr domain);;
  setattr "text" (VStr text);;
  match regex with
  | VNone => ret tt
  | _ => setattr "_regex" regex
  end.

(** [__getattr__(self, attr)], the hook called when ordinary lookup of
    [attr] fails; [getattr] is attribute access on [self]. *)
Definition __getattr__ (getattr : string → M pyval) (attr : string) : M pyval :=
  whois_regex ← (d ← getattr "_regex"; dict_get d attr);
  if truth whois_regex then
    found ← (text ← getattr "text"; re_findall whois_regex text);
    setattr attr found;;
    getattr attr
  else raise (KeyError ("Unknown attribute: " +:+ attr)).

End WhoisEntry.

(** The depth at which the interpreter gives up on nested calls. *)
Definition recursion_limit : nat := 1000.

(** Attribute access [self.name]: ordinary lookup, then the hook, which every
    class inherits from [WhoisEntry]. *)
Fixpoint getattr_within (depth : nat) (name : string) : M pyval :=
  fun w =>
    match lookup (self w) name with
    | Some v => (Ok v, w)
    | None =>
        match depth with
        | 0 => (Raise RuntimeError, w)
        | S depth' => WhoisEntry.__getattr__ (getattr_within depth') name w
        end
    end.

Definition getattr (name : string) : M pyval := getattr_within recursion_limit name.

(** [attrs(self)] *)
Definition attrs : M (list string) :=
  d ← getattr "_regex"; keys ← dict_keys d; ret (sorted keys).

(** ** Text of values: [repr], [str], [join] *)

Module Str.

Definition hex_digit (n : nat) : ascii :=
  nth n (Py.chars "0123456789abcdef") "0"%char.

(** One character inside the quotes of [repr(s)]. *)
Definition repr_char (quote c : ascii) : list ascii :=
  if Ascii.eqb c quote || Ascii.eqb c "\"%char then ["\"%char; c]
  else if Ascii.eqb c Py.TAB then ["\"%char; "t"%char]
  else if Ascii.eqb c Py.LF then ["\"%char; "n"%char]
  else if Ascii.eqb c Py.CR then ["\"%char; "r"%char]
  else if (nat_of_ascii c <? 32) || (127 <=? nat_of_ascii c)
  then ["\"%char; "x"%char; hex_digit (nat_of_ascii c / 16); hex_digit (nat_of_ascii c mod 16)]
  else [c].

(** The quote of [repr(s)]: double when [s] has a single quote and no
    double quote, single otherwise. *)
Definition quote_of (l : list ascii) : ascii :=
  if existsb (Ascii.eqb "'"%char) l && negb (existsb (Ascii.eqb Py.DQUOTE) l)
  then Py.DQUOTE else "'"%char.

(** [repr(s)] of a byte string. *)
Definition repr_chars (l : list ascii) : list ascii :=
  quote_of l :: concat (repr_char (quote_of l) <$> l) ++ [quote_of l].

Definition repr (s : string) : string := Py.str (repr_chars (Py.chars s)).

(** [sep.join(l)] *)
Fixpoint join (sep : string) (l : list string) : string :=
  match l with
  | [] => EmptyString
  | [x] => x
  | x :: l' => x +:+ sep +:+ join sep l'
  end.

(** [repr] of a tuple of strings: a single item is followed by a comma. *)
Definition repr_tuple (items : list string) : string :=
  "(" +:+ join ", " (repr <$> items)
      +:+ (match items with [_] => "," | _ => EmptyString end) +:+ ")".

Definition repr_elem (e : elem) : string :=
  match e with
  | EStr s => repr s
  | ETuple items => repr_tuple items
  end.

(** [repr] of a list, which is also its [str]. *)
Definition repr_list (l : list elem) : string :=
  "[" +:+ join ", " (repr_elem <$> l) +:+ "]".

End Str.

(** [str(v)].  The text of a dict or of a function is not modelled; the
    fields of a record are lists. *)
Definition str_of (v : pyval) : M string :=
  match v with
  | VNone => ret "None"
  | VStr s => ret s
  | VList l => ret (Str.repr_list l)
  | VDict _ | VFunc _ => raise TypeError
  end.

(** The items that the generator of [__str__] yields for the names still to
    come: ['%s: %s' % (attr, str(getattr(self, attr)))]. *)
Fixpoint str_items (names : list string) : M (list string) :=
  match names with
  | [] => ret []
  | attr :: rest =>
      v ← getattr attr;
      s ← str_of v;
      items ← str_items rest;
      ret ((attr +:+ ": " +:+ s) :: items)
  end.

(** [__str__(self)]: [self.attrs] is looked up like any attribute and has to
    be the method of [WhoisEntry]. *)
Definition __str__ : M string :=
  method ← getattr "attrs";
  names ← match method with
          | VFunc (Method WhoisEntry name) =>
              if Py.eq name "attrs" then attrs else raise TypeError
          | _ => raise TypeError
          end;
  items ← str_items names;
  ret (Str.join Py.lf items).

(** ** The subclasses *)

(** [WhoisCom.__init__] *)
Definition WhoisCom_init (domain text : string) : M unit :=
  if Py.contains ("No match for " +:+ Py.dquote) text
  then raise (PywhoisError text)
  else WhoisEntry.__init__ domain text VNone.

(** [WhoisNet.__init__] *)
Definition WhoisNet_init (domain text : string) : M unit :=
  if Py.contains ("No match for " +:+ Py.dquote) text
  then raise (PywhoisError text)
  else WhoisEntry.__init__ domain text VNone.

(** [WhoisOrg.__init__] *)
Definition WhoisOrg_init (domain text : string) : M unit :=
  if Py.eq (Py.strip text) "NOT FOUND"
  then raise (PywhoisError text)
  else regex ← getattr "regex"; WhoisEntry.__init__ domain text regex.

(** [WhoisAu.__init__] *)
Definition WhoisAu_init (domain text : string) : M unit :=
  if Py.eq (Py.strip text) "No Data Found"
  then raise (PywhoisError text)
  else regex ← getattr "regex"; WhoisEntry.__init__ domain text regex.

(** [WhoisBiz.__init__] *)
Definition WhoisBiz_init (domain text : string) : M unit :=
  if Py.contains "Not found:" text
  then raise (PywhoisError text)
  else regex ← getattr "regex"; WhoisEntry.__init__ domain text regex.

(** [WhoisCa.__init__] *)
Definition WhoisCa_init (domain text : string) : M unit :=
  regex ← getattr "regex"; WhoisEntry.__init__ domain text regex.

(** [WhoisCn.__init__] *)
Definition WhoisCn_init (domain text : string) : M unit :=
  if Py.contains "no matching record" text
  then raise (PywhoisError text)
  else regex ← getattr "regex"; WhoisEntry.__init__ domain text regex.

(** [WhoisCz.__init__] *)
Definition WhoisCz_init (domain text : string) : M unit :=
  if Py.contains "No entries found" text
  then raise (PywhoisError text)
  else regex ← getattr "regex"; WhoisEntry.__init__ domain text regex.

(** [WhoisDe.__init__] *)
Definition WhoisDe_init (domain text : string) : M unit :=
  if Py.contains "Status: free" text || Py.contains "Error" text
  then raise (PywhoisError text)
  else regex ← getattr "regex"; WhoisEntry.__init__ domain text regex.

(** [WhoisDk.__init__] *)
Definition WhoisDk_init (domain text : string) : M unit :=
  if Py.contains "No entries found" text
  then raise (PywhoisError text)
  else regex ← getattr "regex"; WhoisEntry.__init__ domain text regex.

(** [WhoisFi.__init__] *)
Definition WhoisFi_init (domain text : string) : M unit :=
  if Py.contains "Domain not found" text
  then raise (PywhoisError text)
  else regex ← getattr "regex"; WhoisEntry.__init__ domain text regex.

(** [WhoisFm.__init__] *)
Definition WhoisFm_init (domain text : string) : M unit :=
  regex ← getattr "regex"; WhoisEntry.__init__ domain text regex.

(** [WhoisFr.__init__] *)
Definition WhoisFr_init (domain text : string) : M unit :=
  if Py.contains "No entries found" text
  then raise (PywhoisError text)
  else regex ← getattr "regex"; WhoisEntry.__init__ domain text regex.

(** [WhoisJp.__init__] *)
Definition WhoisJp_init (domain text : string) : M unit :=
  if Py.eq (Py.strip text) "No match"
  then raise (PywhoisError text)
  else regex ← getattr "regex"; WhoisEntry.__init__ domain text regex.

(** [WhoisKr.__init__] *)
Definition WhoisKr_init (domain text : string) : M unit :=
  if Py.eq (Py.strip text) "No match"
  then raise (PywhoisError text)
  else regex ← getattr "regex"; WhoisEntry.__init__ domain text regex.

(** [WhoisNo.__init__] *)
Definition WhoisNo_init (domain text : string) : M unit :=
  if Py.eq (Py.strip text) "No match"
  then raise (PywhoisError text)
  else regex ← getattr "regex"; WhoisEntry.__init__ domain text regex.

(** [WhoisNu.__init__] *)
Definition WhoisNu_init (domain text : string) : M unit :=
  if Py.contains "NO MATCH" text
  then raise (PywhoisError text)
  else regex ← getattr "regex"; WhoisEntry.__init__ domain text regex.

(** [WhoisPl.__init__] *)
Definition WhoisPl_init (domain text : string) : M unit :=
  if Py.eq (Py.strip text) "No information available"
  then raise (PywhoisError text)
  else regex ← getattr "regex"; WhoisEntry.__init__ domain text regex.

(** [WhoisRu.__init__] *)
Definition WhoisRu_init (domain text : string) : M unit :=
  if Py.eq (Py.strip text) "No entries found"
  then raise (PywhoisError text)
  else regex ← getattr "regex"; WhoisEntry.__init__ domain text regex.

(** [WhoisSk.__init__] *)
Definition WhoisSk_init (domain text : string) : M unit :=
  if Py.contains "Not found" text
  then raise (PywhoisError text)
  else regex ← getattr "regex"; WhoisEntry.__init__ domain text regex.

(** [WhoisTk.__init__] *)
Definition WhoisTk_init (domain text : string) : M unit :=
  if Py.eq (Py.strip text) "Invalid query or domain name not known in Dot TK Domain Registry"
  then raise (PywhoisError text)
  else regex ← getattr "regex"; WhoisEntry.__init__ domain text regex.

(** [WhoisTw.__init__] *)
Definition WhoisTw_init (domain text : string) : M unit :=
  if Py.eq (Py.strip text) "No found"
  then raise (PywhoisError text)
  else regex ← getattr "regex"; WhoisEntry.__init__ domain text regex.

(** [WhoisName.__init__] *)
Definition WhoisName_init (domain text : string) : M unit :=
  if Py.contains "No match." text
  then raise (PywhoisError text)
  else regex ← getattr "regex"; WhoisEntry.__init__ domain text regex.

(** [WhoisUa.__init__] *)
Definition WhoisUa_init (domain text : string) : M unit :=
  if Py.contains "No entries found for" text
  then raise (PywhoisError text)
  else regex ← getattr "regex"; WhoisEntry.__init__ domain text regex.

(** [WhoisUs.__init__] *)
Definition WhoisUs_init (domain text : string) : M unit :=
  if Py.contains "Not found:" text
  then raise (PywhoisError text)
  else regex ← getattr "regex"; WhoisEntry.__init__ domain text regex.

(** [WhoisMe.__init__] *)
Definition WhoisMe_init (domain text : string) : M unit :=
  if Py.contains "NOT FOUND" text
  then raise (PywhoisError text)
  else regex ← getattr "regex"; WhoisEntry.__init__ domain text regex.

(** [WhoisUk.__init__] *)
Definition WhoisUk_init (domain text : string) : M unit :=
  if Py.contains "Not found:" text
  then raise (PywhoisError text)
  else regex ← getattr "regex"; WhoisEntry.__init__ domain text regex.

(** [WhoisIl.__init__] *)
Definition WhoisIl_init (domain text : string) : M unit :=
  if Py.eq (Py.strip text) "No entries found"
  then raise (PywhoisError text)
  else regex ← getattr "regex"; WhoisEntry.__init__ domain text regex.

(** The body of the function that [VFunc (Method c "__init__")] denotes, as
    called by the class on a new instance. *)
Definition call_init (c : class) (domain text : string) : M unit :=
  match c with
  | WhoisEntry => WhoisEntry.__init__ domain text VNone
  | WhoisCom => WhoisCom_init domain text
  | WhoisNet => WhoisNet_init domain text
  | WhoisOrg => WhoisOrg_init domain text
  | WhoisAu => WhoisAu_init domain text
  | WhoisBiz => WhoisBiz_init domain text
  | WhoisCa => WhoisCa_init domain text
  | WhoisCn => WhoisCn_init domain text
  | WhoisCz => WhoisCz_init domain text
  | WhoisDe => WhoisDe_init domain text
  | WhoisDk => WhoisDk_init domain text
  | WhoisFi => WhoisFi_init domain text
  | WhoisFm => WhoisFm_init domain text
  | WhoisFr => WhoisFr_init domain text
  | WhoisJp => WhoisJp_init domain text
  | WhoisKr => WhoisKr_init domain text
  | WhoisNo => WhoisNo_init domain text
  | WhoisNu => WhoisNu_init domain text
  | WhoisPl => WhoisPl_init domain text
  | WhoisRu => WhoisRu_init domain text
  | WhoisSk => WhoisSk_init domain text
  | WhoisTk => WhoisTk_init domain text
  | WhoisTw => WhoisTw_init domain text
  | WhoisName => WhoisName_init domain text
  | WhoisUa => WhoisUa_init domain text
  | WhoisUs => WhoisUs_init domain text
  | WhoisMe => WhoisMe_init domain text
  | WhoisUk => WhoisUk_init domain text
  | WhoisIl => WhoisIl_init domain text
  | WhoisCo | WhoisInfo | WhoisSu => raise TypeError
  end.

(** The call [c(domain, text)]: a new instance with an empty [__dict__], on
    which the [__init__] found along the resolution order of [c] runs. *)
Definition new (c : class) (domain text : string) : result instance :=
  let fresh := {| self := {| ob_type := c; ob_dict := ∅ |}; findall_calls := [] |} in
  match type_lookup c "__init__" with
  | Some (VFunc (Method c' _)) =>
      match call_init c' domain text fresh with
      | (Ok _, w) => Ok (self w)
      | (Raise e, _) => Raise e
      end
  | _ => Raise TypeError
  end.

(** The call [WhoisEntry(domain, text, regex)] with a table of the caller's. *)
Definition WhoisEntry_call (domain text : string) (regex : pyval) : result instance :=
  let fresh := {| self := {| ob_type := WhoisEntry; ob_dict := ∅ |}; findall_calls := [] |} in
  match WhoisEntry.__init__ domain text regex fresh with
  | (Ok _, w) => Ok (self w)
  | (Raise e, _) => Raise e
  end.

(** [WhoisEntry.load], a static method *)
Definition load (domain text : string) : result instance :=
  if Py.eq (Py.strip text) "No whois server is known for this kind of object."
  then Raise (PywhoisError text)
  else if Py.eq ".com" (Py.last_chars 4 domain) then new WhoisCom domain text
  else if Py.eq ".net" (Py.last_chars 4 domain) then new WhoisNet domain text
  else if Py.eq ".org" (Py.last_chars 4 domain) then new WhoisOrg domain text
  else if Py.eq ".au" (Py.last_chars 3 domain) then new WhoisAu domain text
  else if Py.eq ".biz" (Py.last_chars 4 domain) then new WhoisBiz domain text
  else if Py.eq ".ca" (Py.last_chars 3 domain) then new WhoisCa domain text
  else if Py.eq ".cn" (Py.last_chars 3 domain) then new WhoisCn domain text
  else if Py.eq ".co" (Py.last_chars 3 domain) then new WhoisCo domain text
  else if Py.eq ".cz" (Py.last_chars 3 domain) then new WhoisCz domain text
  else if Py.eq ".de" (Py.last_chars 3 domain) then new WhoisDe domain text
  else if Py.eq ".dk" (Py.last_chars 3 domain) then new WhoisDk domain text
  else if Py.eq ".fi" (Py.last_chars 3 domain) then new WhoisFi domain text
  else if Py.eq ".fm" (Py.last_chars 3 domain) then new WhoisFm domain text
  else if Py.eq ".fr" (Py.last_chars 3 domain) then new WhoisFr domain text
  else if Py.eq ".il" (Py.last_chars 3 domain) then new WhoisIl domain text
  else if Py.eq ".info" (Py.last_chars 5 domain) then new WhoisInfo domain text
  else if Py.eq ".jp" (Py.last_chars 3 domain) then new WhoisJp domain text
  else if Py.eq ".kr" (Py.last_chars 3 domain) then new WhoisKr domain text
  else if Py.eq ".me" (Py.last_chars 3 domain) then new WhoisMe domain text
  else if Py.eq ".name" (Py.last_chars 5 domain) then new WhoisName domain text
  else if Py.eq ".no" (Py.last_chars 3 domain) then new WhoisNo domain text
  else if Py.eq ".nu" (Py.last_chars 3 domain) then new WhoisNu domain text
  else if Py.eq ".pl" (Py.last_chars 3 domain) then new WhoisPl domain text
  else if Py.eq ".tk" (Py.last_chars 3 domain) then new WhoisTk domain text
  else if Py.eq ".tw" (Py.last_chars 3 domain) then new WhoisTw domain text
  else if Py.eq ".ru" (Py.last_chars 3 domain) then new WhoisRu domain text
  else if Py.eq ".sk" (Py.last_chars 3 domain) then new WhoisSk domain text
  else if Py.eq ".su" (Py.last_chars 3 domain) then new WhoisSu domain text
  else if Py.eq ".ua" (Py.last_chars 3 domain) then new WhoisUa domain text
  else if Py.eq ".uk" (Py.last_chars 3 domain) then new WhoisUk domain text
  else if Py.eq ".us" (Py.last_chars 3 domain) then new WhoisUs domain text
  else new WhoisEntry domain text.

(** * Specification vocabulary *)

(** [domain] has [suffix] as its trailing characters. *)
Definition ends_with (suffix domain : string) : Prop :=
  ∃ front, domain = front +:+ suffix.

(** [sub] occurs somewhere in [text]. *)
Definition occurs_in (sub text : string) : Prop :=
  ∃ before after, text = before +:+ sub +:+ after.

(** A string of blanks only. *)
Definition blank (s : string) : Prop := Forall (fun c => Py.isspace c = true) (Py.chars s).

Definition global_sentinel : string :=
  "No whois server is known for this kind of object.".

(** ** The not-found rule of each class, as a table

    The condition under which the [__init__] that a class runs refuses the
    text: equality of the trimmed text with a sentinel, occurrence of a
    substring, or, for [.de], either of two substrings. *)
Inductive NotFoundRule :=
| Exact (sentinel : string)
| Contains (substring : string)
| Either (r1 r2 : NotFoundRule).

Fixpoint holds (r : NotFoundRule) (raw_text : string) : Prop :=
  match r with
  | Exact sentinel => Py.strip raw_text = sentinel
  | Contains substring => occurs_in substring raw_text
  | Either r1 r2 => holds r1 raw_text ∨ holds r2 raw_text
  end.

Fixpoint evaluate (r : NotFoundRule) (raw_text : string) : bool :=
  match r with
  | Exact sentinel => Py.eq (Py.strip raw_text) sentinel
  | Contains substring => Py.contains substring raw_text
  | Either r1 r2 => evaluate r1 raw_text || evaluate r2 raw_text
  end.

Definition rule_of (c : class) : option NotFoundRule :=
  match c with
  | WhoisEntry => None
  | WhoisCom => Some (Contains ("No match for " +:+ Py.dquote))
  | WhoisNet => Some (Contains ("No match for " +:+ Py.dquote))
  | WhoisOrg => Some (Exact "NOT FOUND")
  | WhoisAu => Some (Exact "No Data Found")
  | WhoisBiz => Some (Contains "Not found:")
  | WhoisCa => None
  | WhoisCn => Some (Contains "no matching record")
  | WhoisCo => Some (Contains "Not found:")
  | WhoisCz => Some (Contains "No entries found")
  | WhoisDe => Some (Either (Contains "Status: free") (Contains "Error"))
  | WhoisDk => Some (Contains "No entries found")
  | WhoisFi => Some (Contains "Domain not found")
  | WhoisFm => None
  | WhoisFr => Some (Contains "No entries found")
  | WhoisInfo => Some (Exact "NOT FOUND")
  | WhoisJp => Some (Exact "No match")
  | WhoisKr => Some (Exact "No match")
  | WhoisNo => Some (Exact "No match")
  | WhoisNu => Some (Contains "NO MATCH")
  | WhoisPl => Some (Exact "No information available")
  | WhoisRu => Some (Exact "No entries found")
  | WhoisSk => Some (Contains "Not found")
  | WhoisSu => Some (Exact "No entries found")
  | WhoisTk => Some (Exact "Invalid query or domain name not known in Dot TK Domain Registry")
  | WhoisTw => Some (Exact "No found")
  | WhoisName => Some (Contains "No match.")
  | WhoisUa => Some (Contains "No entries found for")
  | WhoisUs => Some (Contains "Not found:")
  | WhoisMe => Some (Contains "NOT FOUND")
  | WhoisUk => Some (Contains "Not found:")
  | WhoisIl => Some (Exact "No entries found")
  end.

(** The rule of the selected class holds of the text; a class without rule
    never refuses. *)
Definition not_found (c : class) (raw_text : string) : Prop :=
  match rule_of c with
  | Some r => holds r raw_text
  | None => False
  end.

(** The same as a test on the text. *)
Definition refuses (c : class) (raw_text : string) : bool :=
  match rule_of c with
  | Some r => evaluate r raw_text
  | None => false
  end.

(** ** The pattern table of each class, as a table *)
Definition registry_of (c : class) : gmap string string :=
  match c with
  | WhoisEntry => WhoisEntry__regex
  | WhoisCom => WhoisEntry__regex
  | WhoisNet => WhoisEntry__regex
  | WhoisOrg => WhoisOrg_regex
  | WhoisAu => WhoisAu_regex
  | WhoisBiz => WhoisBiz_regex
  | WhoisCa => WhoisCa_regex
  | WhoisCn => WhoisCn_regex
  | WhoisCo => WhoisBiz_regex
  | WhoisCz => WhoisCz_regex
  | WhoisDe => WhoisDe_regex
  | WhoisDk => WhoisDk_regex
  | WhoisFi => WhoisFi_regex
  | WhoisFm => WhoisFm_regex
  | WhoisFr => WhoisFr_regex
  | WhoisInfo => WhoisOrg_regex
  | WhoisJp => WhoisJp_regex
  | WhoisKr => WhoisKr_regex
  | WhoisNo => WhoisNo_regex
  | WhoisNu => WhoisNu_regex
  | WhoisPl => WhoisPl_regex
  | WhoisRu => WhoisRu_regex
  | WhoisSk => WhoisSk_regex
  | WhoisSu => WhoisRu_regex
  | WhoisTk => WhoisTk_regex
  | WhoisTw => WhoisTw_regex
  | WhoisName => WhoisName_regex
  | WhoisUa => WhoisUa_regex
  | WhoisUs => WhoisUs_regex
  | WhoisMe => WhoisMe_regex
  | WhoisUk => WhoisUk_regex
  | WhoisIl => WhoisIl_regex
  end.

(** ** The suffix table

    The tests of [load] in their order: the suffix, the number of trailing
    characters of the domain it is compared with, and the class. *)
Definition suffix_table : list (string * nat * class) := [
  (".com", 4, WhoisCom);
  (".net", 4, WhoisNet);
  (".org", 4, WhoisOrg);
  (".au", 3, WhoisAu);
  (".biz", 4, WhoisBiz);
  (".ca", 3, WhoisCa);
  (".cn", 3, WhoisCn);
  (".co", 3, WhoisCo);
  (".cz", 3, WhoisCz);
  (".de", 3, WhoisDe);
  (".dk", 3, WhoisDk);
  (".fi", 3, WhoisFi);
  (".fm", 3, WhoisFm);
  (".fr", 3, WhoisFr);
  (".il", 3, WhoisIl);
  (".info", 5, WhoisInfo);
  (".jp", 3, WhoisJp);
  (".kr", 3, WhoisKr);
  (".me", 3, WhoisMe);
  (".name", 5, WhoisName);
  (".no", 3, WhoisNo);
  (".nu", 3, WhoisNu);
  (".pl", 3, WhoisPl);
  (".tk", 3, WhoisTk);
  (".tw", 3, WhoisTw);
  (".ru", 3, WhoisRu);
  (".sk", 3, WhoisSk);
  (".su", 3, WhoisSu);
  (".ua", 3, WhoisUa);
  (".uk", 3, WhoisUk);
  (".us", 3, WhoisUs)
].

Definition entry_matches (domain : string) (e : string * nat * class) : bool :=
  Py.eq e.1.1 (Py.last_chars e.1.2 domain).

(** The class of the first entry that matches, [WhoisEntry] when none does. *)
Definition dispatch (domain : string) : class :=
  match List.find (entry_matches domain) suffix_table with
  | Some e => e.2
  | None => WhoisEntry
  end.

Definition supported_suffixes : list string := (fun e => e.1.1) <$> suffix_table.

(** ** Records

    The instance that a successful [c(domain, text)] hands back: [domain]
    and [text] in its [__dict__], and [_regex] too when the class passes a
    table of its own to [WhoisEntry.__init__]. *)
Definition passes_table (c : class) : bool :=
  match c with
  | WhoisEntry | WhoisCom | WhoisNet => false
  | _ => true
  end.

Definition record_of (c : class) (domain text : string) : instance :=
  {| ob_type := c;
     ob_dict :=
       if passes_table c
       then dict [("domain", VStr domain); ("text", VStr text);
                  ("_regex", VDict (registry_of c))]
       else dict [("domain", VStr domain); ("text", VStr text)] |}.

(** The pattern table an instance is bound to: what [self._regex] finds. *)
Definition registry (r : instance) : gmap string string :=
  match lookup r "_regex" with
  | Some (VDict d) => d
  | _ => ∅
  end.

(** A world in which nothing has been matched yet. *)
Definition start (r : instance) : world := {| self := r; findall_calls := [] |}.

(** [later w w']: [w'] is [w] after any number of attribute accesses. *)
Inductive later (w : world) : world → Prop :=
| later_now : later w w
| later_get w1 name v w2 :
    later w w1 → getattr name w1 = (v, w2) → later w w2.

(** The state of a record some time after [load] returned it. *)
Definition loaded (domain text : string) (w : world) : Prop :=
  ∃ r, load domain text = Ok r ∧ later (start r) w.


(** ** The state of a record

    [resolves c f]: ordinary lookup of [f] succeeds on a new record of
    class [c], through the three names [__init__] may store or through the
    classes. *)
Definition resolves (c : class) (f : string) : bool :=
  bool_decide (f ∈ ["domain"; "text"; "_regex"]) ||
  match type_lookup c f with Some _ => true | None => false end.

(** Every pattern of the table of [c] is a non-empty string that compiles,
    under a name that ordinary lookup does not resolve. *)
Definition fields_ok (c : class) : bool :=
  forallb (fun kv : string * string =>
             Py.truthy kv.2 &&
             match Re.compile kv.2 with Some _ => true | None => false end &&
             negb (resolves c kv.1))
          (map_to_list (registry_of c)).

(** [f] has been computed and stored on [r]. *)
Definition cached (c : class) (text : string) (r : instance) (f : string) : Prop :=
  ∃ pat found, registry_of c !! f = Some pat ∧ Re.findall pat text = Some found
               ∧ ob_dict r !! f = Some (VList found).

(** [r] is the record of [c], [domain] and [text] with some fields cached. *)
Definition record_state (c : class) (domain text : string) (r : instance) : Prop :=
  ob_type r = c ∧
  ∀ f, ob_dict r !! f = ob_dict (record_of c domain text) !! f ∨ cached c text r f.

(** The world after the first access to a field: the field stored, the call
    to [re.findall] recorded. *)
Definition store (f : string) (pat text : string) (found : list elem) (w : world) : world :=
  {| self := {| ob_type := ob_type (self w);
                ob_dict := <[f := VList found]> (ob_dict (self w)) |};
     findall_calls := (pat, text) :: findall_calls w |}.

(** ** Scans

    [hit_before h1 h2]: [h2] starts after the start of [h1] and not before
    its end; positions are measured by the text still ahead. *)
Definition hit_before (h1 h2 : Re.hit) : Prop :=
  length (Re.hit_from h2) < length (Re.hit_from h1)
  ∧ length (Re.hit_from h2) ≤ length (Re.hit_rest h1).

(** The position [v] lies strictly inside the hit [h]. *)
Definition inside (h : Re.hit) (v : list ascii) : Prop :=
  length (Re.hit_rest h) < length v < length (Re.hit_from h).

(** A matcher that only ever continues on a suffix of its input. *)
Definition consumes {R : Type}
    (m : list ascii → Re.caps → (list ascii → Re.caps → option R) → option R) : Prop :=
  ∀ s g k res, m s g k = Some res → ∃ s' g', s' `suffix_of` s ∧ k s' g' = Some res.

(** The pattern matches at no position of the text. *)
Definition matches_nowhere (r : Re.regex) (s : list ascii) : Prop :=
  ∀ v, v `suffix_of` s → Re.match_here false r v = None.

(** An outcome that is the [KeyError] of [__getattr__]. *)
Definition unknown_field (v : result pyval) : Prop :=
  ∃ msg, v = Raise (KeyError msg).

(** ** Suffixes that share a class body

    Two suffixes behave alike when [load] refuses the same texts for both
    and otherwise returns records with the same pattern table, the same
    list of field names and the same value for every field. *)
Definition same_behaviour (suffix1 suffix2 : string) : Prop :=
  ∀ domain1 domain2 text,
    ends_with suffix1 domain1 → ends_with suffix2 domain2 →
    (∀ e, load domain1 text = Raise e ↔ load domain2 text = Raise e)
    ∧ (∀ r1 r2, load domain1 text = Ok r1 → load domain2 text = Ok r2 →
         registry r1 = registry r2
         ∧ (attrs (start r1)).1 = (attrs (start r2)).1
         ∧ ∀ f, is_Some (registry r1 !! f) →
                (getattr f (start r1)).1 = (getattr f (start r2)).1).

(** ** Dates

    A format is rejected when [time.strptime] raises the [ValueError] that
    [cast_date] passes over. *)
Definition rejected (tz : Time.tzinfo) (date_str format : string) : Prop :=
  Time.strptime tz (Py.strip date_str) format = Raise ValueError.

(** ** Sample inputs *)

Definition no_match_for_example_com : string :=
  "No match for " +:+ Py.dquote +:+ "EXAMPLE.COM" +:+ Py.dquote.

Definition example_org_text : string :=
  "Domain Name: EXAMPLE.ORG" +:+ Py.lf +:+ "...".

Definition three_name_servers : string :=
  "Name Server: ns1.x" +:+ Py.lf +:+
  "Name Server: ns2.x" +:+ Py.lf +:+
  "Name Server: ns3.x" +:+ Py.lf.

(** A complete [.de] answer whose holder has "Error" in its name. *)
Definition example_de_text : string :=
  "Domain: example.de" +:+ Py.lf +:+
  "Nserver: ns1.example.de" +:+ Py.lf +:+
  "Status: connect" +:+ Py.lf +:+
  "Changed: 2010-01-01T00:00:00+01:00" +:+ Py.lf +:+
  "Name: Error Analysis GmbH" +:+ Py.lf.

(** ** Vocabulary of the further properties *)

(** The value of field [f] on a record of class [c] over [text]. *)
Definition field_value (c : class) (text f : string) : list elem :=
  match registry_of c !! f with
  | Some pat => default [] (Re.findall pat text)
  | None => []
  end.

(** An element that is a plain string. *)
Definition is_string (e : elem) : Prop := ∃ s, e = EStr s.

(** Every pattern of the table of [c] has at most one group. *)
Definition single_group (c : class) : bool :=
  forallb (fun kv : string * string =>
             match Re.compile kv.2 with
             | Some pt => Re.pat_groups pt <=? 1
             | None => false
             end)
          (map_to_list (registry_of c)).

(** [t] is a stretch of [T]. *)
Definition stretch_of (t T : list ascii) : Prop := ∃ a b, T = a ++ t ++ b.

(** The pieces of a text between its line feeds. *)
Fixpoint lines_of (l : list ascii) : list (list ascii) :=
  match l with
  | [] => [[]]
  | c :: l' =>
      if Ascii.eqb c Py.LF then [] :: lines_of l'
      else match lines_of l' with
           | line :: rest => (c :: line) :: rest
           | [] => [[c]]
           end
  end.

(** The line of [__str__] for a field. *)
Definition str_line (c : class) (text f : string) : string :=
  f +:+ ": " +:+ Str.repr_list (field_value c text f).

(** The world after a first access to [f], if [f] is a field not stored yet. *)
Definition store_one (c : class) (text : string) (w : world) (f : string) : world :=
  match ob_dict (self w) !! f, registry_of c !! f with
  | None, Some pat => store f pat text (field_value c text f) w
  | _, _ => w
  end.

(** The world after the fields of the list have been accessed in turn. *)
Definition store_all (c : class) (text : string) (names : list string) (w : world) : world :=
  foldl (store_one c text) w names.

(** The instance that [WhoisEntry(domain, text, table)] builds. *)
Definition entry_of (domain text : string) (table : gmap string string) : instance :=
  {| ob_type := WhoisEntry;
     ob_dict := dict [("domain", VStr domain); ("text", VStr text);
                      ("_regex", VDict table)] |}.

(** A value that is not a list. *)
Definition not_list (v : pyval) : bool :=
  match v with
  | VList _ => false
  | _ => true
  end.

(** The strings that an element of a field holds. *)
Definition strings_of (e : elem) : list string :=
  match e with
  | EStr s => [s]
  | ETuple items => items
  end.

(** Captures that are all stretches of [T]. *)
Definition drawn_from (T : list ascii) (g : Re.caps) : Prop :=
  Forall (fun p : nat * list ascii => stretch_of p.2 T) g.

(** A matcher that, started at a position of [T] with captures drawn from
    [T], only ever continues at a later position with captures drawn from
    [T]. *)
Definition draws {R : Type} (T : list ascii)
    (m : list ascii → Re.caps → (list ascii → Re.caps → option R) → option R) : Prop :=
  ∀ s g k res, s `suffix_of` T → drawn_from T g → m s g k = Some res →
    ∃ s' g', s' `suffix_of` s ∧ drawn_from T g' ∧ k s' g' = Some res.

(** A time tuple that names a day of the calendar. *)
Definition calendar_day (t : Time.struct_time) : Prop :=
  (1 ≤ Time.tm_year t ≤ 9999 ∧ 1 ≤ Time.tm_mon t ≤ 12
   ∧ 1 ≤ Time.tm_mday t ≤ Time.days_in_month (Time.tm_year t) (Time.tm_mon t)
   ∧ 0 ≤ Time.tm_wday t ≤ 6
   ∧ 1 ≤ Time.tm_yday t ≤ (if Time.is_leap (Time.tm_year t) then 366 else 365)
   ∧ -1 ≤ Time.tm_isdst t ≤ 1)%Z.

(** The largest value of the clock directives [%H], [%M] and [%S]; the group
    of a directive is numbered by the directive's character. *)
Definition clock_bound (n : nat) : option Z :=
  if n =? nat_of_ascii "H" then Some 23%Z
  else if n =? nat_of_ascii "M" then Some 59%Z
  else if n =? nat_of_ascii "S" then Some 61%Z
  else None.

(** A capture of a clock directive reads as a number within its range. *)
Definition capture_ok (p : nat * list ascii) : Prop :=
  match clock_bound p.1 with
  | Some b => (0 ≤ Py.int_chars p.2 ≤ b)%Z
  | None => True
  end.

Definition clock_caps (g : Re.caps) : Prop := Forall capture_ok g.

(** A matcher that only ever continues at a later position, with captures
    that are still within their ranges. *)
Definition keeps_clock {R : Type}
    (m : list ascii → Re.caps → (list ascii → Re.caps → option R) → option R) : Prop :=
  ∀ s g k res, clock_caps g → m s g k = Some res →
    ∃ s' g', s' `suffix_of` s ∧ clock_caps g' ∧ k s' g' = Some res.

(** An expression without groups. *)
Fixpoint plain (r : Re.regex) : bool :=
  match r with
  | Re.RSeq a b | Re.RAlt a b => plain a && plain b
  | Re.RRep a _ _ => plain a
  | Re.RGroup _ _ => false
  | _ => true
  end.

(** Every group of the expression, matched ignoring case, captures a text
    within the range of its directive. *)
Fixpoint clock_groups (r : Re.regex) : Prop :=
  match r with
  | Re.RSeq a b | Re.RAlt a b => clock_groups a ∧ clock_groups b
  | Re.RRep a _ _ => clock_groups a
  | Re.RGroup n a =>
      ∀ (R : Type) s g (k : list ascii → Re.caps → option R) res,
        clock_caps g → Re.rmatch true a s g k = Some res →
        ∃ s' g', s' `suffix_of` s ∧ clock_caps g'
                 ∧ capture_ok (n, take (length s - length s') s)
                 ∧ k s' g' = Some res
  | _ => True
  end.

(** A time tuple whose clock fields are within their ranges; [time.strptime]
    accepts 60 and 61 as seconds. *)
Definition time_of_day (t : Time.struct_time) : Prop :=
  (0 ≤ Time.tm_hour t ≤ 23 ∧ 0 ≤ Time.tm_min t ≤ 59 ∧ 0 ≤ Time.tm_sec t ≤ 61)%Z.

(** [y] passes the set of [it], ignoring case, only if it is a digit from
    [lo] to [hi]. *)
Definition digit_between (it : Re.item) (lo hi : Z) (y : ascii) : bool :=
  implb (Re.set_matches true false [it] y)
        (Py.isdigit y && (lo <=? Py.digit_val y)%Z && (Py.digit_val y <=? hi)%Z).

(** [y] passes for the character [c], ignoring case, only if it is the digit
    of value [v]. *)
Definition digit_is (c : ascii) (v : Z) (y : ascii) : bool :=
  implb (Re.char_matches true c y) (Py.isdigit y && (Py.digit_val y =? v)%Z).

(** * Properties of the runtime fragment *)

(** ** Strings *)

Lemma chars_str (l : list ascii) : Py.chars (Py.str l) = l.
Proof. apply list_ascii_of_string_of_list_ascii. Qed.

Lemma str_chars (s : string) : Py.str (Py.chars s) = s.
Proof. apply string_of_list_ascii_of_string. Qed.

Lemma chars_inj (a b : string) : Py.chars a = Py.chars b → a = b.
Proof. intros H. rewrite <- (str_chars a), <- (str_chars b). by rewrite H. Qed.

Lemma chars_app (a b : string) : Py.chars (a +:+ b) = Py.chars a ++ Py.chars b.
Proof. induction a as [|c a IH]; simpl; [done|]. by rewrite <- IH. Qed.

Lemma str_app (k l : list ascii) : Py.str (k ++ l) = Py.str k +:+ Py.str l.
Proof. apply chars_inj. by rewrite chars_app, !chars_str. Qed.

Lemma length_chars (s : string) : length (Py.chars s) = String.length s.
Proof. induction s as [|c s IH]; simpl; [done|]. by rewrite <- IH. Qed.

Lemma eq_true (a b : string) : Py.eq a b = true ↔ a = b.
Proof. apply String.eqb_eq. Qed.

Lemma eq_false (a b : string) : Py.eq a b = false ↔ a ≠ b.
Proof. apply String.eqb_neq. Qed.

Lemma startswith_chars_spec (p l : list ascii) :
  Py.startswith_chars p l = true ↔ ∃ k, l = p ++ k.
Proof.
  revert l. induction p as [|c p IH]; intros l; simpl.
  - split; [eauto|done].
  - destruct l as [|x l].
    + split; [done|]. by intros [k ?].
    + rewrite andb_true_iff, Ascii.eqb_eq, IH. split.
      * intros [-> [k ->]]. eauto.
      * intros [k [= -> ->]]. eauto.
Qed.

Lemma contains_chars_spec (p l : list ascii) :
  Py.contains_chars p l = true ↔ ∃ a b, l = a ++ p ++ b.
Proof.
  induction l as [|x l IH]; simpl; rewrite orb_true_iff, startswith_chars_spec.
  - split.
    + intros [[k ->]|?]; [|done]. by exists [], k.
    + intros (a & b & H). left. destruct a; [|done]. eauto.
  - rewrite IH. split.
    + intros [[k ->]|(a & b & ->)]; [by exists [], k|]. by exists (x :: a), b.
    + intros ([|y a] & b & H); simpl in H.
      * left. eauto.
      * right. injection H as -> ->. eauto.
Qed.

Lemma contains_occurs (sub text : string) :
  Py.contains sub text = true ↔ occurs_in sub text.
Proof.
  unfold Py.contains, occurs_in. rewrite contains_chars_spec. split.
  - intros (a & b & H). exists (Py.str a), (Py.str b). apply chars_inj.
    by rewrite !chars_app, !chars_str.
  - intros (a & b & ->). exists (Py.chars a), (Py.chars b).
    by rewrite !chars_app.
Qed.

Lemma last_chars_ends_with (suffix domain : string) :
  Py.eq suffix (Py.last_chars (String.length suffix) domain) = true
  ↔ ends_with suffix domain.
Proof.
  rewrite eq_true. unfold Py.last_chars, ends_with. split.
  - intros H. exists (Py.str (take (length (Py.chars domain) - String.length suffix)
                               (Py.chars domain))).
    rewrite H at 2. rewrite <- str_app, take_drop. by rewrite str_chars.
  - intros [front ->]. rewrite chars_app, length_app, <- (length_chars suffix).
    replace (_ + _ - _) with (length (Py.chars front)) by lia.
    by rewrite drop_app_length, str_chars.
Qed.

(** *** Trimming *)

Lemma lstrip_blank_l (a l : list ascii) :
  Forall (fun c => Py.isspace c = true) a →
  Py.lstrip_chars (a ++ l) = Py.lstrip_chars l.
Proof. induction 1 as [|c a Hc _ IH]; simpl; [done|]. by rewrite Hc. Qed.

Lemma lstrip_blank_r (l b : list ascii) :
  Forall (fun c => Py.isspace c = true) b →
  Py.lstrip_chars (l ++ b) = Py.lstrip_chars l ++ b
  ∨ (Py.lstrip_chars (l ++ b) = [] ∧ Py.lstrip_chars l = []).
Proof.
  intros Hb. induction l as [|c l IH]; simpl.
  - right. split; [|done]. rewrite <- (app_nil_r b). by rewrite lstrip_blank_l.
  - destruct (Py.isspace c); [done|by left].
Qed.

Lemma strip_chars_blank (a l b : list ascii) :
  Forall (fun c => Py.isspace c = true) a →
  Forall (fun c => Py.isspace c = true) b →
  Py.strip_chars (a ++ l ++ b) = Py.strip_chars l.
Proof.
  intros Ha Hb. unfold Py.strip_chars. rewrite lstrip_blank_l by done.
  destruct (lstrip_blank_r l b Hb) as [->|[-> ->]]; [|done].
  rewrite reverse_app, lstrip_blank_l; [done|]. by apply Forall_reverse.
Qed.

Lemma strip_blank (a s b : string) :
  blank a → blank b → Py.strip (a +:+ s +:+ b) = Py.strip s.
Proof.
  intros Ha Hb. unfold Py.strip. rewrite !chars_app.
  by rewrite strip_chars_blank.
Qed.

Lemma lstrip_split (l : list ascii) :
  ∃ a, Forall (fun c => Py.isspace c = true) a
       ∧ l = a ++ Py.lstrip_chars l
       ∧ ∀ c, head (Py.lstrip_chars l) = Some c → Py.isspace c = false.
Proof.
  induction l as [|x l (a & Ha & Hl & Hh)]; simpl.
  - by exists [].
  - destruct (Py.isspace x) eqn:E.
    + exists (x :: a). split; [by constructor|]. split; [by rewrite Hl at 1|done].
    + exists []. split; [constructor|]. split; [done|]. by intros c [= <-].
Qed.

(** [strip] removes a run of blanks at each end and leaves no blank at
    either end of what it returns. *)
Lemma strip_chars_split (l : list ascii) :
  ∃ a b, Forall (fun c => Py.isspace c = true) a
         ∧ Forall (fun c => Py.isspace c = true) b
         ∧ l = a ++ Py.strip_chars l ++ b
         ∧ (∀ c, head (Py.strip_chars l) = Some c → Py.isspace c = false)
         ∧ (∀ c, last (Py.strip_chars l) = Some c → Py.isspace c = false).
Proof.
  unfold Py.strip_chars.
  destruct (lstrip_split l) as (a & Ha & Hl & Hh).
  destruct (lstrip_split (reverse (Py.lstrip_chars l))) as (b & Hb & Hm & Hl').
  set (m := Py.lstrip_chars l) in *. set (x := Py.lstrip_chars (reverse m)) in *.
  assert (m = reverse x ++ reverse b) as Hmid.
  { by rewrite <- reverse_app, <- Hm, reverse_involutive. }
  exists a, (reverse b). split; [done|]. split; [by apply Forall_reverse|].
  split; [by rewrite <- Hmid|]. split.
  - intros c Hc. apply Hh. rewrite Hmid. by destruct (reverse x).
  - intros c Hc. apply Hl'. by rewrite <- last_reverse, Hc.
Qed.

(** ** Instantiation and dispatch *)

Lemma evaluate_holds (r : NotFoundRule) (raw_text : string) :
  evaluate r raw_text = true ↔ holds r raw_text.
Proof.
  induction r as [s|s|r1 IH1 r2 IH2]; simpl.
  - apply eq_true.
  - apply contains_occurs.
  - by rewrite orb_true_iff, IH1, IH2.
Qed.

Lemma refuses_not_found (c : class) (raw_text : string) :
  refuses c raw_text = true ↔ not_found c raw_text.
Proof.
  unfold refuses, not_found. destruct (rule_of c); [apply evaluate_holds|done].
Qed.

Create HintDb inits.

#[local] Hint Unfold WhoisCom_init WhoisNet_init WhoisOrg_init WhoisAu_init
  WhoisBiz_init WhoisCa_init WhoisCn_init WhoisCz_init WhoisDe_init WhoisDk_init
  WhoisFi_init WhoisFm_init WhoisFr_init WhoisJp_init WhoisKr_init WhoisNo_init
  WhoisNu_init WhoisPl_init WhoisRu_init WhoisSk_init WhoisTk_init WhoisTw_init
  WhoisName_init WhoisUa_init WhoisUs_init WhoisMe_init WhoisUk_init
  WhoisIl_init : inits.

(** Evaluate with the pattern tables as unknowns: what is computed here
    depends on the names they are bound to, not on their contents. *)
Ltac forget_tables :=
  cbv delta [getattr getattr_within lookup type_lookup lookup_in class_dict
             record_of registry_of registry WhoisEntry._regex];
  generalize WhoisEntry__regex WhoisOrg_regex WhoisAu_regex WhoisBiz_regex
    WhoisCa_regex WhoisCn_regex WhoisCz_regex WhoisDe_regex WhoisDk_regex
    WhoisFi_regex WhoisFm_regex WhoisFr_regex WhoisJp_regex WhoisKr_regex
    WhoisNo_regex WhoisNu_regex WhoisPl_regex WhoisRu_regex WhoisSk_regex
    WhoisTk_regex WhoisTw_regex WhoisName_regex WhoisUa_regex WhoisUs_regex
    WhoisMe_regex WhoisUk_regex WhoisIl_regex;
  intros.

Ltac eval_symbolic := forget_tables; vm_compute; reflexivity.

(** Run the [__init__] that the resolution order selects, splitting on the
    test it starts with. *)
Ltac run_init :=
  unfold new, refuses;
  match goal with
  | |- context [type_lookup ?c ?n] =>
      let v := eval vm_compute in (type_lookup c n) in
      replace (type_lookup c n) with v by (vm_compute; reflexivity)
  end;
  cbn [call_init rule_of evaluate]; autounfold with inits;
  try match goal with
      | |- context [if ?b then raise _ else _] => destruct b
      end;
  eval_symbolic.

(** What a class does when called: it refuses the text by its rule, or
    hands back the record. *)
Lemma new_spec (c : class) (domain text : string) :
  new c domain text =
  if refuses c text then Raise (PywhoisError text)
  else Ok (record_of c domain text).
Proof. destruct c; run_init. Qed.

Lemma load_dispatch (domain text : string) :
  load domain text =
  if Py.eq (Py.strip text) global_sentinel then Raise (PywhoisError text)
  else new (dispatch domain) domain text.
Proof.
  unfold load, dispatch, suffix_table, global_sentinel.
  destruct (Py.eq (Py.strip text) _); [done|].
  cbn [List.find]. unfold entry_matches. cbn [fst snd].
  repeat (destruct (Py.eq _ (Py.last_chars _ domain)); [done|]). done.
Qed.

Lemma load_spec (domain text : string) :
  load domain text =
  if Py.eq (Py.strip text) global_sentinel || refuses (dispatch domain) text
  then Raise (PywhoisError text)
  else Ok (record_of (dispatch domain) domain text).
Proof.
  rewrite load_dispatch, new_spec.
  by destruct (Py.eq (Py.strip text) global_sentinel).
Qed.

(** The table compares each suffix with as many trailing characters as the
    suffix is long, and no suffix of the table ends another one. *)
Lemma suffix_table_lengths :
  Forall (fun e : string * nat * class => e.1.2 = String.length e.1.1) suffix_table.
Proof. by apply (bool_decide_unpack _). Qed.

Lemma suffix_table_disjoint :
  Forall (fun e1 : string * nat * class =>
    Forall (fun e2 : string * nat * class =>
      Py.chars e1.1.1 `suffix_of` Py.chars e2.1.1 → e1 = e2) suffix_table)
    suffix_table.
Proof. by apply (bool_decide_unpack _). Qed.

Lemma ends_with_suffix (a b : string) :
  ends_with a b ↔ Py.chars a `suffix_of` Py.chars b.
Proof.
  split.
  - intros [front ->]. exists (Py.chars front). apply chars_app.
  - intros [k H]. exists (Py.str k). apply chars_inj.
    by rewrite chars_app, chars_str.
Qed.

Lemma entry_matches_spec (domain : string) (e : string * nat * class) :
  e ∈ suffix_table → entry_matches domain e = true ↔ ends_with e.1.1 domain.
Proof.
  intros He. unfold entry_matches.
  rewrite (proj1 (Forall_forall _ _) suffix_table_lengths e He).
  apply last_chars_ends_with.
Qed.

Lemma matching_entry_unique (domain : string) (e1 e2 : string * nat * class) :
  e1 ∈ suffix_table → e2 ∈ suffix_table →
  ends_with e1.1.1 domain → ends_with e2.1.1 domain → e1 = e2.
Proof.
  intros H1 H2 M1%ends_with_suffix M2%ends_with_suffix.
  pose proof suffix_table_disjoint as D. rewrite Forall_forall in D.
  destruct (suffix_weak_total _ _ _ M1 M2) as [S|S].
  - pose proof (D e1 H1) as D1. rewrite Forall_forall in D1. by apply D1.
  - pose proof (D e2 H2) as D2. rewrite Forall_forall in D2. symmetry. by apply D2.
Qed.

Lemma dispatch_entry (e : string * nat * class) (domain : string) :
  e ∈ suffix_table → ends_with e.1.1 domain → dispatch domain = e.2.
Proof.
  intros He Hd. unfold dispatch.
  destruct (List.find (entry_matches domain) suffix_table) as [e'|] eqn:F.
  - apply find_some in F as [Hin M]. apply list_elem_of_In in Hin.
    apply entry_matches_spec in M; [|done].
    by rewrite (matching_entry_unique domain e e').
  - apply entry_matches_spec in Hd; [|done].
    apply list_elem_of_In in He. by rewrite (find_none _ _ F e He) in Hd.
Qed.

Lemma dispatch_default (domain : string) :
  (∀ suffix, suffix ∈ supported_suffixes → ¬ ends_with suffix domain) →
  dispatch domain = WhoisEntry.
Proof.
  intros H. unfold dispatch.
  destruct (List.find (entry_matches domain) suffix_table) as [e|] eqn:F; [|done].
  apply find_some in F as [Hin M]. apply list_elem_of_In in Hin.
  apply entry_matches_spec in M; [|done].
  destruct (H e.1.1); [|done].
  unfold supported_suffixes. apply list_elem_of_fmap. eauto.
Qed.

Lemma dispatch_cases (domain : string) :
  (∃ e, e ∈ suffix_table ∧ ends_with e.1.1 domain ∧ dispatch domain = e.2)
  ∨ ((∀ suffix, suffix ∈ supported_suffixes → ¬ ends_with suffix domain)
     ∧ dispatch domain = WhoisEntry).
Proof.
  unfold dispatch.
  destruct (List.find (entry_matches domain) suffix_table) as [e|] eqn:F.
  - left. apply find_some in F as [Hin M]. apply list_elem_of_In in Hin.
    exists e. by rewrite <- entry_matches_spec.
  - right. split; [|done]. intros suffix [e [-> He]]%list_elem_of_fmap Hd.
    apply entry_matches_spec in Hd; [|done].
    apply list_elem_of_In in He. by rewrite (find_none _ _ F e He) in Hd.
Qed.

(** ** Attribute access on a record *)

Lemma fields_ok_all (c : class) : fields_ok c = true.
Proof. destruct c; vm_compute; reflexivity. Qed.

Lemma field_ok (c : class) (f pat : string) :
  registry_of c !! f = Some pat →
  Py.truthy pat = true ∧ is_Some (Re.compile pat) ∧ resolves c f = false.
Proof.
  intros H. pose proof (fields_ok_all c) as A. unfold fields_ok in A.
  rewrite forallb_forall in A.
  specialize (A (f, pat)). simpl in A.
  rewrite !andb_true_iff, negb_true_iff in A.
  destruct A as [[? C] ?].
  { apply list_elem_of_In. by apply elem_of_map_to_list. }
  repeat split; [done| |done]. by destruct (Re.compile pat).
Qed.

Lemma findall_compiles (pat text : string) :
  is_Some (Re.compile pat) → is_Some (Re.findall pat text).
Proof. intros [pt H]. unfold Re.findall. rewrite H. simpl. eauto. Qed.

Lemma getattr_within_found (depth : nat) (name : string) (w : world) (v : pyval) :
  lookup (self w) name = Some v → getattr_within depth name w = (Ok v, w).
Proof. intros H. destruct depth; simpl; by rewrite H. Qed.

Lemma getattr_within_hook (depth : nat) (name : string) (w : world) :
  lookup (self w) name = None →
  getattr_within (S depth) name w
  = WhoisEntry.__getattr__ (getattr_within depth) name w.
Proof. intros H. simpl. by rewrite H. Qed.

(** The hook on a name that the table knows. *)
Lemma hook_field (get : string → M pyval) (f : string) (w : world)
    (R : gmap string string) (pat t : string) (found : list elem) :
  get "_regex" w = (Ok (VDict R), w) → R !! f = Some pat → Py.truthy pat = true →
  get "text" w = (Ok (VStr t), w) → Re.findall pat t = Some found →
  get f (store f pat t found w) = (Ok (VList found), store f pat t found w) →
  WhoisEntry.__getattr__ get f w = (Ok (VList found), store f pat t found w).
Proof.
  intros Hreg Hf Hp Htext Hfound Hagain.
  unfold WhoisEntry.__getattr__, mbind, M_bind, bind.
  rewrite Hreg. cbn [dict_get ret]. rewrite Hf. cbn [truth]. rewrite Hp, Htext.
  cbn [re_findall]. rewrite Hfound. cbn [setattr self findall_calls].
  exact Hagain.
Qed.

(** The hook on a name that the table does not know. *)
Lemma hook_unknown (get : string → M pyval) (f : string) (w : world)
    (R : gmap string string) :
  get "_regex" w = (Ok (VDict R), w) → R !! f = None →
  WhoisEntry.__getattr__ get f w = (Raise (KeyError ("Unknown attribute: " +:+ f)), w).
Proof.
  intros Hreg Hf. unfold WhoisEntry.__getattr__, mbind, M_bind, bind.
  rewrite Hreg. cbn [dict_get ret]. by rewrite Hf.
Qed.

Lemma dict3 {V} (a b c : string) (x y z : V) :
  dict [(a, x); (b, y); (c, z)] = <[c := z]> (<[b := y]> (<[a := x]> ∅)).
Proof. reflexivity. Qed.

Lemma dict2 {V} (a b : string) (x y : V) :
  dict [(a, x); (b, y)] = <[b := y]> (<[a := x]> ∅).
Proof. reflexivity. Qed.

Lemma record_dict_other (c : class) (domain text f : string) :
  f ∉ ["domain"; "text"; "_regex"] → ob_dict (record_of c domain text) !! f = None.
Proof.
  intros H. rewrite !not_elem_of_cons in H. destruct H as (? & ? & ? & _).
  unfold record_of. cbn [ob_dict]. destruct (passes_table c).
  - rewrite dict3. by rewrite !lookup_insert_ne, lookup_empty.
  - rewrite dict2. by rewrite !lookup_insert_ne, lookup_empty.
Qed.

Lemma record_lookup_regex (c : class) (domain text : string) :
  lookup (record_of c domain text) "_regex" = Some (VDict (registry_of c)).
Proof. destruct c; eval_symbolic. Qed.

Lemma record_lookup_text (c : class) (domain text : string) :
  lookup (record_of c domain text) "text" = Some (VStr text).
Proof. destruct c; eval_symbolic. Qed.

Lemma record_lookup_domain (c : class) (domain text : string) :
  lookup (record_of c domain text) "domain" = Some (VStr domain).
Proof. destruct c; eval_symbolic. Qed.

Lemma resolves_false (c : class) (f : string) :
  resolves c f = false →
  (f ∉ ["domain"; "text"; "_regex"]) ∧ type_lookup c f = None.
Proof.
  unfold resolves. rewrite orb_false_iff, bool_decide_eq_false.
  intros [? H]. split; [done|]. by destruct (type_lookup c f).
Qed.

Section RecordState.
Context (c : class) (domain text : string).
Implicit Types (r : instance) (w : world) (f pat : string).

Lemma record_state_new : record_state c domain text (record_of c domain text).
Proof. split; [done|]. by left. Qed.

(** A name outside the table resolves as on the new record. *)
Lemma state_lookup_other r f :
  record_state c domain text r → registry_of c !! f = None →
  lookup r f = lookup (record_of c domain text) f.
Proof.
  intros [Hc Hd] Hf. unfold lookup. rewrite Hc. cbn [ob_type].
  destruct (Hd f) as [->|(pat & found & H & _)]; [done|congruence].
Qed.

(** A name of the table resolves through [__dict__] alone, where it is
    either missing or cached. *)
Lemma state_lookup_field r f pat :
  record_state c domain text r → registry_of c !! f = Some pat →
  lookup r f = ob_dict r !! f ∧ (ob_dict r !! f = None ∨ cached c text r f).
Proof.
  intros [Hc Hd] Hf.
  destruct (field_ok c f pat Hf) as (_ & _ & [Hres Hty]%resolves_false).
  split.
  - unfold lookup. rewrite Hc, Hty. by destruct (ob_dict r !! f).
  - destruct (Hd f) as [->|?]; [|by right].
    left. by apply record_dict_other.
Qed.

Lemma state_regex w :
  record_state c domain text (self w) →
  ∀ depth, getattr_within depth "_regex" w = (Ok (VDict (registry_of c)), w).
Proof.
  intros Hs depth. apply getattr_within_found.
  rewrite (state_lookup_other _ _ Hs), record_lookup_regex; [done|].
  destruct (registry_of c !! "_regex") as [pat|] eqn:E; [|done].
  destruct (field_ok c _ pat E) as (_ & _ & [Hres _]%resolves_false).
  destruct Hres. set_solver.
Qed.

Lemma state_text w :
  record_state c domain text (self w) →
  ∀ depth, getattr_within depth "text" w = (Ok (VStr text), w).
Proof.
  intros Hs depth. apply getattr_within_found.
  rewrite (state_lookup_other _ _ Hs), record_lookup_text; [done|].
  destruct (registry_of c !! "text") as [pat|] eqn:E; [|done].
  destruct (field_ok c _ pat E) as (_ & _ & [Hres _]%resolves_false).
  destruct Hres. set_solver.
Qed.

Lemma record_state_store w f pat found :
  record_state c domain text (self w) → registry_of c !! f = Some pat →
  Re.findall pat text = Some found →
  record_state c domain text (self (store f pat text found w)).
Proof.
  intros [Hc Hd] Hf Hfound. split; [done|]. intros g. cbn [store self ob_dict].
  destruct (decide (f = g)) as [<-|Hne].
  - right. exists pat, found. cbn [ob_dict]. by rewrite lookup_insert_eq.
  - rewrite lookup_insert_ne by done.
    destruct (Hd g) as [?|(p & fd & ? & ? & ?)]; [by left|right].
    exists p, fd. cbn [ob_dict]. by rewrite lookup_insert_ne.
Qed.

(** Access to a field of the table: the cached list when there is one;
    otherwise the list that [re.findall] computes, which is stored. *)
Lemma getattr_field w f pat :
  record_state c domain text (self w) → registry_of c !! f = Some pat →
  ∃ found, Re.findall pat text = Some found ∧
    ((ob_dict (self w) !! f = Some (VList found) ∧ getattr f w = (Ok (VList found), w))
     ∨ (ob_dict (self w) !! f = None
        ∧ getattr f w = (Ok (VList found), store f pat text found w))).
Proof.
  intros Hs Hf.
  destruct (state_lookup_field _ _ _ Hs Hf) as [Hl [Hnone|Hc]].
  - destruct (field_ok c f pat Hf) as (Htruthy & Hcomp & _).
    destruct (findall_compiles pat text Hcomp) as [found Hfound].
    exists found. split; [done|]. right. split; [done|].
    unfold getattr, recursion_limit.
    rewrite getattr_within_hook by (by rewrite Hl).
    apply (hook_field _ _ _ (registry_of c)); try done.
    + by apply state_regex.
    + by apply state_text.
    + apply getattr_within_found.
      pose proof (record_state_store w f pat found Hs Hf Hfound) as Hs'.
      destruct (state_lookup_field _ _ _ Hs' Hf) as [-> _].
      cbn [store self ob_dict]. by rewrite lookup_insert_eq.
  - destruct Hc as (p & found & Hp & Hfound & Hd).
    assert (p = pat) as -> by congruence.
    exists found. split; [done|]. left. split; [done|].
    apply getattr_within_found. by rewrite Hl.
Qed.

(** Access to any other name: as on the new record, and the hook's
    [KeyError] when ordinary lookup fails. *)
Lemma getattr_other w f :
  record_state c domain text (self w) → registry_of c !! f = None →
  getattr f w =
  match lookup (record_of c domain text) f with
  | Some v => (Ok v, w)
  | None => (Raise (KeyError ("Unknown attribute: " +:+ f)), w)
  end.
Proof.
  intros Hs Hf. rewrite <- (state_lookup_other _ _ Hs Hf).
  destruct (lookup (self w) f) as [v|] eqn:E.
  - by apply getattr_within_found.
  - unfold getattr, recursion_limit. rewrite getattr_within_hook by done.
    apply (hook_unknown _ _ _ (registry_of c)); [|done]. by apply state_regex.
Qed.

Lemma getattr_preserves w f v w' :
  record_state c domain text (self w) → getattr f w = (v, w') →
  record_state c domain text (self w').
Proof.
  intros Hs Hg. destruct (registry_of c !! f) as [pat|] eqn:E.
  - destruct (getattr_field w f pat Hs E) as (found & Hfound & [[_ H]|[_ H]]);
      rewrite H in Hg; injection Hg as <- <-; [done|].
    by apply record_state_store.
  - rewrite (getattr_other w f Hs E) in Hg.
    by destruct (lookup (record_of c domain text) f); injection Hg as <- <-.
Qed.

Lemma later_state w w' :
  record_state c domain text (self w) → later w w' →
  record_state c domain text (self w').
Proof. intros Hs. induction 1; [done|]. by eapply getattr_preserves. Qed.

(** What is cached stays cached, and the trace only grows. *)
Lemma getattr_keeps w f v w' g x :
  record_state c domain text (self w) → getattr f w = (v, w') →
  ob_dict (self w) !! g = Some x → ob_dict (self w') !! g = Some x.
Proof.
  intros Hs Hg Hx. destruct (registry_of c !! f) as [pat|] eqn:E.
  - destruct (getattr_field w f pat Hs E) as (found & Hfound & [[_ H]|[Hn H]]);
      rewrite H in Hg; injection Hg as <- <-; [done|].
    cbn [store self ob_dict]. rewrite lookup_insert_ne; [done|congruence].
  - rewrite (getattr_other w f Hs E) in Hg.
    by destruct (lookup (record_of c domain text) f); injection Hg as <- <-.
Qed.

Lemma later_keeps w w' g x :
  record_state c domain text (self w) → later w w' →
  ob_dict (self w) !! g = Some x → ob_dict (self w') !! g = Some x.
Proof.
  intros Hs Hl Hx. induction Hl as [|w1 name v w2 Hl IH Hg]; [done|].
  eapply getattr_keeps; [by eapply later_state|done|done].
Qed.

End RecordState.

Lemma loaded_state (domain text : string) (w : world) :
  loaded domain text w → record_state (dispatch domain) domain text (self w).
Proof.
  intros (r & Hload & Hl). rewrite load_spec in Hload.
  destruct (_ || _); [done|]. injection Hload as <-.
  eapply later_state; [|done]. apply record_state_new.
Qed.

(** ** Matching and scanning *)

Section Suffix.
Context {R : Type} (icase : bool).
Implicit Types (s : list ascii) (g : Re.caps) (k : list ascii → Re.caps → option R).

Lemma rep_consumes body lo hi :
  consumes (R:=R) body → ∀ k fuel count, consumes (R:=R) (fun s g k => Re.rep body lo hi k fuel count s g).
Proof.
  unfold consumes. intros Hbody k0 fuel. induction fuel as [|fuel IH]; intros count s g k res; simpl.
  - destruct (lo <=? count); [|done]. intros H. by exists s, g.
  - assert (∀ res, (if lo <=? count then k s g else None) = Some res →
                   ∃ s' g', s' `suffix_of` s ∧ k s' g' = Some res) as Hstop.
    { intros res'. destruct (lo <=? count); [|done]. intros H. by exists s, g. }
    destruct (Re.below hi count); [|by apply Hstop].
    destruct (body s g _) as [res'|] eqn:E; [|by apply Hstop].
    intros [= ->]. apply Hbody in E as (s1 & g1 & Hs1 & E).
    destruct (_ || _); [|done].
    apply (IH (S count) s1 g1 k) in E as (s2 & g2 & Hs2 & E).
    exists s2, g2. split; [by etrans|done].
Qed.

Lemma rmatch_consumes (r : Re.regex) : consumes (R:=R) (Re.rmatch icase r).
Proof.
  induction r as [|c| |neg items|r1 IH1 r2 IH2|r1 IH1 r2 IH2|r IH lo hi|n r IH];
    unfold consumes in *; intros s g k res; simpl.
  - intros H. by exists s, g.
  - destruct s as [|x s]; [done|]. destruct (Re.char_matches _ _ _); [|done].
    intros H. exists s, g. split; [by apply suffix_cons_r|done].
  - destruct s as [|x s]; [done|]. destruct (Ascii.eqb _ _); [done|].
    intros H. exists s, g. split; [by apply suffix_cons_r|done].
  - destruct s as [|x s]; [done|]. destruct (Re.set_matches _ _ _ _); [|done].
    intros H. exists s, g. split; [by apply suffix_cons_r|done].
  - intros (s1 & g1 & Hs1 & (s2 & g2 & Hs2 & H)%IH2)%IH1.
    exists s2, g2. split; [by etrans|done].
  - destruct (Re.rmatch icase r1 s g k) as [res'|] eqn:E.
    + intros [= ->]. by apply (IH1 s g k).
    + apply IH2.
  - apply (rep_consumes _ lo hi IH k (lo + length s) 0 s g k res).
  - intros (s1 & g1 & Hs1 & H)%IH. eauto.
Qed.

End Suffix.

Lemma match_here_suffix (icase : bool) (r : Re.regex) (s rest : list ascii) (g : Re.caps) :
  Re.match_here icase r s = Some (rest, g) → rest `suffix_of` s.
Proof.
  intros (s' & g' & Hs & [= <- <-])%rmatch_consumes. done.
Qed.

Section Scan.
Variable r : Re.regex.
Implicit Types (u v : list ascii) (h : Re.hit).

(** Every hit is a match of the pattern at a position of the text. *)
Lemma scan_hits fuel u h :
  h ∈ Re.scan fuel r u →
  Re.hit_from h `suffix_of` u
  ∧ Re.match_here false r (Re.hit_from h) = Some (Re.hit_rest h, Re.hit_caps h).
Proof.
  revert u h. induction fuel as [|fuel IH]; intros u h; simpl; [by intros ?%elem_of_nil|].
  assert (∀ h, h ∈ match u with [] => [] | _ :: u' => Re.scan fuel r u' end →
               Re.hit_from h `suffix_of` u
               ∧ Re.match_here false r (Re.hit_from h) = Some (Re.hit_rest h, Re.hit_caps h))
    as Hnext.
  { intros h'. destruct u as [|x u']; [by intros ?%elem_of_nil|].
    intros [? ?]%IH. split; [by apply suffix_cons_r|done]. }
  destruct (Re.match_here false r u) as [[rest g]|] eqn:E; [|by apply Hnext].
  intros [->|Hin]%elem_of_cons; [done|].
  destruct (length rest <? length u); [|by apply Hnext].
  apply IH in Hin as [? ?]. split; [|done].
  etrans; [done|]. by eapply match_here_suffix.
Qed.

(** The hits come in text order and do not overlap. *)
Lemma scan_sorted fuel u : StronglySorted hit_before (Re.scan fuel r u).
Proof.
  revert u. induction fuel as [|fuel IH]; intros u; simpl; [constructor|].
  assert (StronglySorted hit_before
            match u with [] => [] | _ :: u' => Re.scan fuel r u' end) as Hnext.
  { destruct u; [constructor|apply IH]. }
  destruct (Re.match_here false r u) as [[rest g]|] eqn:E; [|done].
  pose proof (suffix_length _ _ (match_here_suffix _ _ _ _ _ E)) as Hlen.
  constructor.
  - destruct (length rest <? length u); [apply IH|done].
  - apply Forall_forall. intros h Hin.
    destruct (length rest <? length u) eqn:Hlt.
    + apply Nat.ltb_lt in Hlt.
      apply scan_hits in Hin as [?%suffix_length _].
      unfold hit_before; simpl. lia.
    + destruct u as [|x u']; [by apply elem_of_nil in Hin|].
      apply scan_hits in Hin as [?%suffix_length _].
      apply Nat.ltb_ge in Hlt. unfold hit_before; simpl in *. lia.
Qed.

(** Every position where the pattern matches is the start of a hit, unless
    it lies strictly inside one. *)
Lemma scan_complete fuel u v :
  length u < fuel → v `suffix_of` u → is_Some (Re.match_here false r v) →
  ∃ h, h ∈ Re.scan fuel r u ∧ (Re.hit_from h = v ∨ inside h v).
Proof.
  revert u. induction fuel as [|fuel IH]; intros u Hfuel Hv Hm; [lia|]. simpl.
  assert (v ≠ u → ∃ x u', u = x :: u' ∧ v `suffix_of` u') as Htail.
  { intros Hne. destruct u as [|x u'].
    - by apply suffix_nil_inv in Hv.
    - exists x, u'. split; [done|].
      destruct Hv as [[|y k] Hk]; simpl in Hk; [by subst v|].
      injection Hk as _ ->. by exists k. }
  destruct (Re.match_here false r u) as [[rest g]|] eqn:E.
  - destruct (decide (v = u)) as [->|Hne].
    { eexists. split; [apply list_elem_of_here|]. by left. }
    pose proof (match_here_suffix _ _ _ _ _ E) as Hrest.
    destruct (length rest <? length u) eqn:Hlt.
    + apply Nat.ltb_lt in Hlt.
      assert (v `suffix_of` rest ∨ length rest < length v) as [Hin|Hout].
      { destruct (suffix_weak_total _ _ _ Hv Hrest) as [?|Hout]; [by left|].
        destruct (decide (length rest = length v)) as [Heq|?].
        - left. apply suffix_length_eq in Hout; [by subst|lia].
        - right. apply suffix_length in Hout. lia. }
      * destruct (IH rest) as (h & ? & ?); [lia|done|done|].
        exists h. split; [by apply list_elem_of_further|done].
      * eexists. split; [apply list_elem_of_here|]. right.
        unfold inside; simpl.
        assert (length v ≠ length u).
        { intros Heq. apply Hne. apply suffix_length_eq in Hv; [done|lia]. }
        apply suffix_length in Hv. lia.
    + destruct (Htail Hne) as (x & u' & -> & Hv').
      destruct (IH u') as (h & ? & ?); [simpl in Hfuel; lia|done|done|].
      exists h. split; [by apply list_elem_of_further|done].
  - destruct (decide (v = u)) as [->|Hne].
    { rewrite E in Hm. by destruct Hm. }
    destruct (Htail Hne) as (x & u' & -> & Hv').
    apply (IH u'); [simpl in Hfuel; lia|done|done].
Qed.

Lemma scan_nowhere u : matches_nowhere r u → Re.scan_all r u = [].
Proof.
  intros Hn. destruct (Re.scan_all r u) as [|h hs] eqn:E; [done|].
  assert (h ∈ Re.scan_all r u) as Hin by (rewrite E; apply list_elem_of_here).
  apply scan_hits in Hin as [Hs Hm]. by rewrite (Hn _ Hs) in Hm.
Qed.

End Scan.

(** * The dispatcher *)

Lemma registry_record (c : class) (domain text : string) :
  registry (record_of c domain text) = registry_of c.
Proof. unfold registry. by rewrite record_lookup_regex. Qed.

Lemma load_ok (domain text : string) (r : instance) :
  load domain text = Ok r →
  r = record_of (dispatch domain) domain text
  ∧ Py.strip text ≠ global_sentinel ∧ ¬ not_found (dispatch domain) text.
Proof.
  rewrite load_spec. destruct (Py.eq _ _) eqn:E1; [done|].
  destruct (refuses _ _) eqn:E2; [done|]. intros [= <-]. split; [done|].
  split.
  - by apply eq_false.
  - rewrite <- refuses_not_found. by rewrite E2.
Qed.

Lemma load_raise (domain text : string) (e : exn) :
  load domain text = Raise e →
  e = PywhoisError text
  ∧ (Py.strip text = global_sentinel ∨ not_found (dispatch domain) text).
Proof.
  rewrite load_spec. destruct (Py.eq _ _) eqn:E1.
  - intros [= <-]. split; [done|]. left. by apply eq_true.
  - destruct (refuses _ _) eqn:E2; [|done]. intros [= <-]. split; [done|].
    right. by apply refuses_not_found.
Qed.

Lemma load_raises_iff (domain text : string) :
  load domain text = Raise (PywhoisError text)
  ↔ Py.strip text = global_sentinel ∨ not_found (dispatch domain) text.
Proof.
  rewrite load_spec, <- refuses_not_found, <- eq_true, <- orb_true_iff.
  by destruct (_ || _).
Qed.

(** C1. [load(domain, raw_text)] fails with the error that carries the raw
    text exactly when the trimmed text is the global sentinel or the rule of
    the selected class holds of the text; it fails with no other error; it
    returns a record exactly when it does not fail, so no record comes with
    the error; and [load("example.com", 'No match for "EXAMPLE.COM"')] fails
    in this way. *)
Theorem load_fails_iff_not_found (domain text : string) :
  (load domain text = Raise (PywhoisError text)
     ↔ Py.strip text = global_sentinel ∨ not_found (dispatch domain) text)
  ∧ (∀ e, load domain text = Raise e → e = PywhoisError text)
  ∧ ((∃ r, load domain text = Ok r)
     ↔ ¬ (Py.strip text = global_sentinel ∨ not_found (dispatch domain) text))
  ∧ load "example.com" no_match_for_example_com
    = Raise (PywhoisError no_match_for_example_com)
  ∧ dispatch "example.com" = WhoisCom
  ∧ rule_of WhoisCom = Some (Contains ("No match for " +:+ Py.dquote)).
Proof.
  assert (Py.strip text = global_sentinel ∨ not_found (dispatch domain) text
          ↔ Py.eq (Py.strip text) global_sentinel || refuses (dispatch domain) text = true)
    as Hcond.
  { by rewrite orb_true_iff, eq_true, refuses_not_found. }
  split; [|split; [|split]].
  - rewrite Hcond, load_spec. by destruct (_ || _).
  - by intros e [? _]%load_raise.
  - rewrite Hcond, load_spec. destruct (_ || _); split; try done.
    + by intros [r ?].
    + eauto.
  - repeat split; vm_compute; reflexivity.
Qed.

Lemma dedicated_differs (e : string * nat * class) :
  e ∈ suffix_table →
  e.2 ≠ WhoisEntry
  ∧ (registry_of e.2, rule_of e.2) ≠ (registry_of WhoisEntry, rule_of WhoisEntry).
Proof.
  intros He.
  assert (e.2 ≠ WhoisEntry) as Hne.
  { revert e He. apply Forall_forall. by apply (bool_decide_unpack _). }
  split; [done|].
  intros [= Hreg Hrule]. destruct e as [[suffix n] c]. simpl in *.
  destruct c; try discriminate Hrule; try done;
    apply (f_equal (.!! "domain_name")) in Hreg; vm_compute in Hreg;
    discriminate Hreg.
Qed.

(** C4. A domain that ends with a supported suffix is dispatched to the
    class of that suffix, which is not the default class and differs from it
    in its pattern table or in its rule; [load] then either refuses the text
    or returns a record of that class bound to its table.  A domain that ends
    with no supported suffix gets a record of the default class with the
    generic table.  The suffixes are those of the list, [example.cz] gets the
    [.cz] patterns, and [.com], [.info] and [.name] are not taken for [.co],
    [.fi] or any shorter suffix. *)
Theorem dispatch_selects_dedicated_registry (domain text : string) :
  (∀ suffix n c, (suffix, n, c) ∈ suffix_table → ends_with suffix domain →
     dispatch domain = c ∧ c ≠ WhoisEntry
     ∧ (registry_of c, rule_of c) ≠ (registry_of WhoisEntry, rule_of WhoisEntry)
     ∧ (load domain text = Raise (PywhoisError text)
        ∨ (load domain text = Ok (record_of c domain text)
           ∧ ob_type (record_of c domain text) = c
           ∧ registry (record_of c domain text) = registry_of c)))
  ∧ ((∀ suffix, suffix ∈ supported_suffixes → ¬ ends_with suffix domain) →
     dispatch domain = WhoisEntry
     ∧ (Py.strip text ≠ global_sentinel →
        load domain text = Ok (record_of WhoisEntry domain text)
        ∧ registry (record_of WhoisEntry domain text) = WhoisEntry._regex))
  ∧ supported_suffixes =
      [".com"; ".net"; ".org"; ".au"; ".biz"; ".ca"; ".cn"; ".co"; ".cz"; ".de";
       ".dk"; ".fi"; ".fm"; ".fr"; ".il"; ".info"; ".jp"; ".kr"; ".me"; ".name";
       ".no"; ".nu"; ".pl"; ".tk"; ".tw"; ".ru"; ".sk"; ".su"; ".ua"; ".uk"; ".us"]
  ∧ load "example.cz" "..." = Ok (record_of WhoisCz "example.cz" "...")
  ∧ registry (record_of WhoisCz "example.cz" "...") = WhoisCz_regex
  ∧ WhoisCz_regex ≠ WhoisEntry._regex
  ∧ dispatch "example.com" = WhoisCom ∧ dispatch "example.co" = WhoisCo
  ∧ dispatch "example.info" = WhoisInfo ∧ dispatch "example.fi" = WhoisFi
  ∧ dispatch "example.name" = WhoisName ∧ dispatch "example.me" = WhoisMe.
Proof.
  split; [|split; [|split]].
  - intros suffix n c He Hd.
    pose proof (dispatch_entry _ _ He Hd) as Hc. simpl in Hc.
    destruct (dedicated_differs _ He) as [? ?].
    repeat split; try done.
    rewrite load_spec, Hc. destruct (_ || _); [by left|right].
    by rewrite registry_record.
  - intros Hnone. pose proof (dispatch_default _ Hnone) as Hc.
    split; [done|]. intros Hs%eq_false.
    rewrite load_spec, Hc, Hs. split; [done|]. apply registry_record.
  - reflexivity.
  - split; [by rewrite load_spec|]. split; [apply registry_record|]. split.
    + intros H. apply (f_equal (.!! "domain_name")) in H. vm_compute in H.
      discriminate H.
    + repeat split; vm_compute; reflexivity.
Qed.

(** C4, at [example.cz]: the hypotheses of the two directions are met by
    [example.cz] and by [localhost]. *)
Lemma dispatch_selects_dedicated_registry_witness :
  dispatch "example.cz" = WhoisCz ∧ dispatch "localhost" = WhoisEntry.
Proof.
  split.
  - apply (proj1 (dispatch_selects_dedicated_registry "example.cz" "...") ".cz" 3 WhoisCz).
    + apply (bool_decide_unpack _). vm_compute. exact I.
    + by exists "example".
  - apply (proj1 (proj2 (dispatch_selects_dedicated_registry "localhost" "..."))).
    intros suffix Hs Hd. apply ends_with_suffix in Hd.
    revert suffix Hs Hd.
    apply (proj1 (Forall_forall
             (fun s : string => ¬ Py.chars s `suffix_of` Py.chars "localhost")
             supported_suffixes)).
    apply (bool_decide_unpack _). vm_compute. exact I.
Defined.

(** C8. The classes without a rule are [WhoisCa], [WhoisFm] and the default
    class.  Whatever the text says, [load] on a domain dispatched to one of
    them returns the record, unless the trimmed text is the global sentinel;
    [.ca] and [.fm] domains and domains of no supported suffix are dispatched
    to these classes. *)
Theorem load_without_rule_succeeds :
  (∀ c, rule_of c = None ↔ c ∈ [WhoisCa; WhoisFm; WhoisEntry])
  ∧ (∀ domain text,
       rule_of (dispatch domain) = None → Py.strip text ≠ global_sentinel →
       load domain text = Ok (record_of (dispatch domain) domain text)
       ∧ ∀ e, load domain text ≠ Raise e)
  ∧ (∀ domain, ends_with ".ca" domain → dispatch domain = WhoisCa)
  ∧ (∀ domain, ends_with ".fm" domain → dispatch domain = WhoisFm)
  ∧ (∀ domain, (∀ suffix, suffix ∈ supported_suffixes → ¬ ends_with suffix domain) →
               dispatch domain = WhoisEntry).
Proof.
  split; [|split; [|split; [|split]]].
  - intros c. rewrite !elem_of_cons, elem_of_nil.
    destruct c; simpl; split; intros H; try done; try tauto;
      by destruct H as [?|[?|[?|?]]].
  - intros domain text Hrule Hs%eq_false.
    rewrite load_spec, Hs. unfold refuses. rewrite Hrule. by split.
  - intros domain. apply (dispatch_entry (".ca", 3, WhoisCa)).
    apply (bool_decide_unpack _). vm_compute. exact I.
  - intros domain. apply (dispatch_entry (".fm", 3, WhoisFm)).
    apply (bool_decide_unpack _). vm_compute. exact I.
  - apply dispatch_default.
Qed.

(** C8, at [example.ca] with a text full of other registries' sentinels. *)
Lemma load_without_rule_succeeds_witness :
  load "example.ca" "NOT FOUND No entries found Error"
  = Ok (record_of WhoisCa "example.ca" "NOT FOUND No entries found Error").
Proof.
  apply (proj1 (proj2 load_without_rule_succeeds)
           "example.ca" "NOT FOUND No entries found Error").
  - vm_compute. reflexivity.
  - vm_compute. discriminate.
Defined.

(** C10. On a [.de] domain [load] refuses every text in which "Error" or
    "Status: free" occurs anywhere, a complete answer that merely names a
    holder called "Error ..." included. *)
Theorem de_refuses_error_anywhere (domain text : string) :
  ends_with ".de" domain →
  occurs_in "Error" text ∨ occurs_in "Status: free" text →
  load domain text = Raise (PywhoisError text).
Proof.
  intros Hd Hocc.
  assert (dispatch domain = WhoisDe) as Hc.
  { apply (dispatch_entry (".de", 3, WhoisDe)); [|done].
    apply (bool_decide_unpack _). vm_compute. exact I. }
  rewrite load_spec, Hc.
  assert (refuses WhoisDe text = true) as ->.
  { apply refuses_not_found. unfold not_found. simpl. tauto. }
  by rewrite orb_true_r.
Qed.

(** C10, at a complete answer for [example.de] whose holder is
    "Error Analysis GmbH". *)
Lemma de_refuses_error_anywhere_witness :
  load "example.de" example_de_text = Raise (PywhoisError example_de_text).
Proof.
  apply (de_refuses_error_anywhere "example.de" example_de_text).
  - by exists "example".
  - left. apply contains_occurs. vm_compute. reflexivity.
Defined.

(** ** Shared class bodies *)

Lemma attrs_record (c : class) (domain text : string) (w : world) :
  record_state c domain text (self w) →
  attrs w = (Ok (sorted ((map_to_list (registry_of c)).*1)), w).
Proof.
  intros Hs. unfold attrs, mbind, M_bind, bind, getattr.
  by rewrite (state_regex c domain text w Hs).
Qed.

Lemma same_behaviour_classes (c1 c2 : class) (domain1 domain2 text : string) :
  rule_of c1 = rule_of c2 → registry_of c1 = registry_of c2 →
  dispatch domain1 = c1 → dispatch domain2 = c2 →
  (∀ e, load domain1 text = Raise e ↔ load domain2 text = Raise e)
  ∧ (∀ r1 r2, load domain1 text = Ok r1 → load domain2 text = Ok r2 →
       registry r1 = registry r2
       ∧ (attrs (start r1)).1 = (attrs (start r2)).1
       ∧ ∀ f, is_Some (registry r1 !! f) →
              (getattr f (start r1)).1 = (getattr f (start r2)).1).
Proof.
  intros Hrule Hreg H1 H2. split.
  - intros e. rewrite !load_spec, H1, H2. unfold refuses. rewrite Hrule.
    by destruct (_ || _).
  - intros r1 r2 [-> _]%load_ok [-> _]%load_ok. rewrite H1, H2.
    rewrite !registry_record.
    pose proof (record_state_new c1 domain1 text) as S1.
    pose proof (record_state_new c2 domain2 text) as S2.
    split; [done|]. split.
    + rewrite (attrs_record c1 domain1 text), (attrs_record c2 domain2 text) by done.
      simpl. by rewrite Hreg.
    + intros f [pat Hf].
      destruct (getattr_field c1 domain1 text (start _) f pat S1 Hf)
        as (found1 & Hf1 & [[_ ->]|[_ ->]]);
      rewrite Hreg in Hf;
      destruct (getattr_field c2 domain2 text (start _) f pat S2 Hf)
        as (found2 & Hf2 & [[_ ->]|[_ ->]]); simpl; congruence.
Qed.

(** C9. [.info] behaves like [.org], [.co] like [.biz] and [.su] like [.ru]:
    for domains of the two suffixes and one text, [load] fails for both or
    for neither, with the same error, and the records it returns have the
    same pattern table, the same list of field names and the same value for
    every field. *)
Theorem shared_suffixes_behave_alike :
  same_behaviour ".info" ".org" ∧ same_behaviour ".co" ".biz"
  ∧ same_behaviour ".su" ".ru".
Proof.
  assert (∀ e, bool_decide (e ∈ suffix_table) = true → e ∈ suffix_table) as Hin.
  { intros e. apply bool_decide_eq_true. }
  split; [|split]; intros domain1 domain2 text Hd1 Hd2.
  - apply (same_behaviour_classes WhoisInfo WhoisOrg); try done.
    + by apply (dispatch_entry (".info", 5, WhoisInfo)); [apply Hin|].
    + by apply (dispatch_entry (".org", 4, WhoisOrg)); [apply Hin|].
  - apply (same_behaviour_classes WhoisCo WhoisBiz); try done.
    + by apply (dispatch_entry (".co", 3, WhoisCo)); [apply Hin|].
    + by apply (dispatch_entry (".biz", 4, WhoisBiz)); [apply Hin|].
  - apply (same_behaviour_classes WhoisSu WhoisRu); try done.
    + by apply (dispatch_entry (".su", 3, WhoisSu)); [apply Hin|].
    + by apply (dispatch_entry (".ru", 3, WhoisRu)); [apply Hin|].
Qed.

(** C9, at [example.info] and [example.org] with a text that both accept
    and at the field [domain_name]. *)
Lemma shared_suffixes_behave_alike_witness :
  (getattr "domain_name" (start (record_of WhoisInfo "example.info" example_org_text))).1
  = (getattr "domain_name" (start (record_of WhoisOrg "example.org" example_org_text))).1.
Proof.
  refine (proj2 (proj2 (proj2 (proj1 shared_suffixes_behave_alike
            "example.info" "example.org" example_org_text _ _) _ _ _ _)) "domain_name" _).
  - by exists "example".
  - by exists "example".
  - vm_compute. reflexivity.
  - vm_compute. reflexivity.
  - rewrite registry_record. vm_compute. eauto.
Defined.

(** C5. [load("example.org", "NOT FOUND")] fails with the error carrying the
    text.  On a [.org] domain [load] fails exactly when the trimmed text is
    "NOT FOUND" (or the global sentinel): blanks around it do not matter,
    another case or a further character do.  On the text that starts with
    the line [Domain Name: EXAMPLE.ORG], [load] succeeds and [domain_name]
    is the list of the one captured name, not of the line. *)
Theorem org_not_found_and_domain_name :
  load "example.org" "NOT FOUND" = Raise (PywhoisError "NOT FOUND")
  ∧ (∀ domain text, ends_with ".org" domain →
       (load domain text = Raise (PywhoisError text)
        ↔ Py.strip text = "NOT FOUND" ∨ Py.strip text = global_sentinel))
  ∧ (∀ a b, blank a → blank b →
       load "example.org" (a +:+ "NOT FOUND" +:+ b)
       = Raise (PywhoisError (a +:+ "NOT FOUND" +:+ b)))
  ∧ (∃ r, load "example.org" "not found" = Ok r)
  ∧ (∃ r, load "example.org" "NOT FOUND." = Ok r)
  ∧ (∃ r w, load "example.org" example_org_text = Ok r
            ∧ getattr "domain_name" (start r) = (Ok (VList [EStr "EXAMPLE.ORG"]), w))
  ∧ Re.findall "Domain Name:\s*(.+)" example_org_text = Some [EStr "EXAMPLE.ORG"]
  ∧ registry_of WhoisOrg !! "domain_name" = Some "Domain Name:\s*(.+)".
Proof.
  assert (∀ domain text, ends_with ".org" domain →
            (load domain text = Raise (PywhoisError text)
             ↔ Py.strip text = "NOT FOUND" ∨ Py.strip text = global_sentinel)) as Horg.
  { intros domain text Hd.
    assert (dispatch domain = WhoisOrg) as Hc.
    { apply (dispatch_entry (".org", 4, WhoisOrg)); [|done].
      apply (bool_decide_unpack _). vm_compute. exact I. }
    rewrite load_raises_iff.
    rewrite Hc. unfold not_found. simpl. tauto. }
  split; [by rewrite load_spec|]. split; [done|].
  split.
  { intros a b Ha Hb. apply Horg; [by exists "example"|].
    left. by rewrite strip_blank. }
  split; [rewrite load_spec; eauto|].
  split; [rewrite load_spec; eauto|].
  split; [|split; vm_compute; reflexivity].
  exists (record_of WhoisOrg "example.org" example_org_text). eexists.
  split; [by rewrite load_spec|].
  destruct (getattr_field WhoisOrg "example.org" example_org_text
              (start (record_of WhoisOrg "example.org" example_org_text))
              "domain_name" "Domain Name:\s*(.+)")
    as (found & Hfound & [[Hd _]|[_ ->]]).
  - apply record_state_new.
  - vm_compute. reflexivity.
  - vm_compute in Hd. discriminate Hd.
  - vm_compute in Hfound. injection Hfound as <-. reflexivity.
Qed.

(** C5, at [example.org] for the rule of [.org]. *)
Lemma org_not_found_and_domain_name_witness :
  load "example.org" ("  NOT FOUND " +:+ Py.lf)
  = Raise (PywhoisError ("  NOT FOUND " +:+ Py.lf)).
Proof.
  apply (proj1 (proj2 org_not_found_and_domain_name)).
  - by exists "example".
  - left. vm_compute. reflexivity.
Defined.

(** * Lazy field access *)

Lemma loaded_registry (domain text : string) (w : world) :
  loaded domain text w → registry (self w) = registry_of (dispatch domain).
Proof.
  intros Hs%loaded_state. unfold registry.
  pose proof (state_regex _ _ _ w Hs 0) as H. simpl in H.
  destruct (lookup (self w) "_regex") as [v|]; [by injection H as ->|done].
Qed.

Lemma loaded_start (domain text : string) (r : instance) :
  load domain text = Ok r → loaded domain text (start r).
Proof. intros H. exists r. split; [done|constructor]. Qed.

(** Every class is the class of some domain, so the records of [load] range
    over every pattern table. *)
Lemma every_class_dispatched (c : class) : ∃ domain, dispatch domain = c.
Proof.
  destruct c;
    [exists "localhost"; by vm_compute
    |match goal with
     | |- ∃ _, _ = ?c =>
         let e := eval vm_compute in
           (List.find (fun e : string * nat * class => bool_decide (e.2 = c)) suffix_table) in
         match e with
         | Some (?s, _, _) => exists ("example" +:+ s); by vm_compute
         end
     end..].
Qed.

(** C2. On a record that [load] returned, the first access to a field of
    its table computes the list with [re.findall] on the field's pattern and
    the raw text, makes that one call, and stores the list on the record; any
    access to the field after that, whatever was accessed in between, returns
    the same list and leaves the record and the trace of calls to
    [re.findall] as they were. *)
Theorem getattr_memoized (domain text : string) (r : instance) (f pat : string) :
  load domain text = Ok r → registry r !! f = Some pat →
  ∃ found w1,
    Re.findall pat text = Some found
    ∧ getattr f (start r) = (Ok (VList found), w1)
    ∧ findall_calls w1 = [(pat, text)]
    ∧ ob_dict (self w1) !! f = Some (VList found)
    ∧ ∀ w, later w1 w → getattr f w = (Ok (VList found), w).
Proof.
  intros Hload Hf.
  pose proof (loaded_start _ _ _ Hload) as Hl.
  pose proof (loaded_state _ _ _ Hl) as Hs.
  pose proof (loaded_registry _ _ _ Hl) as Hr. cbn [start self] in Hr.
  rewrite Hr in Hf. clear Hr.
  destruct (load_ok _ _ _ Hload) as (-> & _).
  destruct (getattr_field _ _ _ _ f pat Hs Hf) as (found & Hfound & [[Hd _]|[_ Hg]]).
  { cbn [start self] in Hd. rewrite record_dict_other in Hd; [done|].
    by destruct (field_ok _ _ _ Hf) as (_ & _ & [? _]%resolves_false). }
  exists found, (store f pat text found (start (record_of (dispatch domain) domain text))).
  assert (record_state (dispatch domain) domain text
            (self (store f pat text found (start (record_of (dispatch domain) domain text)))))
    as Hs1 by (by apply record_state_store).
  repeat split; try done.
  - cbn [store self ob_dict]. by rewrite lookup_insert_eq.
  - intros w Hlater.
    pose proof (later_state _ _ _ _ _ Hs1 Hlater) as Hsw.
    assert (ob_dict (self w) !! f = Some (VList found)) as Hkept.
    { eapply later_keeps; [exact Hs1|done|].
      cbn [store self ob_dict]. by rewrite lookup_insert_eq. }
    destruct (getattr_field _ _ _ w f pat Hsw Hf) as (found' & _ & [[Hd' ->]|[Hd' _]]);
      congruence.
Qed.

(** C2, at [example.org] and the field [domain_name]. *)
Lemma getattr_memoized_witness :
  ∃ found w1,
    Re.findall "Domain Name:\s*(.+)" example_org_text = Some found
    ∧ getattr "domain_name" (start (record_of WhoisOrg "example.org" example_org_text))
      = (Ok (VList found), w1)
    ∧ findall_calls w1 = [("Domain Name:\s*(.+)", example_org_text)]
    ∧ ob_dict (self w1) !! "domain_name" = Some (VList found)
    ∧ ∀ w, later w1 w → getattr "domain_name" w = (Ok (VList found), w).
Proof.
  apply (getattr_memoized "example.org" example_org_text).
  - vm_compute. reflexivity.
  - vm_compute. reflexivity.
Defined.

Lemma nonexistent_field_unknown (c : class) (domain text : string) :
  registry_of c !! "nonexistent_field" = None
  ∧ lookup (record_of c domain text) "nonexistent_field" = None.
Proof. split; [destruct c; vm_compute; reflexivity|destruct c; eval_symbolic]. Qed.

(** The first reading of C3 fails on the attributes that the record holds
    anyway: on the record of [load("example.com", "x")] the name [text] is not
    in the table, and its access returns the raw text instead of failing. *)
Lemma text_is_absent_but_known :
  ¬ (∀ domain text r f, load domain text = Ok r →
       (unknown_field (getattr f (start r)).1 ↔ registry r !! f = None)).
Proof.
  intros H.
  destruct (H "example.com" "x" (record_of WhoisCom "example.com" "x") "text") as [_ Hk].
  - vm_compute. reflexivity.
  - destruct Hk as [msg Hmsg]; [vm_compute; reflexivity|].
    vm_compute in Hmsg. discriminate Hmsg.
Qed.

(** C3, amended. On a record that [load] returned, in any later state,
    access to a name fails with the [KeyError] of the hook exactly when the
    name is absent from the table and ordinary lookup on the record does not
    find it either; [nonexistent_field] fails in this way for every class; a
    name of the table always yields a list, the empty list when its pattern
    matches at no position of the raw text. *)
Theorem getattr_unknown_field_iff (domain text : string) (w : world) (f : string) :
  loaded domain text w →
  (unknown_field (getattr f w).1
     ↔ registry (self w) !! f = None ∧ lookup (self w) f = None)
  ∧ (getattr "nonexistent_field" w).1
    = Raise (KeyError "Unknown attribute: nonexistent_field")
  ∧ (∀ pat, registry (self w) !! f = Some pat →
       ∃ found, (getattr f w).1 = Ok (VList found))
  ∧ (∀ pat pt, registry (self w) !! f = Some pat → Re.compile pat = Some pt →
       matches_nowhere (Re.pat_regex pt) (Py.chars text) →
       (getattr f w).1 = Ok (VList [])).
Proof.
  intros Hl. pose proof (loaded_state _ _ _ Hl) as Hs.
  rewrite (loaded_registry _ _ _ Hl).
  set (c := dispatch domain) in *.
  split; [|split; [|split]].
  - destruct (registry_of c !! f) as [pat|] eqn:Hf.
    + destruct (getattr_field _ _ _ _ f pat Hs Hf) as (found & _ & [[_ ->]|[_ ->]]);
        (split; [by intros [msg ?]|by intros [? _]]).
    + rewrite (getattr_other _ _ _ _ f Hs Hf).
      rewrite <- (state_lookup_other _ _ _ _ f Hs Hf).
      destruct (lookup (self w) f) as [v|]; split.
      * by intros [msg ?].
      * by intros [_ ?].
      * done.
      * intros _. by eexists.
  - destruct (nonexistent_field_unknown c domain text) as [Hr Hk].
    by rewrite (getattr_other _ _ _ _ _ Hs Hr), Hk.
  - intros pat Hf.
    destruct (getattr_field _ _ _ _ f pat Hs Hf) as (found & _ & [[_ ->]|[_ ->]]); eauto.
  - intros pat pt Hf Hpt Hnone.
    destruct (getattr_field _ _ _ _ f pat Hs Hf) as (found & Hfound & Hg).
    unfold Re.findall in Hfound. rewrite Hpt in Hfound. simpl in Hfound.
    rewrite (scan_nowhere _ _ Hnone) in Hfound. injection Hfound as <-.
    by destruct Hg as [[_ ->]|[_ ->]].
Qed.

(** C3 amended, at [example.com] and the names [text] and [registrar]. *)
Lemma getattr_unknown_field_iff_witness :
  (unknown_field (getattr "text" (start (record_of WhoisCom "example.com" "x"))).1
     ↔ registry (self (start (record_of WhoisCom "example.com" "x"))) !! "text" = None
       ∧ lookup (self (start (record_of WhoisCom "example.com" "x"))) "text" = None).
Proof.
  apply (getattr_unknown_field_iff "example.com" "x").
  exists (record_of WhoisCom "example.com" "x"). split.
  - vm_compute. reflexivity.
  - constructor.
Defined.

(** C7. On a record of the default class whose text has the three
    [Name Server:] lines, [name_servers] is the list of the three host
    names in the order of the lines.  In general the value of a field is the
    list of the matches that a scan of the whole raw text finds: every hit
    is a match of the field's pattern at a position of the text, the hits
    come from left to right without overlap, and a position where the
    pattern matches is the start of a hit unless it lies inside one. *)
Theorem getattr_collects_matches_in_order :
  (∃ w, load "example.xyz" three_name_servers
        = Ok (record_of WhoisEntry "example.xyz" three_name_servers)
        ∧ getattr "name_servers" (start (record_of WhoisEntry "example.xyz" three_name_servers))
          = (Ok (VList [EStr "ns1.x"; EStr "ns2.x"; EStr "ns3.x"]), w))
  ∧ ∀ domain text r f pat,
      load domain text = Ok r → registry r !! f = Some pat →
      ∃ pt, Re.compile pat = Some pt ∧
        let hits := Re.scan_all (Re.pat_regex pt) (Py.chars text) in
        (getattr f (start r)).1 = Ok (VList (Re.elem_of_hit (Re.pat_groups pt) <$> hits))
        ∧ (∀ h, h ∈ hits →
             Re.hit_from h `suffix_of` Py.chars text
             ∧ Re.match_here false (Re.pat_regex pt) (Re.hit_from h)
               = Some (Re.hit_rest h, Re.hit_caps h))
        ∧ StronglySorted hit_before hits
        ∧ (∀ v, v `suffix_of` Py.chars text →
             is_Some (Re.match_here false (Re.pat_regex pt) v) →
             ∃ h, h ∈ hits ∧ (Re.hit_from h = v ∨ inside h v)).
Proof.
  split.
  - eexists. split; [by rewrite load_spec|].
    destruct (getattr_field WhoisEntry "example.xyz" three_name_servers
                (start (record_of WhoisEntry "example.xyz" three_name_servers))
                "name_servers" "Name Server:\s?(.+)")
      as (found & Hfound & [[Hd _]|[_ ->]]).
    + apply record_state_new.
    + vm_compute. reflexivity.
    + vm_compute in Hd. discriminate Hd.
    + vm_compute in Hfound. injection Hfound as <-. reflexivity.
  - intros domain text r f pat Hload Hf.
    pose proof (loaded_start _ _ _ Hload) as Hl.
    pose proof (loaded_state _ _ _ Hl) as Hs.
    pose proof (loaded_registry _ _ _ Hl) as Hr. cbn [start self] in Hr.
    rewrite Hr in Hf. clear Hr.
    destruct (field_ok _ _ _ Hf) as (_ & [pt Hpt] & _).
    exists pt. split; [done|]. cbv zeta.
    split; [|split; [|split]].
    + destruct (getattr_field _ _ _ _ f pat Hs Hf) as (found & Hfound & Hg).
      unfold Re.findall in Hfound. rewrite Hpt in Hfound. simpl in Hfound.
      injection Hfound as <-. by destruct Hg as [[_ ->]|[_ ->]].
    + intros h. apply scan_hits.
    + apply scan_sorted.
    + intros v. apply scan_complete. lia.
Qed.

(** C7, at the three name servers. *)
Lemma getattr_collects_matches_in_order_witness :
  ∃ pt, Re.compile "Name Server:\s?(.+)" = Some pt ∧
    (getattr "name_servers"
       (start (record_of WhoisEntry "example.xyz" three_name_servers))).1
    = Ok (VList (Re.elem_of_hit (Re.pat_groups pt)
                   <$> Re.scan_all (Re.pat_regex pt) (Py.chars three_name_servers))).
Proof.
  destruct (proj2 getattr_collects_matches_in_order
              "example.xyz" three_name_servers
              (record_of WhoisEntry "example.xyz" three_name_servers)
              "name_servers" "Name Server:\s?(.+)")
    as (pt & Hpt & Hv & _).
  - vm_compute. reflexivity.
  - vm_compute. reflexivity.
  - exists pt. by split.
Defined.

(** * The date caster *)

Lemma strptime_value_error (tz : Time.tzinfo) (s format : string) (e : exn) :
  Time.strptime tz s format = Raise e → e = ValueError.
Proof.
  unfold Time.strptime.
  destruct (Time.format_regex _ _ _); [|congruence].
  destruct (Re.match_here _ _ _) as [[[|] ?]|]; [|congruence..].
  destruct (Time.toordinal _ _ _); [|congruence].
  destruct (Time.toordinal _ _ _); [done|congruence].
Qed.

Section CastDateLoop.
Context (tz : Time.tzinfo) (date_str : string).

Lemma cast_date_loop_total formats :
  ∃ o, cast_date_loop tz date_str formats = Ok o.
Proof.
  induction formats as [|format rest IH]; simpl; [eauto|].
  destruct (Time.strptime _ _ _) as [t|e] eqn:E; [eauto|].
  by apply strptime_value_error in E as ->.
Qed.

Lemma cast_date_loop_some formats t :
  cast_date_loop tz date_str formats = Ok (Some t)
  ↔ ∃ tried format rest, formats = tried ++ format :: rest
      ∧ Forall (rejected tz date_str) tried
      ∧ Time.strptime tz (Py.strip date_str) format = Ok t.
Proof.
  induction formats as [|format rest IH]; simpl.
  - split; [done|]. intros (tried & ? & ? & H & _). by destruct tried.
  - destruct (Time.strptime tz (Py.strip date_str) format) as [t'|e] eqn:E.
    + split.
      * intros [= ->]. by exists [], format, rest.
      * intros ([|f tried] & format' & rest' & H & Hrej & Hok); simpl in H.
        -- injection H as -> ->. congruence.
        -- injection H as -> ->. apply Forall_cons in Hrej as [Hrej _].
           unfold rejected in Hrej. congruence.
    + pose proof (strptime_value_error _ _ _ _ E) as ->. rewrite IH. split.
      * intros (tried & format' & rest' & -> & Hrej & Hok).
        exists (format :: tried), format', rest'. split; [done|].
        split; [|done]. by apply Forall_cons.
      * intros ([|f tried] & format' & rest' & H & Hrej & Hok); simpl in H.
        -- injection H as -> ->. congruence.
        -- injection H as -> ->. apply Forall_cons in Hrej as [_ Hrej].
           by exists tried, format', rest'.
Qed.

Lemma cast_date_loop_none formats :
  cast_date_loop tz date_str formats = Ok None ↔ Forall (rejected tz date_str) formats.
Proof.
  induction formats as [|format rest IH]; simpl.
  - split; [constructor|done].
  - rewrite Forall_cons. unfold rejected at 1.
    destruct (Time.strptime tz (Py.strip date_str) format) as [t'|e] eqn:E.
    + split; [done|]. by intros [? _].
    + pose proof (strptime_value_error _ _ _ _ E) as ->. rewrite IH. tauto.
Qed.

End CastDateLoop.

(** C6. [cast_date] always returns, never raises.  It returns a time exactly
    when some format of the list accepts the trimmed string while every
    format before it in the list rejects it, and the time is the one that
    this first format yields; it returns [None] exactly when every format
    rejects the trimmed string.  Blanks around the string change nothing.
    The list is the one enumerated.  [05/06/2002] is the sixth of May because
    [%m/%d/%Y] comes before [%d/%m/%Y], which would have made it the fifth
    of June; [20020702] is 2002-07-02; [not-a-date] gives [None]. *)
Theorem cast_date_first_format (tz : Time.tzinfo) (date_str : string) :
  (∃ o, cast_date tz date_str = Ok o)
  ∧ (∀ t, cast_date tz date_str = Ok (Some t)
       ↔ ∃ tried format rest, known_formats = tried ++ format :: rest
           ∧ Forall (rejected tz date_str) tried
           ∧ Time.strptime tz (Py.strip date_str) format = Ok t)
  ∧ (cast_date tz date_str = Ok None
       ↔ Forall (rejected tz date_str) known_formats)
  ∧ (∀ a b, blank a → blank b →
       cast_date tz (a +:+ date_str +:+ b) = cast_date tz date_str)
  ∧ known_formats =
      ["%d-%b-%Y"; "%Y-%m-%d"; "%Y.%m.%d %H:%M:%S"; "%Y.%m.%d"; "%Y-%b-%d";
       "%d.%m.%Y %H:%M:%S"; "%d.%m.%Y"; "%d-%b-%Y %H:%M:%S %Z"; "%Y-%m-%d %H:%M";
       "%a %b %d %H:%M:%S %Z %Y"; "%d %b %Y %H:%M %Z"; "%Y-%m-%dT%H:%M:%S";
       "%Y%m%d%H%M%S"; "%Y%m%d"; "%m/%d/%Y"; "%d/%m/%Y"; "%Y/%m/%d"; "%Y. %m. %d."]
  ∧ (∃ t, cast_date tz "20020702" = Ok (Some t)
          ∧ Time.tm_year t = 2002%Z ∧ Time.tm_mon t = 7%Z ∧ Time.tm_mday t = 2%Z)
  ∧ cast_date tz "not-a-date" = Ok None
  ∧ (∃ t t', cast_date tz "05/06/2002" = Ok (Some t)
             ∧ Time.tm_mon t = 5%Z ∧ Time.tm_mday t = 6%Z
             ∧ Time.strptime tz "05/06/2002" "%d/%m/%Y" = Ok t'
             ∧ Time.tm_mon t' = 6%Z ∧ Time.tm_mday t' = 5%Z).
Proof.
  split; [apply cast_date_loop_total|].
  split; [intros t; apply cast_date_loop_some|].
  split; [apply cast_date_loop_none|].
  split.
  { intros a b Ha Hb. unfold cast_date.
    generalize known_formats. intros formats.
    induction formats as [|format rest IH]; simpl; [done|].
    by rewrite strip_blank, IH. }
  split; [reflexivity|].
  split; [eexists; split; [vm_compute; reflexivity|by vm_compute]|].
  split; [vm_compute; reflexivity|].
  eexists _, _. split; [vm_compute; reflexivity|].
  split; [by vm_compute|]. split; [by vm_compute|].
  split; [vm_compute; reflexivity|]. by vm_compute.
Qed.

(** C6, at a string with blanks around a date. *)
Lemma cast_date_first_format_witness :
  cast_date {| Time.tzname := ("UTC", "UTC"); Time.daylight := false |}
            ("  " +:+ "20020702" +:+ Py.lf)
  = cast_date {| Time.tzname := ("UTC", "UTC"); Time.daylight := false |} "20020702".
Proof.
  apply (proj1 (proj2 (proj2 (proj2 (cast_date_first_format _ "20020702"))))).
  - unfold blank. vm_compute. repeat constructor.
  - unfold blank. vm_compute. repeat constructor.
Defined.


(** * Further properties of parser.py *)

(** ** Field access, made explicit *)

Lemma loaded_later (domain text : string) (w w' : world) :
  loaded domain text w → later w w' → loaded domain text w'.
Proof.
  intros (r & Hload & Hl) Hl'. exists r. split; [done|].
  induction Hl' as [|w1 name v w2 _ IH Hg]; [done|]. by eapply later_get.
Qed.

Lemma field_value_findall (c : class) (text f pat : string) :
  registry_of c !! f = Some pat → Re.findall pat text = Some (field_value c text f).
Proof.
  intros Hf. unfold field_value. rewrite Hf.
  destruct (field_ok c f pat Hf) as (_ & Hc & _).
  by destruct (findall_compiles pat text Hc) as [found ->].
Qed.

(** Access to a field of the table, as a function of the world. *)
Lemma getattr_field_eq (c : class) (domain text : string) (w : world) (f pat : string) :
  record_state c domain text (self w) → registry_of c !! f = Some pat →
  getattr f w =
  (Ok (VList (field_value c text f)),
   match ob_dict (self w) !! f with
   | Some _ => w
   | None => store f pat text (field_value c text f) w
   end).
Proof.
  intros Hs Hf. pose proof (field_value_findall c text f pat Hf) as Hv.
  destruct (getattr_field c domain text w f pat Hs Hf)
    as (found & Hfound & [[-> ->]|[-> ->]]); congruence.
Qed.

(** ** [attrs] *)

Lemma sorted_spec (l : list string) :
  StronglySorted String.le (sorted l) ∧ sorted l ≡ₚ l.
Proof.
  split; [apply StronglySorted_merge_sort; apply _|apply merge_sort_Permutation].
Qed.

(** X1. [attrs()] on a record returns the names of its pattern table, each
    once, in ascending string order, whatever has been accessed before, and
    changes nothing; every name it lists can be accessed and gives a list. *)
Theorem attrs_lists_fields (domain text : string) (w : world) :
  loaded domain text w →
  ∃ names,
    attrs w = (Ok names, w)
    ∧ StronglySorted String.le names ∧ NoDup names
    ∧ (∀ f, f ∈ names ↔ is_Some (registry (self w) !! f))
    ∧ (∀ f, f ∈ names → ∃ found, (getattr f w).1 = Ok (VList found)).
Proof.
  intros Hl. pose proof (loaded_state _ _ _ Hl) as Hs.
  rewrite (loaded_registry _ _ _ Hl). set (c := dispatch domain) in *.
  exists (sorted ((map_to_list (registry_of c)).*1)).
  destruct (sorted_spec ((map_to_list (registry_of c)).*1)) as [Hsorted Hperm].
  assert (∀ f, f ∈ sorted ((map_to_list (registry_of c)).*1)
               ↔ is_Some (registry_of c !! f)) as Hin.
  { intros f. rewrite Hperm, list_elem_of_fmap. split.
    - intros ([k v] & -> & H%elem_of_map_to_list). eauto.
    - intros [v H]. exists (f, v). split; [done|]. by apply elem_of_map_to_list. }
  split; [by apply (attrs_record c domain text)|]. split; [done|]. split.
  { rewrite Hperm. apply NoDup_fst_map_to_list. }
  split; [done|].
  intros f [pat Hf]%Hin. rewrite (getattr_field_eq c domain text w f pat Hs Hf). eauto.
Qed.

(** X1, at a [.cz] record: its five names. *)
Lemma attrs_lists_fields_witness :
  ∃ names, attrs (start (record_of WhoisCz "example.cz" "domain: a.cz")) =
           (Ok names, start (record_of WhoisCz "example.cz" "domain: a.cz"))
           ∧ names = ["creation_date"; "domain_name"; "expiration_date";
                      "name_servers"; "updated_date"].
Proof.
  destruct (attrs_lists_fields "example.cz" "domain: a.cz"
              (start (record_of WhoisCz "example.cz" "domain: a.cz")))
    as (names & Ha & _).
  - exists (record_of WhoisCz "example.cz" "domain: a.cz").
    split; [vm_compute; reflexivity|constructor].
  - exists names. split; [done|].
    vm_compute in Ha. by injection Ha as <-.
Defined.

(** ** What [load] stores *)

(** X2. The record that [load] returns keeps the domain and the raw text as
    they were passed: [domain] and [text] read them back unchanged, at any
    time, and reading them changes nothing. *)
Theorem record_keeps_domain_and_text (domain text : string) (w : world) :
  loaded domain text w →
  getattr "domain" w = (Ok (VStr domain), w)
  ∧ getattr "text" w = (Ok (VStr text), w).
Proof.
  intros Hs%loaded_state. set (c := dispatch domain) in *.
  assert (∀ f, (f = "domain" ∨ f = "text") → registry_of c !! f = None) as Hno.
  { intros f Hf. destruct (registry_of c !! f) as [pat|] eqn:E; [|done].
    destruct (field_ok c f pat E) as (_ & _ & [Hres _]%resolves_false).
    destruct Hres. destruct Hf as [-> | ->]; set_solver. }
  split.
  - rewrite (getattr_other c domain text w _ Hs) by (apply Hno; by left).
    by rewrite record_lookup_domain.
  - rewrite (getattr_other c domain text w _ Hs) by (apply Hno; by right).
    by rewrite record_lookup_text.
Qed.

(** X2, after an access to a field of an [.org] record. *)
Lemma record_keeps_domain_and_text_witness :
  ∃ w, later (start (record_of WhoisOrg "example.org" example_org_text)) w
       ∧ getattr "text" w = (Ok (VStr example_org_text), w).
Proof.
  eexists. split.
  - eapply later_get; [constructor|]. 
    instantiate (3 := "domain_name"). apply surjective_pairing.
  - apply (record_keeps_domain_and_text "example.org" example_org_text).
    exists (record_of WhoisOrg "example.org" example_org_text). split.
    + vm_compute. reflexivity.
    + eapply later_get; [constructor|]. apply surjective_pairing.
Defined.

(** ** Dispatch on the tail of the domain *)

Lemma last_chars_twice (n m : nat) (domain : string) :
  n ≤ m → Py.last_chars n (Py.last_chars m domain) = Py.last_chars n domain.
Proof.
  intros Hnm. unfold Py.last_chars. f_equal.
  rewrite chars_str, length_drop, drop_drop. f_equal. lia.
Qed.

Lemma last_chars_app (n : nat) (front tail : string) :
  n ≤ String.length tail → Py.last_chars n (front +:+ tail) = Py.last_chars n tail.
Proof.
  intros Hn. unfold Py.last_chars. f_equal. rewrite <- length_chars in Hn.
  rewrite chars_app, length_app.
  replace (length (Py.chars front) + length (Py.chars tail) - n)
    with (length (Py.chars front) + (length (Py.chars tail) - n)) by lia.
  by rewrite drop_app_add.
Qed.

(** X3. [load] looks at the last five characters of the domain only: the
    class it selects for a domain is the class of these characters alone, so
    labels in front of a tail of five or more characters never matter. *)
Theorem dispatch_reads_the_tail (domain : string) :
  dispatch domain = dispatch (Py.last_chars 5 domain)
  ∧ ∀ front, 5 ≤ String.length domain → dispatch (front +:+ domain) = dispatch domain.
Proof.
  assert (∀ d, dispatch d = dispatch (Py.last_chars 5 d)) as Htail.
  { intros d. unfold dispatch, suffix_table. cbn [List.find].
    unfold entry_matches. cbn [fst snd].
    by rewrite !(last_chars_twice _ 5) by lia. }
  split; [done|]. intros front Hlen.
  rewrite (Htail (front +:+ domain)), (Htail domain).
  rewrite last_chars_app by done. done.
Qed.

(** X3, at [www.example.co.uk]: it is dispatched like [co.uk], to
    [WhoisUk]. *)
Lemma dispatch_reads_the_tail_witness :
  dispatch ("www.example." +:+ "co.uk") = WhoisUk.
Proof.
  rewrite (proj2 (dispatch_reads_the_tail "co.uk") "www.example.").
  - vm_compute. reflexivity.
  - vm_compute. lia.
Defined.

Lemma ends_with_last (suffix domain : string) (c : ascii) :
  ends_with suffix domain → last (Py.chars suffix) = Some c →
  last (Py.chars domain) = Some c.
Proof.
  intros [front ->] Hc. rewrite chars_app, last_app. by rewrite Hc.
Qed.

Lemma suffixes_end_lowercase :
  Forall (fun e : string * nat * class =>
            ∃ c, last (Py.chars e.1.1) = Some c ∧ Py.islower c = true) suffix_table.
Proof.
  unfold suffix_table.
  repeat (apply Forall_cons_2; [eexists; split; vm_compute; reflexivity|]).
  apply Forall_nil_2.
Qed.

(** X4. The suffix tests of [load] compare characters as they are: a
    domain whose last character is not a lowercase letter (an upper-case
    name, a trailing dot, a trailing blank or line end, a digit) matches no
    suffix and gets the default class. *)
Theorem dispatch_is_case_sensitive (domain : string) (c : ascii) :
  last (Py.chars domain) = Some c → Py.islower c = false →
  dispatch domain = WhoisEntry.
Proof.
  intros Hlast Hc.
  destruct (dispatch_cases domain) as [(e & He & Hd & _)|[_ ?]]; [|done].
  pose proof suffixes_end_lowercase as Hlow. rewrite Forall_forall in Hlow.
  destruct (Hlow e He) as (c' & Hc' & Hl').
  pose proof (ends_with_last _ _ _ Hd Hc') as Hlast'.
  assert (c' = c) as -> by congruence. congruence.
Qed.

(** X4, at [EXAMPLE.COM] and at [example.com.] with the root dot. *)
Lemma dispatch_is_case_sensitive_witness :
  dispatch "EXAMPLE.COM" = WhoisEntry ∧ dispatch "example.com." = WhoisEntry.
Proof.
  split.
  - apply (dispatch_is_case_sensitive "EXAMPLE.COM" "M"); vm_compute; reflexivity.
  - apply (dispatch_is_case_sensitive "example.com." "."); vm_compute; reflexivity.
Defined.

(** ** Tables do not inherit *)

Lemma generic_fields_unresolved (c : class) (f : string) :
  is_Some (WhoisEntry._regex !! f) → resolves c f = false.
Proof.
  intros [pat H%elem_of_map_to_list]. revert H.
  change (resolves c f = false) with
    ((fun kv : string * string => resolves c kv.1 = false) (f, pat)).
  generalize (f, pat). apply Forall_forall.
  destruct c; apply (bool_decide_unpack _); vm_compute; exact I.
Qed.

(** X5. A class with a table of its own does not fall back on the generic
    table: on a record of [load], a field of the generic table that the
    table of the record lacks is an unknown attribute, and asking for it
    changes nothing. *)
Theorem generic_fields_are_not_inherited (domain text : string) (w : world) (f : string) :
  loaded domain text w →
  is_Some (WhoisEntry._regex !! f) → registry (self w) !! f = None →
  getattr f w = (Raise (KeyError ("Unknown attribute: " +:+ f)), w).
Proof.
  intros Hl Hgen Hf. pose proof (loaded_state _ _ _ Hl) as Hs.
  rewrite (loaded_registry _ _ _ Hl) in Hf.
  rewrite (getattr_other _ _ _ w f Hs Hf).
  destruct (resolves_false _ _ (generic_fields_unresolved (dispatch domain) f Hgen))
    as [Hres Hty].
  unfold lookup. rewrite record_dict_other by done.
  cbn [ob_type record_of]. by rewrite Hty.
Qed.

(** X5, at [registrar] on a [.cz] record. *)
Lemma generic_fields_are_not_inherited_witness :
  getattr "registrar" (start (record_of WhoisCz "example.cz" "registrar: x"))
  = (Raise (KeyError "Unknown attribute: registrar"),
     start (record_of WhoisCz "example.cz" "registrar: x")).
Proof.
  apply (generic_fields_are_not_inherited "example.cz" "registrar: x").
  - exists (record_of WhoisCz "example.cz" "registrar: x").
    split; [vm_compute; reflexivity|constructor].
  - vm_compute. eauto.
  - vm_compute. reflexivity.
Defined.

(** ** Field values are lists of strings *)

Lemma single_group_all (c : class) : single_group c = true.
Proof. destruct c; vm_compute; reflexivity. Qed.

Lemma field_single_group (c : class) (f pat : string) (pt : Re.pattern) :
  registry_of c !! f = Some pat → Re.compile pat = Some pt → Re.pat_groups pt ≤ 1.
Proof.
  intros Hf Hpt. pose proof (single_group_all c) as A. unfold single_group in A.
  rewrite forallb_forall in A. specialize (A (f, pat)). simpl in A.
  rewrite Hpt in A. apply Nat.leb_le, A.
  apply list_elem_of_In. by apply elem_of_map_to_list.
Qed.

(** X6. No pattern of any table has more than one group, so the value of a
    field on a record of [load] is always a list of plain strings, never of
    tuples. *)
Theorem field_values_are_strings (domain text : string) (w : world) (f pat : string) :
  loaded domain text w → registry (self w) !! f = Some pat →
  ∃ found, (getattr f w).1 = Ok (VList found) ∧ Forall is_string found.
Proof.
  intros Hl Hf. pose proof (loaded_state _ _ _ Hl) as Hs.
  rewrite (loaded_registry _ _ _ Hl) in Hf.
  rewrite (getattr_field_eq _ _ _ w f pat Hs Hf). eexists. split; [done|].
  pose proof (field_value_findall _ text _ _ Hf) as Hv.
  unfold Re.findall in Hv.
  destruct (Re.compile pat) as [pt|] eqn:Hpt; [|done]. simpl in Hv.
  injection Hv as <-. apply Forall_fmap, Forall_true. intros h. simpl.
  pose proof (field_single_group _ _ _ _ Hf Hpt) as Hg.
  unfold Re.elem_of_hit. destruct (Re.pat_groups pt) as [|[|n]]; [by eexists..|lia].
Qed.

(** X6, at the e-mail addresses of a generic record. *)
Lemma field_values_are_strings_witness :
  ∃ found, (getattr "emails" (start (record_of WhoisEntry "example.xyz" "a@b.org"))).1
           = Ok (VList found) ∧ Forall is_string found.
Proof.
  apply (field_values_are_strings "example.xyz" "a@b.org" _ "emails"
           "[\w.-]+@[\w.-]+\.[\w]{2,4}").
  - exists (record_of WhoisEntry "example.xyz" "a@b.org").
    split; [vm_compute; reflexivity|constructor].
  - vm_compute. reflexivity.
Defined.

(** ** Order of access *)

(** X7. The order in which two fields are accessed does not matter: either
    order gives the same two values and ends with the same record; only the
    order of the calls to [re.findall] differs. *)
Theorem field_accesses_commute (domain text : string) (w : world) (f g pf pg : string) :
  loaded domain text w →
  registry (self w) !! f = Some pf → registry (self w) !! g = Some pg →
  (getattr f w).1 = (getattr f (getattr g w).2).1
  ∧ (getattr g w).1 = (getattr g (getattr f w).2).1
  ∧ self (getattr g (getattr f w).2).2 = self (getattr f (getattr g w).2).2
  ∧ findall_calls (getattr g (getattr f w).2).2
    ≡ₚ findall_calls (getattr f (getattr g w).2).2.
Proof.
  intros Hl Hf Hg. pose proof (loaded_state _ _ _ Hl) as Hs.
  rewrite (loaded_registry _ _ _ Hl) in Hf, Hg. set (c := dispatch domain) in *.
  assert (∀ h p, registry_of c !! h = Some p →
            record_state c domain text (self (getattr h w).2)) as Hnext.
  { intros h p Hh. eapply getattr_preserves; [exact Hs|apply surjective_pairing]. }
  rewrite (getattr_field_eq c domain text (getattr g w).2 f pf (Hnext g pg Hg) Hf).
  rewrite (getattr_field_eq c domain text (getattr f w).2 g pg (Hnext f pf Hf) Hg).
  rewrite (getattr_field_eq c domain text w f pf Hs Hf).
  rewrite (getattr_field_eq c domain text w g pg Hs Hg).
  cbn [fst snd]. split; [done|]. split; [done|].
  destruct (decide (f = g)) as [->|Hne].
  - assert (pf = pg) as -> by congruence.
    destruct (ob_dict (self w) !! g) eqn:E; cbn [store self ob_dict];
      rewrite ?E, ?lookup_insert_eq; done.
  - destruct (ob_dict (self w) !! f) eqn:Ef, (ob_dict (self w) !! g) eqn:Eg;
      cbn [store self ob_dict findall_calls];
      rewrite ?Ef, ?Eg, ?lookup_insert_ne by done; rewrite ?Ef, ?Eg;
      cbn [store self ob_dict findall_calls]; try done.
    split; [|apply perm_swap]. f_equal. by apply insert_insert_ne.
Qed.

(** X7, at [domain_name] and [name_servers] of a generic record. *)
Lemma field_accesses_commute_witness :
  self (getattr "name_servers"
          (getattr "domain_name" (start (record_of WhoisEntry "example.xyz" three_name_servers))).2).2
  = self (getattr "domain_name"
            (getattr "name_servers" (start (record_of WhoisEntry "example.xyz" three_name_servers))).2).2.
Proof.
  apply (field_accesses_commute "example.xyz" three_name_servers _
           "domain_name" "name_servers" "Domain Name:\s?(.+)" "Name Server:\s?(.+)").
  - exists (record_of WhoisEntry "example.xyz" three_name_servers).
    split; [vm_compute; reflexivity|constructor].
  - vm_compute. reflexivity.
  - vm_compute. reflexivity.
Defined.

(** ** Dates: blank input *)

Lemma lstrip_all_blank (l : list ascii) :
  Forall (fun c => Py.isspace c = true) l → Py.lstrip_chars l = [].
Proof. induction 1 as [|c l Hc _ IH]; simpl; [done|]. by rewrite Hc. Qed.

Lemma strip_all_blank (s : string) : blank s → Py.strip s = EmptyString.
Proof.
  intros Hb. unfold Py.strip, Py.strip_chars.
  by rewrite (lstrip_all_blank _ Hb).
Qed.

Lemma cast_date_loop_strip (tz : Time.tzinfo) (a b : string) (formats : list string) :
  Py.strip a = Py.strip b → cast_date_loop tz a formats = cast_date_loop tz b formats.
Proof.
  intros H. induction formats as [|format rest IH]; simpl; [done|].
  by rewrite H, IH.
Qed.

(** X8. A string that is empty or consists of blanks only is no date:
    [cast_date] returns [None] for it, in every time zone. *)
Theorem cast_date_blank (tz : Time.tzinfo) (date_str : string) :
  blank date_str → cast_date tz date_str = Ok None.
Proof.
  intros Hb. unfold cast_date.
  rewrite (cast_date_loop_strip tz date_str EmptyString).
  - vm_compute. reflexivity.
  - by rewrite strip_all_blank.
Qed.

(** X8, at a string of a space, a tab and a line end. *)
Lemma cast_date_blank_witness :
  cast_date {| Time.tzname := ("UTC", "UTC"); Time.daylight := false |}
            (" " +:+ Py.chr Py.TAB +:+ Py.lf) = Ok None.
Proof.
  apply cast_date_blank. unfold blank. vm_compute. repeat constructor.
Defined.

(** ** A table of the caller's *)

Section CustomTable.
Context (domain text : string) (R : gmap string string).
Implicit Types (w : world) (f pat : string).

Lemma entry_call : WhoisEntry_call domain text (VDict R) = Ok (entry_of domain text R).
Proof. reflexivity. Qed.




End CustomTable.



(** ** [__str__] *)

Lemma repr_char_one_line (q c : ascii) :
  q = "'"%char ∨ q = Py.DQUOTE →
  forallb (fun x => negb (Ascii.eqb x Py.LF)) (Str.repr_char q c) = true.
Proof.
  intros [-> | ->]; destruct c as [[] [] [] [] [] [] [] []]; vm_compute; reflexivity.
Qed.

Lemma quote_of_cases (l : list ascii) :
  Str.quote_of l = "'"%char ∨ Str.quote_of l = Py.DQUOTE.
Proof. unfold Str.quote_of. destruct (_ && _); auto. Qed.

Lemma repr_one_line (s : string) : Py.LF ∉ Py.chars (Str.repr s).
Proof.
  unfold Str.repr, Str.repr_chars. rewrite chars_str.
  pose proof (quote_of_cases (Py.chars s)) as Hq.
  set (q := Str.quote_of (Py.chars s)) in *.
  assert (Py.LF ≠ q) as Hne by (by destruct Hq as [-> | ->]).
  rewrite not_elem_of_cons, not_elem_of_app, not_elem_of_cons.
  split; [done|]. split; [|split; [done|apply not_elem_of_nil]].
  intros (k & Hin & Hk)%list_elem_of_In%in_concat.
  apply list_elem_of_In, list_elem_of_fmap in Hin as (c & -> & _).
  pose proof (repr_char_one_line q c Hq) as H. rewrite forallb_forall in H.
  apply H in Hk. by rewrite Ascii.eqb_refl in Hk.
Qed.

Lemma join_one_line (sep : string) (l : list string) :
  Py.LF ∉ Py.chars sep → Forall (fun x => Py.LF ∉ Py.chars x) l →
  Py.LF ∉ Py.chars (Str.join sep l).
Proof.
  intros Hsep. induction 1 as [|x l Hx Hl IH]; simpl; [apply not_elem_of_nil|].
  destruct l as [|y l]; [done|].
  rewrite !chars_app, !not_elem_of_app. auto.
Qed.

Lemma repr_list_one_line (l : list elem) : Py.LF ∉ Py.chars (Str.repr_list l).
Proof.
  assert (Py.LF ∉ Py.chars ", ") as Hsep by (by apply (bool_decide_unpack _)).
  unfold Str.repr_list. rewrite !chars_app, !not_elem_of_app.
  split; [by apply (bool_decide_unpack _)|]. split; [|by apply (bool_decide_unpack _)].
  apply join_one_line; [done|]. apply Forall_fmap, Forall_true.
  intros [s|items]; cbn [Str.repr_elem compose].
  - apply repr_one_line.
  - unfold Str.repr_tuple. rewrite !chars_app, !not_elem_of_app.
    split; [by apply (bool_decide_unpack _)|]. split; [|split].
    + apply join_one_line; [done|]. apply Forall_fmap, Forall_true.
      intros s. apply repr_one_line.
    + destruct items as [|? [|]]; by apply (bool_decide_unpack _).
    + by apply (bool_decide_unpack _).
Qed.

Lemma lines_of_one_line (a : list ascii) : Py.LF ∉ a → lines_of a = [a].
Proof.
  induction a as [|c a IH]; simpl; [done|].
  rewrite not_elem_of_cons. intros [Hc Ha].
  destruct (Ascii.eqb c Py.LF) eqn:E; [by apply Ascii.eqb_eq in E|].
  by rewrite IH.
Qed.

Lemma lines_of_app (a b : list ascii) :
  Py.LF ∉ a → lines_of (a ++ Py.LF :: b) = a :: lines_of b.
Proof.
  induction a as [|c a IH]; simpl.
  - by intros _.
  - rewrite not_elem_of_cons. intros [Hc Ha].
    destruct (Ascii.eqb c Py.LF) eqn:E; [by apply Ascii.eqb_eq in E|].
    by rewrite IH.
Qed.

(** Splitting undoes joining when no item has a line feed. *)
Lemma lines_of_join (l : list string) :
  l ≠ [] → Forall (fun x => Py.LF ∉ Py.chars x) l →
  lines_of (Py.chars (Str.join Py.lf l)) = Py.chars <$> l.
Proof.
  intros Hne Hl. induction Hl as [|x l Hx Hl IH]; [done|].
  destruct l as [|y l]; simpl.
  - by apply lines_of_one_line.
  - rewrite !chars_app. change (Py.chars Py.lf) with [Py.LF]. simpl.
    rewrite lines_of_app by done. f_equal. by apply IH.
Qed.

Section Render.
Context (c : class) (domain text : string).
Implicit Types (w : world) (f : string) (names : list string).

Lemma store_one_getattr w f pat :
  record_state c domain text (self w) → registry_of c !! f = Some pat →
  getattr f w = (Ok (VList (field_value c text f)), store_one c text w f).
Proof.
  intros Hs Hf. rewrite (getattr_field_eq c domain text w f pat Hs Hf).
  unfold store_one. rewrite Hf. by destruct (ob_dict (self w) !! f).
Qed.

Lemma store_one_state w f :
  record_state c domain text (self w) →
  record_state c domain text (self (store_one c text w f)).
Proof.
  intros Hs. unfold store_one. destruct (ob_dict (self w) !! f); [done|].
  destruct (registry_of c !! f) as [pat|] eqn:Hf; [|done].
  apply record_state_store; [done..|]. by apply field_value_findall.
Qed.

Lemma store_one_keeps w f g v :
  ob_dict (self w) !! g = Some v → ob_dict (self (store_one c text w f)) !! g = Some v.
Proof.
  intros Hg. unfold store_one. destruct (ob_dict (self w) !! f) eqn:E; [done|].
  destruct (registry_of c !! f); [|done].
  cbn [store self ob_dict]. rewrite lookup_insert_ne; [done|congruence].
Qed.

Lemma store_one_cached w f pat :
  record_state c domain text (self w) → registry_of c !! f = Some pat →
  ob_dict (self (store_one c text w f)) !! f = Some (VList (field_value c text f)).
Proof.
  intros Hs Hf. unfold store_one. rewrite Hf.
  destruct (ob_dict (self w) !! f) as [v|] eqn:E.
  - destruct (state_lookup_field c domain text _ f pat Hs Hf) as [_ [?|Hc]]; [congruence|].
    destruct Hc as (p & found & Hp & Hfound & Hd).
    rewrite (field_value_findall c text f p Hp) in Hfound. congruence.
  - cbn [store self ob_dict]. by rewrite lookup_insert_eq.
Qed.

Lemma store_all_cons f names w :
  store_all c text (f :: names) w = store_all c text names (store_one c text w f).
Proof. reflexivity. Qed.

Lemma store_all_state names w :
  record_state c domain text (self w) →
  record_state c domain text (self (store_all c text names w)).
Proof.
  revert w. induction names as [|f names IH]; intros w Hs; [done|].
  rewrite store_all_cons. apply IH. by apply store_one_state.
Qed.

Lemma store_all_keeps names w g v :
  ob_dict (self w) !! g = Some v → ob_dict (self (store_all c text names w)) !! g = Some v.
Proof.
  revert w. induction names as [|f names IH]; intros w Hg; [done|].
  rewrite store_all_cons. apply IH. by apply store_one_keeps.
Qed.

Lemma later_trans w1 w2 w3 : later w1 w2 → later w2 w3 → later w1 w3.
Proof. intros H12. induction 1 as [|w name v w' _ IH Hg]; [done|]. by eapply later_get. Qed.

Lemma store_all_later names w :
  record_state c domain text (self w) →
  Forall (fun f => is_Some (registry_of c !! f)) names →
  later w (store_all c text names w).
Proof.
  intros Hs Hn. revert w Hs.
  induction Hn as [|f names [pat Hf] Hn IH]; intros w Hs; [constructor|].
  rewrite store_all_cons. apply (later_trans w (store_one c text w f)).
  - eapply later_get; [constructor|]. by eapply store_one_getattr.
  - apply IH. by apply store_one_state.
Qed.

(** The items of [__str__] for names of the table. *)
Lemma str_items_fields names w :
  record_state c domain text (self w) →
  Forall (fun f => is_Some (registry_of c !! f)) names →
  str_items names w = (Ok (str_line c text <$> names), store_all c text names w).
Proof.
  intros Hs Hn. revert w Hs.
  induction Hn as [|f names [pat Hf] Hn IH]; intros w Hs; [done|].
  cbn [str_items]. unfold mbind, M_bind, bind.
  rewrite (store_one_getattr w f pat Hs Hf). cbn [str_of ret].
  rewrite IH by (by apply store_one_state). by rewrite store_all_cons.
Qed.

Lemma store_all_cached names w f pat :
  record_state c domain text (self w) → f ∈ names → registry_of c !! f = Some pat →
  ob_dict (self (store_all c text names w)) !! f = Some (VList (field_value c text f)).
Proof.
  intros Hs Hin Hf. revert w Hs.
  induction names as [|g names IH]; intros w Hs; [by apply elem_of_nil in Hin|].
  rewrite store_all_cons. apply elem_of_cons in Hin as [<-|Hin].
  - apply store_all_keeps. by eapply store_one_cached.
  - apply IH; [done|]. by apply store_one_state.
Qed.

Lemma store_all_noop names w :
  Forall (fun f => is_Some (ob_dict (self w) !! f)) names →
  store_all c text names w = w.
Proof.
  induction 1 as [|f names [v Hf] _ IH]; [done|].
  rewrite store_all_cons. unfold store_one. by rewrite Hf.
Qed.

End Render.

Lemma attrs_method (c : class) (domain text : string) :
  registry_of c !! "attrs" = None
  ∧ lookup (record_of c domain text) "attrs" = Some (VFunc (Method WhoisEntry "attrs")).
Proof. split; [destruct c; vm_compute; reflexivity|destruct c; eval_symbolic]. Qed.

Lemma field_names_one_line (c : class) (f : string) :
  is_Some (registry_of c !! f) → Py.LF ∉ Py.chars f.
Proof.
  intros [pat H%elem_of_map_to_list]. revert H.
  change (Py.LF ∉ Py.chars f) with
    ((fun kv : string * string => Py.LF ∉ Py.chars kv.1) (f, pat)).
  generalize (f, pat). apply Forall_forall.
  destruct c; apply (bool_decide_unpack _); vm_compute; exact I.
Qed.

Lemma tables_not_empty (c : class) : registry_of c ≠ ∅.
Proof.
  intros H. apply (f_equal (.!! "domain_name")) in H.
  destruct c; vm_compute in H; discriminate H.
Qed.

(** [__str__] on a record, as a function of the world. *)
Lemma str_record (c : class) (domain text : string) (w : world) :
  record_state c domain text (self w) →
  __str__ w =
  (Ok (Str.join Py.lf (str_line c text <$> sorted ((map_to_list (registry_of c)).*1))),
   store_all c text (sorted ((map_to_list (registry_of c)).*1)) w).
Proof.
  intros Hs. destruct (attrs_method c domain text) as [Hno Hm].
  unfold __str__, mbind, M_bind, bind.
  rewrite (getattr_other c domain text w "attrs" Hs Hno), Hm.
  replace (Py.eq "attrs" "attrs") with true by reflexivity. cbv iota.
  rewrite (attrs_record c domain text w Hs).
  rewrite (str_items_fields c domain text _ w Hs); [done|].
  apply Forall_forall. intros f Hf.
  destruct (sorted_spec ((map_to_list (registry_of c)).*1)) as [_ Hperm].
  rewrite Hperm in Hf. apply list_elem_of_fmap in Hf as ([k v] & -> & H%elem_of_map_to_list).
  eauto.
Qed.

(** X10. [str(record)] never fails on a record of [load].  It is the lines
    ["name: list"] for the names of [attrs()] in their order, joined by line
    feeds, where the list is written as [repr] writes it; since [repr] escapes
    line ends, splitting the text at the line feeds gives back exactly one
    line per field, whatever the values contain. *)
Theorem str_is_one_line_per_field (domain text : string) (w : world) :
  loaded domain text w →
  ∃ names S w',
    attrs w = (Ok names, w) ∧ __str__ w = (Ok S, w')
    ∧ S = Str.join Py.lf ((fun f => f +:+ ": "
                             +:+ Str.repr_list (field_value (dispatch domain) text f))
                          <$> names)
    ∧ lines_of (Py.chars S)
      = (fun f => Py.chars (f +:+ ": "
                    +:+ Str.repr_list (field_value (dispatch domain) text f)))
        <$> names
    ∧ length (lines_of (Py.chars S)) = size (registry (self w)).
Proof.
  intros Hl. pose proof (loaded_state _ _ _ Hl) as Hs.
  rewrite (loaded_registry _ _ _ Hl). set (c := dispatch domain) in *.
  set (names := sorted ((map_to_list (registry_of c)).*1)).
  destruct (sorted_spec ((map_to_list (registry_of c)).*1)) as [_ Hperm].
  fold names in Hperm.
  assert (∀ f, f ∈ names → is_Some (registry_of c !! f)) as Hin.
  { intros f Hf. rewrite Hperm in Hf.
    apply list_elem_of_fmap in Hf as ([k v] & -> & H%elem_of_map_to_list). eauto. }
  assert (length names = size (registry_of c)) as Hlen.
  { rewrite Hperm, length_fmap. apply length_map_to_list. }
  eexists names, _, _. split; [by apply (attrs_record c domain text)|].
  split; [by apply (str_record c domain text)|]. split; [done|].
  assert (lines_of (Py.chars (Str.join Py.lf (str_line c text <$> names)))
          = Py.chars <$> (str_line c text <$> names)) as Hlines.
  { apply lines_of_join.
    - intros H. apply fmap_nil_inv in H.
      apply (tables_not_empty c), map_size_empty_iff. rewrite <- Hlen. by rewrite H.
    - apply Forall_fmap, Forall_forall. intros f Hf. simpl. unfold str_line.
      rewrite !chars_app, !not_elem_of_app. split; [|split].
      + by apply (field_names_one_line c), Hin.
      + by apply (bool_decide_unpack _).
      + apply repr_list_one_line. }
  fold names. split.
  - rewrite Hlines. by rewrite <- list_fmap_compose.
  - by rewrite Hlines, !length_fmap.
Qed.

(** X10, on a [.cz] record whose name-server line ends with a carriage
    return: five lines. *)
Lemma str_is_one_line_per_field_witness :
  ∃ S w', __str__ (start (record_of WhoisCz "example.cz" ("nserver: ns1" +:+ Py.cr +:+ Py.lf)))
          = (Ok S, w')
          ∧ length (lines_of (Py.chars S)) = 5.
Proof.
  destruct (str_is_one_line_per_field "example.cz" ("nserver: ns1" +:+ Py.cr +:+ Py.lf)
              (start (record_of WhoisCz "example.cz" ("nserver: ns1" +:+ Py.cr +:+ Py.lf))))
    as (names & S & w' & _ & HS & _ & _ & Hn).
  - exists (record_of WhoisCz "example.cz" ("nserver: ns1" +:+ Py.cr +:+ Py.lf)).
    split; [vm_compute; reflexivity|constructor].
  - exists S, w'. split; [done|]. rewrite Hn. vm_compute. reflexivity.
Defined.

(** X11. [str(record)] computes every field that has not been accessed yet
    and stores it: afterwards every field of the table is cached with its
    value, and a second [str(record)] gives the same text without a single
    call to [re.findall] and without changing the record. *)
Theorem str_caches_every_field (domain text : string) (w : world) :
  loaded domain text w →
  ∃ S w',
    __str__ w = (Ok S, w') ∧ later w w'
    ∧ (∀ f pat, registry (self w) !! f = Some pat →
         ob_dict (self w') !! f = Some (VList (field_value (dispatch domain) text f))
         ∧ getattr f w' = (Ok (VList (field_value (dispatch domain) text f)), w'))
    ∧ __str__ w' = (Ok S, w').
Proof.
  intros Hl. pose proof (loaded_state _ _ _ Hl) as Hs.
  rewrite (loaded_registry _ _ _ Hl). set (c := dispatch domain) in *.
  set (names := sorted ((map_to_list (registry_of c)).*1)).
  destruct (sorted_spec ((map_to_list (registry_of c)).*1)) as [_ Hperm].
  fold names in Hperm.
  assert (∀ f, f ∈ names ↔ is_Some (registry_of c !! f)) as Hin.
  { intros f. rewrite Hperm, list_elem_of_fmap. split.
    - intros ([k v] & -> & H%elem_of_map_to_list). eauto.
    - intros [v H]. exists (f, v). split; [done|]. by apply elem_of_map_to_list. }
  pose proof (store_all_state c domain text names w Hs) as Hs'.
  assert (∀ f pat, registry_of c !! f = Some pat →
            ob_dict (self (store_all c text names w)) !! f
            = Some (VList (field_value c text f))) as Hcached.
  { intros f pat Hf. apply (store_all_cached c domain text names w f pat); [done| |done].
    apply Hin. eauto. }
  eexists _, _. split; [by apply (str_record c domain text)|]. fold names. split.
  { apply (store_all_later c domain text); [done|]. apply Forall_forall. intros f.
    apply Hin. }
  split.
  - intros f pat Hf. split; [by eapply Hcached|].
    rewrite (getattr_field_eq c domain text _ f pat Hs' Hf).
    by rewrite (Hcached f pat Hf).
  - rewrite (str_record c domain text _ Hs'). f_equal.
    apply store_all_noop. apply Forall_forall. intros f [pat Hf]%Hin.
    rewrite (Hcached f pat Hf). eauto.
Qed.

(** X11, on the generic record with the three name servers. *)
Lemma str_caches_every_field_witness :
  ∃ S w', __str__ (start (record_of WhoisEntry "example.xyz" three_name_servers)) = (Ok S, w')
          ∧ __str__ w' = (Ok S, w').
Proof.
  destruct (str_caches_every_field "example.xyz" three_name_servers
              (start (record_of WhoisEntry "example.xyz" three_name_servers)))
    as (S & w' & H1 & _ & _ & H2).
  - exists (record_of WhoisEntry "example.xyz" three_name_servers).
    split; [vm_compute; reflexivity|constructor].
  - exists S, w'. split; [exact H1|exact H2].
Defined.
(** ** Where the values come from *)

Lemma stretch_of_nil (T : list ascii) : stretch_of [] T.
Proof. by exists [], T. Qed.

Lemma stretch_of_take (s s' T : list ascii) :
  s `suffix_of` T → s' `suffix_of` s → stretch_of (take (length s - length s') s) T.
Proof.
  intros [b ->] [a ->]. exists b, s'.
  rewrite length_app. replace (length a + length s' - length s') with (length a) by lia.
  by rewrite take_app_length.
Qed.

Lemma stretch_occurs (sub text : string) :
  stretch_of (Py.chars sub) (Py.chars text) → occurs_in sub text.
Proof.
  intros (a & b & H). exists (Py.str a), (Py.str b). apply chars_inj.
  by rewrite !chars_app, !chars_str.
Qed.

Section Draws.
Context {R : Type} (icase : bool) (T : list ascii).
Implicit Types (s : list ascii) (g : Re.caps) (k : list ascii → Re.caps → option R).

Lemma rep_draws body lo hi :
  draws (R:=R) T body →
  ∀ fuel count, draws (R:=R) T (fun s g k => Re.rep body lo hi k fuel count s g).
Proof.
  unfold draws. intros Hbody fuel.
  induction fuel as [|fuel IH]; intros count s g k res Hs Hg; simpl.
  - destruct (lo <=? count); [|done]. intros H. by exists s, g.
  - assert (∀ res, (if lo <=? count then k s g else None) = Some res →
                   ∃ s' g', s' `suffix_of` s ∧ drawn_from T g' ∧ k s' g' = Some res) as Hstop.
    { intros res'. destruct (lo <=? count); [|done]. intros H. by exists s, g. }
    destruct (Re.below hi count); [|by apply Hstop].
    destruct (body s g _) as [res'|] eqn:E; [|by apply Hstop].
    intros [= ->]. apply Hbody in E as (s1 & g1 & Hs1 & Hg1 & E); [|done..].
    destruct (_ || _); [|done].
    apply (IH (S count) s1 g1 k) in E as (s2 & g2 & Hs2 & Hg2 & E);
      [|by etrans|done].
    exists s2, g2. split; [by etrans|done].
Qed.

Lemma rmatch_draws (r : Re.regex) : draws (R:=R) T (Re.rmatch icase r).
Proof.
  induction r as [|c| |neg items|r1 IH1 r2 IH2|r1 IH1 r2 IH2|r IH lo hi|n r IH];
    unfold draws in *; intros s g k res Hs Hg; simpl.
  - intros H. by exists s, g.
  - destruct s as [|x s]; [done|]. destruct (Re.char_matches _ _ _); [|done].
    intros H. exists s, g. split; [by apply suffix_cons_r|done].
  - destruct s as [|x s]; [done|]. destruct (Ascii.eqb _ _); [done|].
    intros H. exists s, g. split; [by apply suffix_cons_r|done].
  - destruct s as [|x s]; [done|]. destruct (Re.set_matches _ _ _ _); [|done].
    intros H. exists s, g. split; [by apply suffix_cons_r|done].
  - intros (s1 & g1 & Hs1 & Hg1 & H)%IH1; [|done..].
    apply IH2 in H as (s2 & g2 & Hs2 & Hg2 & H); [|by etrans|done].
    exists s2, g2. split; [by etrans|done].
  - destruct (Re.rmatch icase r1 s g k) as [res'|] eqn:E.
    + intros [= ->]. by apply (IH1 s g k).
    + by apply IH2.
  - by apply (rep_draws _ lo hi IH (lo + length s) 0 s g k res).
  - intros (s1 & g1 & Hs1 & Hg1 & H)%IH; [|done..].
    exists s1, ((n, take (length s - length s1) s) :: g1).
    split; [done|]. split; [|done].
    apply Forall_cons. split; [|done]. by apply stretch_of_take.
Qed.

End Draws.

Lemma match_here_draws (icase : bool) (r : Re.regex) (T s rest : list ascii) (g : Re.caps) :
  s `suffix_of` T → Re.match_here icase r s = Some (rest, g) →
  rest `suffix_of` s ∧ drawn_from T g.
Proof.
  intros Hs H. apply (rmatch_draws icase T r) in H as (s' & g' & ? & ? & [= <- <-]);
    [done|done|constructor].
Qed.

Lemma group_drawn (T : list ascii) (g : Re.caps) (n : nat) :
  drawn_from T g → stretch_of (default [] (Re.group g n)) T.
Proof.
  induction 1 as [|[m txt] g Hx Hg IH]; simpl; [apply stretch_of_nil|].
  by destruct (m =? n).
Qed.

(** Every string of every element that [re.findall] returns is a stretch of
    the text. *)
Lemma findall_strings (p text : string) (found : list elem) (e : elem) (s : string) :
  Re.findall p text = Some found → e ∈ found → s ∈ strings_of e → occurs_in s text.
Proof.
  unfold Re.findall. destruct (Re.compile p) as [pt|]; [|done]. simpl.
  intros [= <-] (h & -> & Hh)%list_elem_of_fmap Hs.
  apply scan_hits in Hh as [Hfrom Hm].
  destruct (match_here_draws _ _ _ _ _ _ Hfrom Hm) as [Hrest Hg].
  apply stretch_occurs.
  assert (∀ n, stretch_of (Py.chars (Re.group_text h n)) (Py.chars text)) as Hgroup.
  { intros n. unfold Re.group_text. rewrite chars_str. by apply group_drawn. }
  unfold Re.elem_of_hit in Hs. destruct (Re.pat_groups pt) as [|[|n]]; simpl in Hs.
  - apply list_elem_of_singleton in Hs as ->. unfold Re.hit_text. rewrite chars_str.
    by apply stretch_of_take.
  - apply list_elem_of_singleton in Hs as ->. apply Hgroup.
  - rewrite <- !fmap_cons in Hs. apply list_elem_of_fmap in Hs as (m & -> & _). apply Hgroup.
Qed.

Lemma values_not_list (m : gmap string pyval) (f : string) (v : pyval) :
  forallb (fun kv : string * pyval => not_list kv.2) (map_to_list m) = true →
  m !! f = Some v → not_list v = true.
Proof.
  rewrite forallb_forall. intros H Hf. apply (H (f, v)).
  apply list_elem_of_In. by apply elem_of_map_to_list.
Qed.

Lemma lookup_in_not_list (cs : list class) (f : string) (v : pyval) :
  lookup_in cs f = Some v → not_list v = true.
Proof.
  induction cs as [|c cs IH]; simpl.
  - apply values_not_list. vm_compute. reflexivity.
  - destruct (class_dict c !! f) as [x|] eqn:E; [|done]. intros [= <-]. revert E.
    apply values_not_list. destruct c; vm_compute; reflexivity.
Qed.

Lemma record_lookup_not_list (c : class) (domain text f : string) (v : pyval) :
  lookup (record_of c domain text) f = Some v → not_list v = true.
Proof.
  unfold lookup. destruct (ob_dict _ !! f) as [x|] eqn:E.
  - intros [= <-]. revert E. unfold record_of. cbn [ob_dict].
    destruct (passes_table c); [rewrite dict3|rewrite dict2];
      repeat (rewrite lookup_insert_Some; intros [[_ <-]|[_ E]]; [done|revert E]);
      by rewrite lookup_empty.
  - apply lookup_in_not_list.
Qed.

(** X12. Whatever list an attribute of a loaded record holds, every string in
    it, alone or in a tuple of groups, is a piece of the record's text. *)
Theorem field_values_occur_in_text (domain text : string) (w w' : world)
    (f : string) (found : list elem) (e : elem) (s : string) :
  loaded domain text w → getattr f w = (Ok (VList found), w') →
  e ∈ found → s ∈ strings_of e → occurs_in s text.
Proof.
  intros Hl Hget. pose proof (loaded_state _ _ _ Hl) as Hs.
  set (c := dispatch domain) in *.
  destruct (registry_of c !! f) as [pat|] eqn:Hf.
  - rewrite (getattr_field_eq c domain text w f pat Hs Hf) in Hget.
    injection Hget as <- _. apply (findall_strings pat). by apply field_value_findall.
  - rewrite (getattr_other c domain text w f Hs Hf) in Hget.
    destruct (lookup (record_of c domain text) f) as [v|] eqn:E; [|done].
    injection Hget as -> _. by apply record_lookup_not_list in E.
Qed.

(** X12, on the generic record with three name servers: the second server
    is a piece of the text. *)
Lemma field_values_occur_in_text_witness : occurs_in "ns2.x" three_name_servers.
Proof.
  apply (field_values_occur_in_text "example.xyz" three_name_servers
           (start (record_of WhoisEntry "example.xyz" three_name_servers))
           (store "name_servers" "Name Server:\s?(.+)" three_name_servers
              [EStr "ns1.x"; EStr "ns2.x"; EStr "ns3.x"]
              (start (record_of WhoisEntry "example.xyz" three_name_servers)))
           "name_servers" [EStr "ns1.x"; EStr "ns2.x"; EStr "ns3.x"] (EStr "ns2.x") "ns2.x").
  - exists (record_of WhoisEntry "example.xyz" three_name_servers).
    split; [vm_compute; reflexivity|constructor].
  - vm_compute. reflexivity.
  - apply list_elem_of_further, list_elem_of_here.
  - apply list_elem_of_here.
Defined.
(** ** The time tuples of [cast_date] *)

Lemma index_of_bound (x : string) (l : list string) (i : nat) :
  Time.index_of x l = Some i → i < length l.
Proof.
  revert i. induction l as [|y l IH]; intros i; simpl; [done|].
  destruct (Py.eq x y); [intros [= <-]; lia|].
  destruct (Time.index_of x l) as [j|]; [|done]. intros [= <-].
  specialize (IH j eq_refl). lia.
Qed.

Lemma zone_range (g : Re.caps) (tz : Time.tzinfo) : (-1 ≤ Time.zone g tz ≤ 1)%Z.
Proof.
  unfold Time.zone. destruct (Time.field g _); [|lia].
  repeat match goal with |- context [if ?b then _ else _] => destruct b end; lia.
Qed.

Lemma year_day_range (y m d : Z) :
  (1 ≤ m ≤ 12 → 1 ≤ d ≤ Time.days_in_month y m →
   1 ≤ Time.days_before_month y m + d ≤ if Time.is_leap y then 366 else 365)%Z.
Proof.
  intros Hm. unfold Time.days_in_month, Time.days_before_month.
  assert (m = 1 ∨ m = 2 ∨ m = 3 ∨ m = 4 ∨ m = 5 ∨ m = 6 ∨ m = 7 ∨ m = 8 ∨ m = 9
          ∨ m = 10 ∨ m = 11 ∨ m = 12)%Z as Hcases by lia.
  destruct (Time.is_leap y);
    repeat (destruct Hcases as [->|Hcases]; [simpl; lia|]); subst m; simpl; lia.
Qed.

Lemma strptime_calendar_day (tz : Time.tzinfo) (s format : string) (t : Time.struct_time) :
  Time.strptime tz s format = Ok t → calendar_day t.
Proof.
  unfold Time.strptime.
  destruct (Time.format_regex _ _ _); [|done].
  destruct (Re.match_here _ _ _) as [[[|] g]|]; [|done..].
  set (y := Time.int_field g "Y" 1900). set (m := Time.month g).
  set (d := Time.int_field g "d" 1).
  destruct (Time.toordinal y m d) as [ord|] eqn:E; [|done].
  destruct (Time.toordinal y 1 1) as [ord1|] eqn:E1; [|done].
  intros [= <-]. unfold calendar_day. cbn [Time.tm_year Time.tm_mon Time.tm_mday
    Time.tm_wday Time.tm_yday Time.tm_isdst].
  unfold Time.toordinal in E, E1.
  destruct (_ && _) eqn:B in E; [|done]. injection E as <-.
  destruct (_ && _) eqn:B1 in E1; [|done]. injection E1 as <-.
  rewrite !andb_true_iff, !Z.leb_le in B. destruct B as [[[[[? ?] ?] ?] ?] ?].
  pose proof (year_day_range y m d ltac:(lia) ltac:(lia)) as Hyd.
  pose proof (zone_range g tz).
  replace (Time.days_before_month y 1) with 0%Z by (unfold Time.days_before_month; simpl; lia).
  repeat split; try lia.
  - destruct (Time.name_field g "a" Time.a_weekday) as [i|] eqn:Ei; [lia|].
    apply Z.mod_pos_bound. lia.
  - destruct (Time.name_field g "a" Time.a_weekday) as [i|] eqn:Ei.
    + unfold Time.name_field in Ei. destruct (Time.field g "a"); [|done].
      cbn [mbind option_bind] in Ei.
      apply index_of_bound in Ei. cbn [length Time.a_weekday] in Ei. lia.
    + pose proof (Z.mod_pos_bound (Time.days_before_year y + Time.days_before_month y m + d + 6) 7).
      lia.
Qed.

(** X13. A time tuple that [cast_date] returns names a day that exists: the
    year is between 1 and 9999, the month between 1 and 12, the day within
    the month of that year, the weekday between 0 and 6, the day of the year
    between 1 and the length of the year, and the daylight flag -1, 0 or 1. *)
Theorem cast_date_returns_calendar_days (tz : Time.tzinfo) (date_str : string)
    (t : Time.struct_time) :
  cast_date tz date_str = Ok (Some t) → calendar_day t.
Proof.
  unfold cast_date. intros (tried & format & rest & _ & _ & H)%cast_date_loop_some.
  by eapply strptime_calendar_day.
Qed.

(** X13, at the last day of February of a leap year. *)
Lemma cast_date_returns_calendar_days_witness :
  calendar_day {| Time.tm_year := 2008; Time.tm_mon := 2; Time.tm_mday := 29;
                  Time.tm_hour := 0; Time.tm_min := 0; Time.tm_sec := 0;
                  Time.tm_wday := 4; Time.tm_yday := 60; Time.tm_isdst := -1 |}.
Proof.
  apply (cast_date_returns_calendar_days
           {| Time.tzname := ("UTC", "UTC"); Time.daylight := false |} "2008-Feb-29").
  vm_compute. reflexivity.
Defined.

(** X14. Blanks around a date do not matter: [cast_date] gives the same
    answer with and without them. *)
Theorem cast_date_ignores_surrounding_blanks (tz : Time.tzinfo) (a date_str b : string) :
  blank a → blank b → cast_date tz (a +:+ date_str +:+ b) = cast_date tz date_str.
Proof.
  intros Ha Hb. apply cast_date_loop_strip. by apply strip_blank.
Qed.

(** X14, at a date between a tab and a line end. *)
Lemma cast_date_ignores_surrounding_blanks_witness :
  cast_date {| Time.tzname := ("UTC", "UTC"); Time.daylight := false |}
            (Py.chr Py.TAB +:+ "2000-01-02" +:+ (Py.cr +:+ Py.lf))
  = cast_date {| Time.tzname := ("UTC", "UTC"); Time.daylight := false |} "2000-01-02".
Proof.
  apply cast_date_ignores_surrounding_blanks; unfold blank; vm_compute; repeat constructor.
Defined.
(** ** The clock fields of [time.strptime] *)

Section KeepsClock.
Context {R : Type}.
Implicit Types (s : list ascii) (g : Re.caps) (k : list ascii → Re.caps → option R).

Lemma rep_keeps_clock body lo hi :
  keeps_clock (R:=R) body →
  ∀ fuel count, keeps_clock (R:=R) (fun s g k => Re.rep body lo hi k fuel count s g).
Proof.
  unfold keeps_clock. intros Hbody fuel.
  induction fuel as [|fuel IH]; intros count s g k res Hg; simpl.
  - destruct (lo <=? count); [|done]. intros H. by exists s, g.
  - assert (∀ res, (if lo <=? count then k s g else None) = Some res →
                   ∃ s' g', s' `suffix_of` s ∧ clock_caps g' ∧ k s' g' = Some res) as Hstop.
    { intros res'. destruct (lo <=? count); [|done]. intros H. by exists s, g. }
    destruct (Re.below hi count); [|by apply Hstop].
    destruct (body s g _) as [res'|] eqn:E; [|by apply Hstop].
    intros [= ->]. apply Hbody in E as (s1 & g1 & Hs1 & Hg1 & E); [|done].
    destruct (_ || _); [|done].
    apply (IH (S count) s1 g1 k) in E as (s2 & g2 & Hs2 & Hg2 & E); [|done].
    exists s2, g2. split; [by etrans|done].
Qed.

Lemma rmatch_keeps_clock (r : Re.regex) :
  clock_groups r → keeps_clock (R:=R) (Re.rmatch true r).
Proof.
  induction r as [|c| |neg items|r1 IH1 r2 IH2|r1 IH1 r2 IH2|r IH lo hi|n r IH];
    unfold keeps_clock in *; intros Hr s g k res Hg; simpl.
  - intros H. by exists s, g.
  - destruct s as [|x s]; [done|].
    match goal with |- (if ?b then _ else _) = _ → _ => destruct b end; [|done].
    intros H. exists s, g. split; [by apply suffix_cons_r|done].
  - destruct s as [|x s]; [done|]. destruct (Ascii.eqb _ _); [done|].
    intros H. exists s, g. split; [by apply suffix_cons_r|done].
  - destruct s as [|x s]; [done|].
    match goal with |- (if ?b then _ else _) = _ → _ => destruct b end; [|done].
    intros H. exists s, g. split; [by apply suffix_cons_r|done].
  - destruct Hr as [Hr1 Hr2].
    intros (s1 & g1 & Hs1 & Hg1 & H)%(IH1 Hr1); [|done].
    apply (IH2 Hr2) in H as (s2 & g2 & Hs2 & Hg2 & H); [|done].
    exists s2, g2. split; [by etrans|done].
  - destruct Hr as [Hr1 Hr2].
    destruct (Re.rmatch true r1 s g k) as [res'|] eqn:E.
    + intros [= ->]. by apply (IH1 Hr1 s g k).
    + by apply (IH2 Hr2).
  - by apply (rep_keeps_clock _ lo hi (IH Hr) (lo + length s) 0 s g k res).
  - simpl in Hr. intros (s1 & g1 & Hs1 & Hg1 & Hc & H)%Hr; [|done].
    exists s1, ((n, take (length s - length s1) s) :: g1).
    split; [done|]. split; [|done]. by apply Forall_cons.
Qed.

End KeepsClock.

Lemma plain_clock_groups (r : Re.regex) : plain r = true → clock_groups r.
Proof.
  induction r as [|c| |neg items|r1 IH1 r2 IH2|r1 IH1 r2 IH2|r IH lo hi|n r IH];
    simpl; try done.
  - intros [? ?]%andb_true_iff. auto.
  - intros [? ?]%andb_true_iff. auto.
Qed.

(** A group over a plain body whose number is not that of a clock directive. *)
Lemma free_group_clock (n : nat) (a : Re.regex) :
  plain a = true → clock_bound n = None → clock_groups (Re.RGroup n a).
Proof.
  intros Ha Hn. simpl. intros R s g k res Hg H.
  apply (rmatch_keeps_clock a (plain_clock_groups a Ha)) in H as (s' & g' & ? & ? & ?); [|done].
  exists s', g'. split; [done|]. split; [done|]. split; [|done].
  unfold capture_ok. cbn [fst]. by rewrite Hn.
Qed.

Lemma plain_literal (s : string) : plain (Time.literal s) = true.
Proof. unfold Time.literal. induction (Py.chars s) as [|c l IH]; simpl; [done|]. done. Qed.

Lemma plain_alternatives (l : list Re.regex) :
  Forall (fun r => plain r = true) l → plain (Time.alternatives l) = true.
Proof.
  induction 1 as [|r l Hr Hl IH]; simpl; [done|].
  destruct l as [|r' l]; [done|]. cbn [plain]. by rewrite Hr, IH.
Qed.

Lemma name_group_clock (d : ascii) (names : list string) :
  clock_bound (nat_of_ascii d) = None → clock_groups (Time.name_group d names).
Proof.
  intros Hd. apply free_group_clock; [|done]. apply plain_alternatives.
  apply Forall_fmap, Forall_forall. intros s _. apply plain_literal.
Qed.

(** *** What the patterns of [%H], [%M] and [%S] let through *)

Lemma digit_0_9 (y : ascii) : digit_between Re.IDigit 0 9 y = true.
Proof. destruct y as [[] [] [] [] [] [] [] []]; vm_compute; reflexivity. Qed.

Lemma digit_0_1 (y : ascii) : digit_between (Re.IRange "0" "1") 0 1 y = true.
Proof. destruct y as [[] [] [] [] [] [] [] []]; vm_compute; reflexivity. Qed.

Lemma digit_0_3 (y : ascii) : digit_between (Re.IRange "0" "3") 0 3 y = true.
Proof. destruct y as [[] [] [] [] [] [] [] []]; vm_compute; reflexivity. Qed.

Lemma digit_0_5 (y : ascii) : digit_between (Re.IRange "0" "5") 0 5 y = true.
Proof. destruct y as [[] [] [] [] [] [] [] []]; vm_compute; reflexivity. Qed.

Lemma digit_2 (y : ascii) : digit_is "2" 2 y = true.
Proof. destruct y as [[] [] [] [] [] [] [] []]; vm_compute; reflexivity. Qed.

Lemma digit_6 (y : ascii) : digit_is "6" 6 y = true.
Proof. destruct y as [[] [] [] [] [] [] [] []]; vm_compute; reflexivity. Qed.

Lemma digit_between_use (it : Re.item) (lo hi : Z) (y : ascii) :
  digit_between it lo hi y = true → Re.set_matches true false [it] y = true →
  Py.isdigit y = true ∧ (lo ≤ Py.digit_val y ≤ hi)%Z.
Proof.
  unfold digit_between. intros H Hy. rewrite Hy in H. simpl in H.
  rewrite !andb_true_iff, !Z.leb_le in H. tauto.
Qed.

Lemma digit_is_use (c : ascii) (v : Z) (y : ascii) :
  digit_is c v y = true → Re.char_matches true c y = true →
  Py.isdigit y = true ∧ Py.digit_val y = v.
Proof.
  unfold digit_is. intros H Hy. rewrite Hy in H. simpl in H.
  rewrite !andb_true_iff, Z.eqb_eq in H. tauto.
Qed.

Lemma int_chars_1 (x : ascii) :
  Py.isdigit x = true → Py.int_chars [x] = Py.digit_val x.
Proof. intros Hx. unfold Py.int_chars. simpl. rewrite Hx. lia. Qed.

Lemma int_chars_2 (x y : ascii) :
  Py.isdigit x = true → Py.isdigit y = true →
  Py.int_chars [x; y] = (10 * Py.digit_val x + Py.digit_val y)%Z.
Proof. intros Hx Hy. unfold Py.int_chars. simpl. rewrite Hx, Hy. lia. Qed.

Lemma take_1 (x : ascii) (s : list ascii) :
  take (length (x :: s) - length s) (x :: s) = [x].
Proof. replace (length (x :: s) - length s) with 1 by (simpl; lia). done. Qed.

Lemma take_2 (x y : ascii) (s : list ascii) :
  take (length (x :: y :: s) - length s) (x :: y :: s) = [x; y].
Proof. replace (length (x :: y :: s) - length s) with 2 by (simpl; lia). done. Qed.

(** The facts about the characters that a successful branch has tested. *)
Ltac digit_facts :=
  repeat match goal with
  | H : Re.set_matches true false [Re.IDigit] ?y = true |- _ =>
      apply (digit_between_use _ _ _ _ (digit_0_9 y)) in H; destruct H
  | H : Re.set_matches true false [Re.IRange "0" "1"] ?y = true |- _ =>
      apply (digit_between_use _ _ _ _ (digit_0_1 y)) in H; destruct H
  | H : Re.set_matches true false [Re.IRange "0" "3"] ?y = true |- _ =>
      apply (digit_between_use _ _ _ _ (digit_0_3 y)) in H; destruct H
  | H : Re.set_matches true false [Re.IRange "0" "5"] ?y = true |- _ =>
      apply (digit_between_use _ _ _ _ (digit_0_5 y)) in H; destruct H
  | H : Re.char_matches true "2" ?y = true |- _ =>
      apply (digit_is_use _ _ _ (digit_2 y)) in H; destruct H
  | H : Re.char_matches true "6" ?y = true |- _ =>
      apply (digit_is_use _ _ _ (digit_6 y)) in H; destruct H
  end.

(** Case analysis of a match of alternatives of one or two tested
    characters, each followed by the continuation [k]. *)
Ltac clock_cases H k :=
  repeat match type of H with
  | context [Re.char_matches ?a ?b ?c] => destruct (Re.char_matches a b c) eqn:?
  | context [Re.set_matches ?a ?b ?c ?d] => destruct (Re.set_matches a b c d) eqn:?
  end;
  cbv beta iota in H;
  repeat match type of H with
  | context [k ?a ?b] =>
      let E := fresh "Ek" in
      destruct (k a b) eqn:E; cbv beta iota in H; [injection H as ->|]
  end;
  try discriminate H.

Ltac clock_close :=
  match goal with
  | Hg : clock_caps ?g, E : _ ?s' ?g = Some _ |- _ =>
      exists s', g;
      split; [first [done | by apply suffix_cons_r | by do 2 apply suffix_cons_r]|];
      split; [exact Hg|]; split; [|exact E];
      unfold capture_ok; cbn [fst snd];
      rewrite ?take_2, ?take_1; digit_facts;
      rewrite ?int_chars_2, ?int_chars_1 by done;
      match goal with
      | |- context [clock_bound ?n] =>
          let v := eval vm_compute in (clock_bound n) in
          change (clock_bound n) with v
      end;
      cbv beta iota; lia
  end.

Ltac clock_group :=
  let H := fresh "H" in
  intros R s g k res Hg H;
  cbn [Re.rmatch Time.alternatives Time.then_ Time.chr Time.between Time.digit] in H;
  destruct s as [|x [|y s]]; clock_cases H k; clock_close.

Lemma hour_group_clock (tz : Time.tzinfo) (r : Re.regex) :
  Time.directive tz "H" = Some r → clock_groups r.
Proof. intros [= <-]. cbn [clock_groups]. clock_group. Qed.

Lemma minute_group_clock (tz : Time.tzinfo) (r : Re.regex) :
  Time.directive tz "M" = Some r → clock_groups r.
Proof. intros [= <-]. cbn [clock_groups]. clock_group. Qed.

Lemma second_group_clock (tz : Time.tzinfo) (r : Re.regex) :
  Time.directive tz "S" = Some r → clock_groups r.
Proof. intros [= <-]. cbn [clock_groups]. clock_group. Qed.

Lemma directive_clock (tz : Time.tzinfo) (d : ascii) (r : Re.regex) :
  Time.directive tz d = Some r → clock_groups r.
Proof.
  destruct (decide (d = "H"%char)) as [->|]; [apply hour_group_clock|].
  destruct (decide (d = "M"%char)) as [->|]; [apply minute_group_clock|].
  destruct (decide (d = "S"%char)) as [->|]; [apply second_group_clock|].
  destruct d as [[] [] [] [] [] [] [] []]; try discriminate; try congruence;
    intros [= <-];
    first [ apply name_group_clock; reflexivity
          | apply free_group_clock; reflexivity ].
Qed.

Lemma format_regex_clock (tz : Time.tzinfo) (fuel : nat) (f : list ascii) (r : Re.regex) :
  Time.format_regex tz fuel f = Some r → clock_groups r.
Proof.
  revert f r. induction fuel as [|fuel IH]; intros f r; [done|].
  destruct f as [|c f]; [by intros [= <-]|].
  assert (∀ rest, (if Py.isspace c
           then rest ← Time.format_regex tz fuel (Py.lstrip_chars f);
                Some (Re.RSeq (Re.RRep (Re.RSet false [Re.ISpace]) 1 None) rest)
           else rest ← Time.format_regex tz fuel f; Some (Re.RSeq (Re.RChar c) rest))
          = Some rest → clock_groups rest) as Hother.
  { intros rest. destruct (Py.isspace c).
    - destruct (Time.format_regex tz fuel (Py.lstrip_chars f)) as [r'|] eqn:E; [|done].
      intros [= <-]. split; [done|]. by eapply IH.
    - destruct (Time.format_regex tz fuel f) as [r'|] eqn:E; [|done].
      intros [= <-]. split; [done|]. by eapply IH. }
  destruct (decide (c = "%"%char)) as [->|Hc].
  - cbn [Time.format_regex]. destruct f as [|d f]; [done|].
    destruct (Time.directive tz d) as [rd|] eqn:Ed; [|done].
    destruct (Time.format_regex tz fuel f) as [r'|] eqn:E; [|done].
    intros [= <-]. split; [by eapply directive_clock|by eapply IH].
  - destruct c as [[] [] [] [] [] [] [] []]; try congruence; apply Hother.
Qed.

Lemma group_elem (g : Re.caps) (n : nat) (txt : list ascii) :
  Re.group g n = Some txt → (n, txt) ∈ g.
Proof.
  induction g as [|[m t] g IH]; simpl; [done|].
  destruct (Nat.eqb_spec m n) as [->|].
  - intros [= ->]. apply list_elem_of_here.
  - intros H. by apply list_elem_of_further, IH.
Qed.

Lemma int_field_clock (g : Re.caps) (d : ascii) (b : Z) :
  clock_caps g → clock_bound (nat_of_ascii d) = Some b → (0 ≤ b)%Z →
  (0 ≤ Time.int_field g d 0 ≤ b)%Z.
Proof.
  intros Hg Hb Hpos. unfold Time.int_field, Time.field.
  destruct (Re.group g (nat_of_ascii d)) as [txt|] eqn:E; [|lia].
  apply group_elem in E.
  pose proof (proj1 (Forall_forall capture_ok g) Hg _ E) as H.
  unfold capture_ok in H. cbn [fst snd] in H. by rewrite Hb in H.
Qed.

Lemma strptime_time_of_day (tz : Time.tzinfo) (s format : string) (t : Time.struct_time) :
  Time.strptime tz s format = Ok t → time_of_day t.
Proof.
  unfold Time.strptime.
  destruct (Time.format_regex _ _ _) as [r|] eqn:Er; [|done].
  destruct (Re.match_here _ _ _) as [[[|] g]|] eqn:Em; [|done..].
  destruct (Time.toordinal _ _ _); [|done].
  destruct (Time.toordinal _ _ _); [|done].
  intros [= <-]. unfold time_of_day. cbn [Time.tm_hour Time.tm_min Time.tm_sec].
  assert (clock_caps g) as Hg.
  { apply format_regex_clock in Er.
    apply (rmatch_keeps_clock r Er) in Em as (s' & g' & _ & Hg' & [= _ <-]); [done|].
    constructor. }
  split; [|split]; by apply int_field_clock.
Qed.

(** X15. The clock of a time tuple that [cast_date] returns is within
    range: the hour from 0 to 23, the minute from 0 to 59, the second from 0
    to 61. *)
Theorem cast_date_returns_times_of_day (tz : Time.tzinfo) (date_str : string)
    (t : Time.struct_time) :
  cast_date tz date_str = Ok (Some t) → time_of_day t.
Proof.
  unfold cast_date. intros (tried & format & rest & _ & _ & H)%cast_date_loop_some.
  by eapply strptime_time_of_day.
Qed.

(** X15, at a [.pl] time stamp. *)
Lemma cast_date_returns_times_of_day_witness :
  time_of_day {| Time.tm_year := 2006; Time.tm_mon := 6; Time.tm_mday := 12;
                 Time.tm_hour := 15; Time.tm_min := 53; Time.tm_sec := 14;
                 Time.tm_wday := 0; Time.tm_yday := 163; Time.tm_isdst := -1 |}.
Proof.
  apply (cast_date_returns_times_of_day
           {| Time.tzname := ("UTC", "UTC"); Time.daylight := false |}
           "2006.06.12 15:53:14").
  vm_compute. reflexivity.
Defined.
